(** * Dockerfile decoder, build transform and deploy flow of the enclave CLI

    A shallow embedding of
    - [crates/ev-enclave/src/docker/parse.rs] (the streaming Dockerfile
      decoder, the [Directive] model and its [Display] renderer),
    - [src/build/mod.rs] ([process_dockerfile], the build transform),
    - [src/deploy/mod.rs] ([deploy_eif] and [timed_operation]).

    Bytes are [N] values below 256, byte buffers ([Bytes], [BytesMut],
    [Vec<u8>]) and Rust [String]s (which are UTF-8 byte sequences) are
    [list N].  Fallible code returns an [Outcome]: [Ok], [Err] or [Panic]
    (a Rust panic: failed [unwrap], slice index out of range). *)

From Stdlib Require Import List NArith Lia Bool String Ascii DecimalN Wf_nat.
Import ListNotations.
Open Scope N_scope.

(** ** Rust results, with panics made explicit *)

Inductive Outcome (E A : Type) : Type :=
| Ok (a : A)
| Err (e : E)
| Panic.
Arguments Ok {E A} a.
Arguments Err {E A} e.
Arguments Panic {E A}.

Definition obind {E A B} (m : Outcome E A) (k : A -> Outcome E B) : Outcome E B :=
  match m with
  | Ok a => k a
  | Err e => Err e
  | Panic => Panic
  end.

Notation "x <- m ;; k" := (obind m (fun x => k))
  (at level 61, m at next level, right associativity).

(** ** Byte strings *)

(** A byte-string literal: the bytes of a Rocq string. *)
Definition s2b (s : string) : list N := map Byte.to_N (list_byte_of_string s).

(** Same, with every backtick standing for a double quote (Rocq string
    literals cannot hold a lone double quote). *)
Definition s2bq (s : string) : list N :=
  map (fun b => if b =? 96 then 34 else b) (s2b s).

Definition LF : N := 10.
Definition SPACE : N := 32.
Definition BACKSLASH : N := 92.
Definition HASH : N := 35.
Definition DQUOTE : N := 34.
Definition SQUOTE : N := 39.
Definition EQUALS : N := 61.
Definition COMMA : N := 44.
Definition LBRACKET : N := 91.

(** [u8::is_ascii_whitespace]: space, tab, LF, form feed, CR. *)
Definition is_ascii_whitespace (b : N) : bool :=
  (b =? 32) || (b =? 9) || (b =? 10) || (b =? 12) || (b =? 13).

(** [u8::is_ascii_alphabetic]. *)
Definition is_ascii_alphabetic (b : N) : bool :=
  ((65 <=? b) && (b <=? 90)) || ((97 <=? b) && (b <=? 122)).

(** [u8::is_ascii]. *)
Definition is_ascii (b : N) : bool := b <? 128.

(** [u8::to_ascii_uppercase]. *)
Definition to_ascii_uppercase_byte (b : N) : N :=
  if (97 <=? b) && (b <=? 122) then b - 32 else b.

Definition to_ascii_uppercase (l : list N) : list N := map to_ascii_uppercase_byte l.

Fixpoint list_N_eqb (l1 l2 : list N) : bool :=
  match l1, l2 with
  | [], [] => true
  | x :: t1, y :: t2 => (x =? y) && list_N_eqb t1 t2
  | _, _ => false
  end.

(** [<[u8]>::split] on one separator byte: the empty slice yields one
    empty piece, [k] separators yield [k+1] pieces. *)
Fixpoint split_on (sep : N) (l : list N) : list (list N) :=
  match l with
  | [] => [[]]
  | x :: t =>
      let r := split_on sep t in
      if x =? sep then [] :: r
      else match r with
           | h :: r' => (x :: h) :: r'
           | [] => [[x]]
           end
  end.

(** [join] (itertools) and [<[String]>::join]. *)
Fixpoint join (sep : list N) (l : list (list N)) : list N :=
  match l with
  | [] => []
  | [x] => x
  | x :: t => x ++ sep ++ join sep t
  end.

(** [std::str::from_utf8] succeeds: the byte rules of UTF-8 as the Rust
    standard library checks them (no overlong forms, no surrogates, nothing
    above U+10FFFF). *)
Definition is_cont (b : N) : bool := (128 <=? b) && (b <? 192).

Definition in_range (lo hi b : N) : bool := (lo <=? b) && (b <=? hi).

Definition second_byte_ok (lead c : N) : bool :=
  if lead =? 224 then in_range 160 191 c
  else if lead =? 237 then in_range 128 159 c
  else if lead =? 240 then in_range 144 191 c
  else if lead =? 244 then in_range 128 143 c
  else is_cont c.

Fixpoint utf8_valid (l : list N) : bool :=
  match l with
  | [] => true
  | b :: t =>
      if b <? 128 then utf8_valid t
      else match t with
           | [] => false
           | c1 :: t1 =>
               if in_range 194 223 b then is_cont c1 && utf8_valid t1
               else match t1 with
                    | [] => false
                    | c2 :: t2 =>
                        if in_range 224 239 b then
                          second_byte_ok b c1 && is_cont c2 && utf8_valid t2
                        else match t2 with
                             | [] => false
                             | c3 :: t3 =>
                                 in_range 240 244 b && second_byte_ok b c1 &&
                                 is_cont c2 && is_cont c3 && utf8_valid t3
                             end
                    end
           end
  end.

(** [str::trim]: strips [char::is_whitespace] characters at both ends.
    On valid UTF-8 a whitespace character is recognised by its encoding:
    U+0009..U+000D, U+0020 (one byte), U+0085, U+00A0 (two bytes), U+1680,
    U+2000..U+200A, U+2028, U+2029, U+202F, U+205F, U+3000 (three bytes). *)
Definition ws1 (b : N) : bool := in_range 9 13 b || (b =? 32).
Definition ws2 (b c : N) : bool := (b =? 194) && ((c =? 133) || (c =? 160)).
Definition ws3 (b c d : N) : bool :=
  ((b =? 225) && (c =? 154) && (d =? 128)) ||
  ((b =? 226) && (c =? 128) &&
     (in_range 128 138 d || (d =? 168) || (d =? 169) || (d =? 175))) ||
  ((b =? 226) && (c =? 129) && (d =? 159)) ||
  ((b =? 227) && (c =? 128) && (d =? 128)).

Fixpoint trim_start (l : list N) : list N :=
  match l with
  | [] => []
  | b :: t =>
      if ws1 b then trim_start t
      else match t with
           | [] => l
           | c :: t1 =>
               if ws2 b c then trim_start t1
               else match t1 with
                    | [] => l
                    | d :: t2 => if ws3 b c d then trim_start t2 else l
                    end
           end
  end.

(** The same on the reversed bytes: the last byte of an encoding comes first. *)
Fixpoint trim_start_rev (l : list N) : list N :=
  match l with
  | [] => []
  | b :: t =>
      if ws1 b then trim_start_rev t
      else match t with
           | [] => l
           | c :: t1 =>
               if ws2 c b then trim_start_rev t1
               else match t1 with
                    | [] => l
                    | d :: t2 => if ws3 d c b then trim_start_rev t2 else l
                    end
           end
  end.

Definition trim_end (l : list N) : list N := rev (trim_start_rev (rev l)).
Definition trim (l : list N) : list N := trim_end (trim_start l).

(** [str::strip_prefix] and [str::strip_suffix] of one double quote,
    falling back to the token itself ([unwrap_or]). *)
Definition strip_prefix_quote (l : list N) : list N :=
  match l with
  | b :: t => if b =? DQUOTE then t else l
  | [] => l
  end.

Definition strip_suffix_quote (l : list N) : list N :=
  match rev l with
  | b :: t => if b =? DQUOTE then rev t else l
  | [] => l
  end.

(** [<u16 as FromStr>::from_str]: an optional [+], then one or more
    decimal digits, value at most 65535 ([None] is the [ParseIntError]). *)
Definition is_digit (b : N) : bool := in_range 48 57 b.

Fixpoint digits_value (acc : N) (l : list N) : option N :=
  match l with
  | [] => Some acc
  | d :: t =>
      if is_digit d then
        let acc' := acc * 10 + (d - 48) in
        if acc' <=? 65535 then digits_value acc' t else None
      else None
  end.

Definition parse_u16 (s : list N) : option N :=
  match s with
  | [] => None
  | [b] => if b =? 43 then None else digits_value 0 s
  | b :: t => if b =? 43 then digits_value 0 t else digits_value 0 s
  end.

(** [<u16 as Display>::fmt]: decimal digits, no leading zeros. *)
Fixpoint uint_digits (u : Decimal.uint) : list N :=
  match u with
  | Decimal.Nil => []
  | Decimal.D0 u => 48 :: uint_digits u
  | Decimal.D1 u => 49 :: uint_digits u
  | Decimal.D2 u => 50 :: uint_digits u
  | Decimal.D3 u => 51 :: uint_digits u
  | Decimal.D4 u => 52 :: uint_digits u
  | Decimal.D5 u => 53 :: uint_digits u
  | Decimal.D6 u => 54 :: uint_digits u
  | Decimal.D7 u => 55 :: uint_digits u
  | Decimal.D8 u => 56 :: uint_digits u
  | Decimal.D9 u => 57 :: uint_digits u
  end.

Definition u16_to_string (n : N) : list N := uint_digits (N.to_uint n).

(** ** The directive model ([parse.rs], lines 11-90) *)

Module Delimiter.
Inductive t := Eq | None.
End Delimiter.

Inductive Mode := Exec | Shell.

(** [impl From<u8> for Mode]. *)
Definition mode_from (byte : N) : Mode := if byte =? LBRACKET then Exec else Shell.

Record EnvVar := mkEnvVar { key : list N; val : list N; delim : Delimiter.t }.

Inductive Directive :=
| Add (source_url destination_path : list N)
| Comment (bytes : list N)
| Entrypoint (mode : option Mode) (tokens : list (list N))
| Cmd (mode : option Mode) (tokens : list (list N))
| Expose (port : option N)
| Run (bytes : list N)
| User (bytes : list N)
| Env (vars : list EnvVar)
| Other (directive arguments : list N)
| From (arguments : list N).

Module DecodeError.
(** The payloads of [IoError], [InvalidUtf8] and [InvalidExposedPort]
    (library error values) are not modelled. *)
Inductive t :=
| IoError
| UnexpectedToken
| InvalidUtf8
| NoEntrypoint
| IncompleteInstruction
| InvalidExposedPort.
End DecodeError.

Definition DResult := Outcome DecodeError.t.

Definition is_cmd (d : Directive) : bool := match d with Cmd _ _ => true | _ => false end.
Definition is_entrypoint (d : Directive) : bool :=
  match d with Entrypoint _ _ => true | _ => false end.
Definition is_expose (d : Directive) : bool := match d with Expose _ => true | _ => false end.

(** [Directive::set_mode]: panics on any other variant. *)
Definition set_mode (d : Directive) (new_mode : Mode) : DResult Directive :=
  match d with
  | Entrypoint _ toks => Ok (Entrypoint (Some new_mode) toks)
  | Cmd _ toks => Ok (Cmd (Some new_mode) toks)
  | _ => Panic
  end.

(** [std::str::from_utf8(..)?]. *)
Definition from_utf8 (l : list N) : DResult (list N) :=
  if utf8_valid l then Ok l else Err DecodeError.InvalidUtf8.

(** [Directive::extract_tokens_for_env_directive] (lines 138-180).  The
    Rust loop runs over [chars()]; every character it tests is ASCII and the
    bytes of a multi-byte UTF-8 character are all at least 0x80, so running
    over the bytes and pushing each one pushes the same text. *)
Record EnvTokState := mkEnvTok {
  in_quotes : bool; escape : bool; current_token : list N;
  env_tokens : list (list N); env_delim : Delimiter.t }.

Definition env_tok_step (s : EnvTokState) (c : N) : EnvTokState :=
  let push := current_token s ++ [c] in
  if (c =? BACKSLASH) && escape s then
    mkEnvTok (in_quotes s) false push (env_tokens s) (env_delim s)
  else if c =? BACKSLASH then
    mkEnvTok (in_quotes s) true (current_token s) (env_tokens s) (env_delim s)
  else if c =? DQUOTE then
    mkEnvTok (negb (in_quotes s)) (escape s) push (env_tokens s) (env_delim s)
  else if (c =? SPACE) && in_quotes s then
    mkEnvTok (in_quotes s) (escape s) push (env_tokens s) (env_delim s)
  else if c =? SPACE then
    match current_token s with
    | [] => s
    | cur => mkEnvTok (in_quotes s) (escape s) [] (env_tokens s ++ [trim cur]) (env_delim s)
    end
  else if (c =? EQUALS) && negb (in_quotes s) && negb (escape s) then
    mkEnvTok (in_quotes s) (escape s) push (env_tokens s) Delimiter.Eq
  else mkEnvTok (in_quotes s) (escape s) push (env_tokens s) (env_delim s).

Definition extract_tokens_for_env_directive (directive : list N)
  : list (list N) * Delimiter.t :=
  let s := fold_left env_tok_step directive (mkEnvTok false false [] [] Delimiter.None) in
  match current_token s with
  | [] => (env_tokens s, env_delim s)
  | cur => (env_tokens s ++ [trim cur], env_delim s)
  end.

(** [str::splitn(2, '=')] on a token containing [=]: the text before the
    first [=] and the text after it. *)
Fixpoint split_first_eq (l : list N) : list N * option (list N) :=
  match l with
  | [] => ([], None)
  | c :: t =>
      if c =? EQUALS then ([], Some t)
      else let (k, v) := split_first_eq t in (c :: k, v)
  end.

(** The [while i < tokens.len()] loop of [parse_env_directive]. *)
Fixpoint env_assignments (delim : Delimiter.t) (tokens : list (list N))
  : DResult (list EnvVar) :=
  match tokens with
  | [] => Ok []
  | token :: rest =>
      if negb (existsb (N.eqb EQUALS) token) then Err DecodeError.IncompleteInstruction
      else
        let (k, v) := split_first_eq token in
        match v with
        | None => Err DecodeError.IncompleteInstruction
        | Some v =>
            vars <- env_assignments delim rest;;
            Ok (mkEnvVar k v delim :: vars)
        end
  end.

(** [Directive::parse_env_directive] (lines 182-225). *)
Definition parse_env_directive (directive : list N) : DResult (list EnvVar) :=
  let (tokens, delim) := extract_tokens_for_env_directive directive in
  match delim with
  | Delimiter.None =>
      match tokens with
      | k :: (_ :: _) as values => Ok [mkEnvVar k (join [SPACE] values) delim]
      | _ => Err DecodeError.IncompleteInstruction
      end
  | Delimiter.Eq => env_assignments delim tokens
  end.

(** Exec form token: [trim], strip one leading and one trailing quote. *)
Definition exec_token (token : list N) : list N :=
  strip_suffix_quote (strip_prefix_quote (trim token)).

(** [Directive::set_arguments] (lines 227-298). *)
Definition set_arguments (d : Directive) (given_arguments : list N) : DResult Directive :=
  let entry_tokens (mode : option Mode) : DResult (list (list N)) :=
    match mode with
    | None => Panic (* mode.as_ref().unwrap() *)
    | Some Exec =>
        (* &given_arguments[1..given_arguments.len() - 1] *)
        if Nat.ltb (List.length given_arguments) 2 then Panic
        else
          let terms := firstn (List.length given_arguments - 2)%nat (tl given_arguments) in
          Ok (map exec_token (filter utf8_valid (split_on COMMA terms)))
    | Some Shell => Ok (filter utf8_valid (split_on SPACE given_arguments))
    end in
  match d with
  | Entrypoint mode _ => toks <- entry_tokens mode;; Ok (Entrypoint mode toks)
  | Cmd mode _ => toks <- entry_tokens mode;; Ok (Cmd mode toks)
  | Add _ _ =>
      let parsed_args :=
        filter (fun s => negb (list_N_eqb s [])) (filter utf8_valid (split_on SPACE given_arguments)) in
      match parsed_args with
      | [] => Err DecodeError.IncompleteInstruction
      | [_] => Err DecodeError.IncompleteInstruction
      | src :: dst :: _ => Ok (Add src dst)
      end
  | Expose _ =>
      port_str <- from_utf8 given_arguments;;
      match parse_u16 port_str with
      | Some p => Ok (Expose (Some p))
      | None => Err DecodeError.InvalidExposedPort
      end
  | Env _ =>
      vars_str <- from_utf8 given_arguments;;
      vars <- parse_env_directive vars_str;;
      Ok (Env vars)
  | Other name _ => Ok (Other name given_arguments)
  | Comment _ => Ok (Comment given_arguments)
  | Run _ => Ok (Run given_arguments)
  | From _ => Ok (From given_arguments)
  | User _ => Ok (User given_arguments)
  end.

(** ** Rendering: [impl Display for EnvVar] and [impl Display for Directive] *)

Definition envvar_to_string (v : EnvVar) : list N :=
  match delim v with
  | Delimiter.Eq => key v ++ [EQUALS] ++ val v
  | Delimiter.None => key v ++ [SPACE] ++ val v
  end.

Definition quote_token (t : list N) : list N := [DQUOTE] ++ t ++ [DQUOTE].

(** [Directive::arguments] (lines 300-336). *)
Definition arguments (d : Directive) : option (list N) :=
  let verbatim (b : list N) :=
    if utf8_valid b then b else s2b "[Invalid utf8 arguments]" in
  match d with
  | Add s t => Some (s ++ [SPACE] ++ t)
  | Env vars => Some (join [SPACE] (map envvar_to_string vars))
  | Comment b | Run b | User b | From b | Other _ b => Some (verbatim b)
  | Entrypoint mode tokens | Cmd mode tokens =>
      match mode with
      | Some Exec => Some ([LBRACKET] ++ join (s2b ", ") (map quote_token tokens) ++ s2b "]")
      | _ => Some (join [SPACE] tokens)
      end
  | Expose port => option_map u16_to_string port
  end.

Definition prefix (d : Directive) : list N :=
  match d with
  | Add _ _ => s2b "ADD"
  | Comment _ => s2b "#"
  | Entrypoint _ _ => s2b "ENTRYPOINT"
  | Cmd _ _ => s2b "CMD"
  | Expose _ => s2b "EXPOSE"
  | Run _ => s2b "RUN"
  | User _ => s2b "USER"
  | Env _ => s2b "ENV"
  | Other directive _ => directive
  | From _ => s2b "FROM"
  end.

(** [write!(f, "{} {}", prefix, args)]. *)
Definition render (d : Directive) : list N :=
  prefix d ++ [SPACE] ++ match arguments d with Some s => s | None => [] end.

(** ** The streaming decoder ([parse.rs], lines 419-902) *)

(** [impl TryFrom<&[u8]> for Directive]: the keyword read before the first
    space. *)
Definition directive_try_from (value : list N) : DResult Directive :=
  directive_str <- from_utf8 value;;
  let upper := to_ascii_uppercase directive_str in
  let directive :=
    if list_N_eqb upper (s2b "ENTRYPOINT") then Entrypoint None []
    else if list_N_eqb upper (s2b "CMD") then Cmd None []
    else if list_N_eqb upper (s2b "EXPOSE") then Expose None
    else if list_N_eqb upper (s2b "RUN") then Run []
    else if list_N_eqb upper (s2b "USER") then User []
    else if list_N_eqb upper (s2b "ENV") then Env []
    else if list_N_eqb upper (s2b "FROM") then From []
    else Other directive_str [] in
  match directive_str with
  | b :: _ => if b =? HASH then Ok (Comment []) else Ok directive
  | [] => Ok directive
  end.

Inductive NewLineBehaviour := Escaped | IgnoreLine | Observe.

Inductive StringToken := SingleQuote | DoubleQuote.

Definition StringToken_eqb (a b : StringToken) : bool :=
  match a, b with
  | SingleQuote, SingleQuote | DoubleQuote, DoubleQuote => true
  | _, _ => false
  end.

(** [StringStack]: a [Vec]; [push] appends, [pop] and [peek_top] act on the
    last element. *)
Definition StringStack := list StringToken.

Definition peek_top (s : StringStack) : option StringToken := last (map Some s) None.

Module DecoderState.
Inductive t :=
| Directive (buf : list N)
| DirectiveArguments (directive : Directive) (arguments : option (list N))
    (new_line_behaviour : NewLineBehaviour) (string_stack : StringStack)
| Comment (buf : list N)
| Whitespace.
End DecoderState.

(** One round of a [loop { match self.read_u8(src) { ... } }]: go on with
    the updated [&mut] arguments, or leave the loop with a value. *)
Inductive Step (A R : Type) := Continue (a : A) | Return (r : R) (a : A).
Arguments Continue {A R} a.
Arguments Return {A R} r a.

(** The reading loop shared by the [decode_*] helpers: [read_u8] takes the
    next byte of [src]; when [src] is exhausted the helper returns
    [Ok(None)], keeping what its [&mut] arguments accumulated. *)
Fixpoint read_loop {A R} (body : N -> A -> DResult (Step A R)) (src : list N) (a : A)
  : DResult (option R * A * list N) :=
  match src with
  | [] => Ok (None, a, [])
  | b :: src' =>
      match body b a with
      | Ok (Continue a') => read_loop body src' a'
      | Ok (Return r a') => Ok (Some r, a', src')
      | Err e => Err e
      | Panic => Panic
      end
  end.

(** [DockerfileDecoder::derive_new_line_state] (lines 630-647). *)
Definition derive_new_line_state (first_byte : N) : DResult DecoderState.t :=
  if is_ascii_whitespace first_byte then Ok DecoderState.Whitespace
  else if is_ascii_alphabetic first_byte then Ok (DecoderState.Directive [first_byte])
  else if first_byte =? HASH then Ok (DecoderState.Comment [])
  else Err DecodeError.UnexpectedToken.

(** [decode_whitespace] (lines 649-663). *)
Definition decode_whitespace (src : list N) : DResult (option DecoderState.t * unit * list N) :=
  read_loop (fun byte (u : unit) =>
               if is_ascii_whitespace byte then Ok (Continue u)
               else st <- derive_new_line_state byte;; Ok (Return st u)) src tt.

(** [decode_comment] (lines 665-684). *)
Definition decode_comment (src : list N) (content : list N)
  : DResult (option Directive * list N * list N) :=
  read_loop (fun byte content =>
               if byte =? LF then Ok (Return (Comment content) content)
               else Ok (Continue (content ++ [byte]))) src content.

(** [decode_directive] (lines 686-709). *)
Definition decode_directive (src : list N) (directive : list N)
  : DResult (option DecoderState.t * list N * list N) :=
  read_loop (fun byte directive =>
               if byte =? SPACE then
                 d <- directive_try_from directive;;
                 Ok (Return (DecoderState.DirectiveArguments d None Observe []) directive)
               else if is_ascii byte then Ok (Continue (directive ++ [byte]))
               else Err DecodeError.UnexpectedToken) src directive.

Definition ArgState : Type := Directive * option (list N) * NewLineBehaviour * StringStack.

Definition is_observe (n : NewLineBehaviour) : bool :=
  match n with Observe => true | _ => false end.
Definition is_escaped (n : NewLineBehaviour) : bool :=
  match n with Escaped => true | _ => false end.

Definition ends_with_escaped_newline (l : list N) : bool :=
  match rev l with
  | n :: b :: _ => (n =? LF) && (b =? BACKSLASH)
  | _ => false
  end.

Definition is_none {A} (o : option A) : bool := match o with None => true | Some _ => false end.

Definition string_token_of (b : N) : option StringToken :=
  if b =? SQUOTE then Some SingleQuote
  else if b =? DQUOTE then Some DoubleQuote
  else None.

(** The body of the loop of [decode_directive_arguments] (lines 720-804),
    one match arm per branch, in the source's order. *)
Definition directive_arguments_step (next_byte : N) (st : ArgState)
  : DResult (Step ArgState Directive) :=
  let '(directive, arguments, nl, string_stack) := st in
  let or_new (a : option (list N)) := match a with Some b => b | None => [] end in
  if ((next_byte =? LF) || (next_byte =? BACKSLASH)) && is_none arguments then
    Err DecodeError.UnexpectedToken
  else if (next_byte =? LF) && negb (is_observe nl) then
    Ok (Continue (directive, Some (or_new arguments ++ [next_byte]), nl, string_stack))
  else if next_byte =? LF then
    match arguments with
    | None => Panic
    | Some content =>
        d <- set_arguments directive content;;
        Ok (Return d (d, arguments, nl, string_stack))
    end
  else if next_byte =? BACKSLASH then
    let nl' := match nl with Escaped => Observe | Observe => Escaped | IgnoreLine => IgnoreLine end in
    match arguments with
    | None => Panic
    | Some a => Ok (Continue (directive, Some (a ++ [next_byte]), nl', string_stack))
    end
  else if (next_byte =? SPACE) && is_none arguments then
    Ok (Continue st)
  else if next_byte =? HASH then
    let nl' :=
      match string_stack with
      | [] => if ends_with_escaped_newline (or_new arguments) then IgnoreLine else Observe
      | _ => nl
      end in
    Ok (Continue (directive, Some (or_new arguments ++ [next_byte]), nl', string_stack))
  else
    d <- (if is_none arguments && (is_cmd directive || is_entrypoint directive)
          then set_mode directive (mode_from next_byte) else Ok directive);;
    let nl' := if is_escaped nl then Observe else nl in
    let ss' :=
      match string_token_of next_byte with
      | Some token =>
          match peek_top string_stack with
          | Some top => if StringToken_eqb top token then removelast string_stack
                        else string_stack ++ [token]
          | None => string_stack ++ [token]
          end
      | None => string_stack
      end in
    Ok (Continue (d, Some (or_new arguments ++ [next_byte]), nl', ss')).

(** [decode_directive_arguments] (lines 711-806). *)
Definition decode_directive_arguments (src : list N) (st : ArgState)
  : DResult (option Directive * ArgState * list N) :=
  read_loop directive_arguments_step src st.

(** The [loop] of [Decoder::decode] (lines 841-893).  Whitespace leads to
    [Directive] or [Comment], [Directive] to [DirectiveArguments], and the
    last two return, so three rounds always suffice
    ([decode_loop_enough_fuel] below). *)
Fixpoint decode_loop (fuel : nat) (decode_state : DecoderState.t) (src : list N)
  : DResult (option Directive * option DecoderState.t * list N) :=
  match fuel with
  | O => Ok (None, Some decode_state, src)
  | S fuel' =>
      match decode_state with
      | DecoderState.Whitespace =>
          r <- decode_whitespace src;;
          match r with
          | (Some next, _, src') => decode_loop fuel' next src'
          | (None, _, src') => Ok (None, None, src')
          end
      | DecoderState.Comment content =>
          r <- decode_comment src content;;
          match r with
          | (Some d, _, src') => Ok (Some d, None, src')
          | (None, content', src') => Ok (None, Some (DecoderState.Comment content'), src')
          end
      | DecoderState.Directive directive =>
          r <- decode_directive src directive;;
          match r with
          | (Some next, _, src') => decode_loop fuel' next src'
          | (None, directive', src') => Ok (None, Some (DecoderState.Directive directive'), src')
          end
      | DecoderState.DirectiveArguments directive arguments nl ss =>
          r <- decode_directive_arguments src (directive, arguments, nl, ss);;
          match r with
          | (Some instruction, _, src') => Ok (Some instruction, None, src')
          | (None, (directive', arguments', nl', ss'), src') =>
              Ok (None, Some (DecoderState.DirectiveArguments directive' arguments' nl' ss'), src')
          end
      end
  end.

(** [Decoder::decode] for [DockerfileDecoder] (lines 827-894): from the
    saved [current_state] and the buffer, the decoded item (if any), the new
    [current_state] and the unread rest of the buffer. *)
Definition decode (current_state : option DecoderState.t) (src : list N)
  : DResult (option Directive * option DecoderState.t * list N) :=
  match current_state with
  | None =>
      match src with
      | [] => Ok (None, None, [])
      | first_byte :: src' =>
          initial_state <- derive_new_line_state first_byte;;
          decode_loop 3 initial_state src'
      end
  | Some st => decode_loop 3 st src
  end.

(** [impl TryInto<Option<Directive>> for DecoderState] (lines 542-560). *)
Definition state_try_into (s : DecoderState.t) : DResult (option Directive) :=
  match s with
  | DecoderState.Comment content => Ok (Some (Comment content))
  | DecoderState.DirectiveArguments directive arguments _ _ =>
      match arguments with
      | None => Err DecodeError.IncompleteInstruction
      | Some a => d <- set_arguments directive a;; Ok (Some d)
      end
  | _ => Ok None
  end.

(** [DockerfileDecoder::flush] (lines 614-620); the state is taken. *)
Definition flush (current_state : option DecoderState.t) : DResult (option Directive) :=
  match current_state with
  | None => Ok None
  | Some s => state_try_into s
  end.

(** [Decoder::decode_eof] (lines 896-901). *)
Definition decode_eof (current_state : option DecoderState.t) (buf : list N)
  : DResult (option Directive * option DecoderState.t * list N) :=
  r <- decode current_state buf;;
  match r with
  | (Some directive, st, rest) => Ok (Some directive, st, rest)
  | (None, st, rest) => f <- flush st;; Ok (f, None, rest)
  end.

(** ** Driving the decoder: [FramedRead] and [decode_dockerfile_from_src]

    [FramedRead] reads a chunk from the source into its buffer, calls
    [decode] until it yields [None] (the buffer is then used up), reads the
    next chunk, and so on.  A read of zero bytes is the end of input: from
    then on it calls [decode_eof] until it yields [None].
    [decode_dockerfile_from_src] collects the items and stops at the first
    error.  The source is given as the list of its (non-empty) reads. *)

(** Calls of [decode] on one buffer, until it yields [None].  Each item
    consumes at least one byte, so [S (length buf)] rounds suffice. *)
Fixpoint drain (fuel : nat) (st : option DecoderState.t) (buf : list N)
  : DResult (list Directive * option DecoderState.t * list N) :=
  match fuel with
  | O => Ok ([], st, buf)
  | S fuel' =>
      r <- decode st buf;;
      match r with
      | (Some d, st', rest) =>
          r' <- drain fuel' st' rest;;
          let '(ds, st'', rest') := r' in Ok (d :: ds, st'', rest')
      | (None, st', rest) => Ok ([], st', rest)
      end
  end.

(** Calls of [decode_eof] at the end of input, until it yields [None]. *)
Fixpoint eof_drain (fuel : nat) (st : option DecoderState.t) (buf : list N)
  : DResult (list Directive) :=
  match fuel with
  | O => Ok []
  | S fuel' =>
      r <- decode_eof st buf;;
      match r with
      | (Some d, st', rest) => ds <- eof_drain fuel' st' rest;; Ok (d :: ds)
      | (None, _, _) => Ok []
      end
  end.

Fixpoint framed_read (chunks : list (list N)) (st : option DecoderState.t) (buf : list N)
  : DResult (list Directive) :=
  match chunks with
  | [] => eof_drain (S (S (List.length buf))) st buf
  | chunk :: chunks' =>
      let buf' := buf ++ chunk in
      r <- drain (S (List.length buf')) st buf';;
      let '(ds, st', rest) := r in
      ds' <- framed_read chunks' st' rest;;
      Ok (ds ++ ds')
  end.

(** [DockerfileDecoder::decode_dockerfile_from_src] (lines 808-820). *)
Definition decode_dockerfile_from_src (chunks : list (list N)) : DResult (list Directive) :=
  framed_read chunks None [].

(** The whole stream delivered by a single read. *)
Definition single_read (s : list N) : list (list N) :=
  match s with [] => [] | _ => [s] end.

Definition decode_bytes (s : list N) : DResult (list Directive) :=
  decode_dockerfile_from_src (single_read s).

(** A line: the text (backtick for double quote) and a line feed. *)
Definition line (s : string) : list N := s2bq s ++ [LF].

(** ** The build transform: [process_dockerfile] ([src/build/mod.rs]) *)

Module DockerError.
Inductive t :=
| ParserDecodeError (e : DecodeError.t)
| DaemonNotRunning
| RestrictedPortExposed (port : N).
End DockerError.

Module BuildError.
(** [BuildError] is declared in [src/build/error.rs], which is not in the
    sources; [process_dockerfile] reaches it through [?] from
    [DockerError] and from the [DecodeError] of the entrypoint helper. *)
Inductive t := DockerError (e : DockerError.t).
End BuildError.

(** The fields of [ValidatedCageBuildConfig] the transform reads. *)
Record ValidatedCageBuildConfig := mkConfig {
  cage_name : list N; cage_uuid : list N; app_uuid : list N; team_uuid : list N;
  egress_enabled : bool; disable_tls_termination : bool;
  api_key_auth : bool; trx_logging_enabled : bool }.

Definition bool_to_string (b : bool) : list N := if b then s2b "true" else s2b "false".

(** Modelled from the spec: [get_dataplane_feature_label] (not in the
    sources), "egress-(enabled|disabled)/tls-termination-(enabled|disabled)". *)
Definition get_dataplane_feature_label (c : ValidatedCageBuildConfig) : list N :=
  s2b "egress-" ++ (if egress_enabled c then s2b "enabled" else s2b "disabled") ++
  s2b "/tls-termination-" ++
  (if disable_tls_termination c then s2b "disabled" else s2b "enabled").

(** Modelled from the spec: [docker::utils::create_combined_docker_entrypoint]
    (not in the sources).  Both absent: [NoEntrypoint]; otherwise the
    entrypoint's text, then the command's, joined by single spaces (the
    spec's shell quoting of exec tokens is not modelled). *)
Definition create_combined_docker_entrypoint (entrypoint cmd : option Directive)
  : DResult (list N) :=
  let text (d : Directive) : list (list N) :=
    match d with
    | Entrypoint _ toks | Cmd _ toks => toks
    | _ => []
    end in
  match entrypoint, cmd with
  | None, None => Err DecodeError.NoEntrypoint
  | Some e, None => Ok (join [SPACE] (text e))
  | None, Some c => Ok (join [SPACE] (text c))
  | Some e, Some c => Ok (join [SPACE] (text e ++ text c))
  end.

(** Modelled from the spec and the expected output in the tests of
    [process_dockerfile]: [docker::utils::write_command_to_script] (not in the
    sources) renders [printf "#!/bin/sh\n<script>\n"<args> > <path> && chmod +x <path>]. *)
Definition write_command_to_script (script path : list N) (args : list (list N)) : list N :=
  s2bq "printf `#!/bin/sh\n" ++ script ++ s2bq "\n`" ++ List.concat args ++
  s2b " > " ++ path ++ s2b " && chmod +x " ++ path.

(** [Directive::new_env(key, value)] of the build tree: one [KEY=VALUE]. *)
Definition new_env (k v : list N) : Directive := Env [mkEnvVar k v Delimiter.Eq].

(** What the filter closure of [process_dockerfile] captures. *)
Record Tracked := mkTracked {
  last_cmd : option Directive; last_entrypoint : option Directive;
  exposed_port : option N }.

(** The closure [remove_unwanted_directives] (lines 127-138): keep the
    directive or record it. *)
Definition remove_unwanted_directives (t : Tracked) (d : Directive) : bool * Tracked :=
  if is_cmd d then (false, mkTracked (Some d) (last_entrypoint t) (exposed_port t))
  else if is_entrypoint d then (false, mkTracked (last_cmd t) (Some d) (exposed_port t))
  else match d with
       | Expose port => (false, mkTracked (last_cmd t) (last_entrypoint t) port)
       | _ => (true, t)
       end.

(** [instruction_set.into_iter().filter(..).collect()], in order. *)
Fixpoint filter_tracking (t : Tracked) (l : list Directive) : list Directive * Tracked :=
  match l with
  | [] => ([], t)
  | d :: rest =>
      let (keep, t') := remove_unwanted_directives t d in
      let (kept, t'') := filter_tracking t' rest in
      (if keep then d :: kept else kept, t'')
  end.

Definition INSTALLER_DIRECTORY := s2b "/opt/evervault".
Definition USER_ENTRYPOINT_SERVICE_PATH := s2b "/etc/service/user-entrypoint".
Definition DATA_PLANE_SERVICE_PATH := s2b "/etc/service/data-plane".

Definition wait_for_env : list N :=
  s2bq "while ! grep -q \`EV_API_KEY\` /etc/customer-env\n do echo \`Env not ready, sleeping user process for one second\`\n sleep 1\n done \n source /etc/customer-env\n".

Definition entrypoint_script (entrypoint : list N) : list N :=
  s2bq "sleep 5\necho \`Checking status of data-plane\`\nSVDIR=/etc/service sv check data-plane || exit 1\necho \`Data-plane up and running\`\n"
  ++ wait_for_env ++ s2bq "\necho \`Booting user service...\`\ncd %s\nexec " ++ entrypoint.

Definition data_plane_run_script_base : list N :=
  s2bq "echo \`Booting Evervault data plane...\`\nexec /opt/evervault/data-plane".

(** Lines 174-178. *)
Definition data_plane_run_script (exposed_port : option N) : list N :=
  match exposed_port with
  | Some port => data_plane_run_script_base ++ [SPACE] ++ u16_to_string port
  | None => data_plane_run_script_base
  end.

Definition bootstrap_script_content : list N :=
  s2bq "ifconfig lo 127.0.0.1\necho \`Booting enclave...\`\nexec runsvdir /etc/service".

Definition data_plane_run_directive (exposed_port : option N) : Directive :=
  Run (write_command_to_script (data_plane_run_script exposed_port)
         (DATA_PLANE_SERVICE_PATH ++ s2b "/run") []).

Definition final_entrypoint : Directive :=
  Entrypoint (Some Exec) [s2b "/bootstrap"; s2b "1>&2"].

(** [injected_directives] (lines 190-232). *)
Definition injected_directives (c : ValidatedCageBuildConfig) (ev_domain : list N)
  (data_plane_version installer_version : list N) (user_service_builder : Directive)
  (exposed_port : option N) : list Directive :=
  let data_plane_url :=
    s2b "https://cage-build-assets." ++ ev_domain ++ s2b "/runtime/" ++ data_plane_version ++
    s2b "/data-plane/" ++ get_dataplane_feature_label c in
  let installer_bundle_url :=
    s2b "https://cage-build-assets." ++ ev_domain ++ s2b "/installer/" ++ installer_version ++
    s2b ".tar.gz" in
  let installer_bundle := s2b "runtime-dependencies.tar.gz" in
  let installer_destination := INSTALLER_DIRECTORY ++ s2b "/" ++ installer_bundle in
  [ Run (s2b "mkdir -p " ++ INSTALLER_DIRECTORY);
    Add installer_bundle_url installer_destination;
    Run (s2b "cd " ++ INSTALLER_DIRECTORY ++ s2b " ; tar -xzf " ++ installer_bundle ++
         s2b " ; sh ./installer.sh ; rm " ++ installer_bundle);
    Run (s2b "mkdir -p " ++ USER_ENTRYPOINT_SERVICE_PATH);
    user_service_builder;
    Add data_plane_url (s2b "/opt/evervault/data-plane");
    Run (s2b "chmod +x /opt/evervault/data-plane");
    Run (s2b "mkdir -p " ++ DATA_PLANE_SERVICE_PATH);
    data_plane_run_directive exposed_port;
    new_env (s2b "EV_CAGE_NAME") (cage_name c);
    new_env (s2b "CAGE_UUID") (cage_uuid c);
    new_env (s2b "EV_APP_UUID") (app_uuid c);
    new_env (s2b "EV_TEAM_UUID") (team_uuid c);
    new_env (s2b "DATA_PLANE_HEALTH_CHECKS") (s2b "true");
    new_env (s2b "EV_API_KEY_AUTH") (bool_to_string (api_key_auth c));
    new_env (s2b "EV_TRX_LOGGING_ENABLED") (bool_to_string (trx_logging_enabled c));
    Run (write_command_to_script bootstrap_script_content (s2b "/bootstrap") []);
    final_entrypoint ].

Definition BResult := Outcome BuildError.t.

Definition from_decode_error {A} (r : DResult A) : BResult A :=
  match r with
  | Ok a => Ok a
  | Err e => Err (BuildError.DockerError (DockerError.ParserDecodeError e))
  | Panic => Panic
  end.

(** [process_dockerfile] after decoding (lines 122-235).  [ev_domain_var]
    is the value of the [EV_DOMAIN] environment variable, if set. *)
Definition transform_directives (build_config : ValidatedCageBuildConfig)
  (ev_domain_var : option (list N)) (data_plane_version installer_version : list N)
  (instruction_set : list Directive) : BResult (list Directive) :=
  let (cleaned_instructions, t) :=
    filter_tracking (mkTracked None None None) instruction_set in
  entrypoint <- from_decode_error
                  (create_combined_docker_entrypoint (last_entrypoint t) (last_cmd t));;
  let user_service_builder :=
    Run (write_command_to_script (entrypoint_script entrypoint)
           (USER_ENTRYPOINT_SERVICE_PATH ++ s2b "/run") [s2bq " `$PWD` "]) in
  _ <- match exposed_port t with
  | Some port => if port =? 443
                 then Err (BuildError.DockerError (DockerError.RestrictedPortExposed port))
                 else Ok tt
  | None => Ok tt
  end;;
  let ev_domain := match ev_domain_var with Some d => d | None => s2b "evervault.com" end in
  Ok (cleaned_instructions ++
      injected_directives build_config ev_domain data_plane_version installer_version
        user_service_builder (exposed_port t)).

(** [process_dockerfile] (lines 113-236): decode, then transform. *)
Definition process_dockerfile (build_config : ValidatedCageBuildConfig)
  (ev_domain_var : option (list N)) (dockerfile_src : list (list N))
  (data_plane_version installer_version : list N) : BResult (list Directive) :=
  instruction_set <- from_decode_error (decode_dockerfile_from_src dockerfile_src);;
  transform_directives build_config ev_domain_var data_plane_version installer_version
    instruction_set.

(** ** Deploying: [deploy_eif] and [timed_operation] ([src/deploy/mod.rs]) *)

Module DeployError.
(** [src/deploy/error.rs] is not in the sources; the constructors are the
    ones [deploy/mod.rs] builds, plus one per error it propagates with [?]. *)
Inductive t :=
| UploadError (text : list N)
| TimeoutError (operation : list N) (seconds : N)
| DeploymentError
| IoError
| ZipError
| ApiError
| RequestError
| EifSizeReadError.
End DeployError.

(** The file system: the paths that exist. *)
Definition Fs := list (list N).

Definition path_exists (p : list N) (fs : Fs) : bool := existsb (list_N_eqb p) fs.

(** Deploy code runs in a state and error monad over the file system. *)
Definition M (A : Type) : Type := Fs -> Outcome DeployError.t A * Fs.

Definition ret {A} (a : A) : M A := fun fs => (Ok a, fs).
Definition throw {A} (e : DeployError.t) : M A := fun fs => (Err e, fs).
Definition mbind {A B} (m : M A) (k : A -> M B) : M B :=
  fun fs => match m fs with
            | (Ok a, fs') => k a fs'
            | (Err e, fs') => (Err e, fs')
            | (Panic, fs') => (Panic, fs')
            end.
Notation "x <-- m ;;; k" := (mbind m (fun x => k))
  (at level 61, m at next level, right associativity).

Definition path_join (dir name : list N) : list N := dir ++ s2b "/" ++ name.

Definition ENCLAVE_ZIP_FILENAME := s2b "enclave.zip".
Definition ENCLAVE_FILENAME := s2b "enclave.eif".
Definition DEPLOY_WATCH_TIMEOUT_SECONDS : N := 1200.

(** [create_zip_archive_for_eif] (lines 204-228): the zip file is created
    (or reopened), then the EIF is read into it. *)
Definition create_zip_archive_for_eif (output_path : list N) : M unit :=
  fun fs =>
    let zip_path := path_join output_path ENCLAVE_ZIP_FILENAME in
    let fs' := if path_exists zip_path fs then fs else zip_path :: fs in
    if path_exists (path_join output_path ENCLAVE_FILENAME) fs' then (Ok tt, fs')
    else (Err DeployError.ZipError, fs').

(** [File::open] followed by [metadata()]. *)
Definition open_file (p : list N) : M unit :=
  fun fs => if path_exists p fs then (Ok tt, fs) else (Err DeployError.IoError, fs).

(** [get_eif_size_bytes] (lines 259-264). *)
Definition get_eif_size_bytes (output_path : list N) : M unit :=
  fun fs => if path_exists (path_join output_path ENCLAVE_FILENAME) fs then (Ok tt, fs)
            else (Err DeployError.EifSizeReadError, fs).

(** [tokio::fs::remove_file]. *)
Definition remove_file (p : list N) : M unit :=
  fun fs => if path_exists p fs
            then (Ok tt, filter (fun q => negb (list_N_eqb p q)) fs)
            else (Err DeployError.IoError, fs).

Record Response := mkResponse { status : N; body_text : option (list N) }.

(** [StatusCode::is_success]: 200 to 299. *)
Definition is_success (s : N) : bool := (200 <=? s) && (s <=? 299).

(** A future, observed through the clock: [Some (t, out)] completes with
    [out] [t] milliseconds after it is first polled; [None] never completes. *)
Definition Future (A : Type) : Type := option (N * A).

(** [std::time::Duration], as milliseconds. *)
Definition duration_from_secs (s : N) : N := s * 1000.
Definition duration_as_secs (d : N) : N := d / 1000.

(** [tokio::time::timeout]: the inner future is polled before the timer, so
    it wins when both are ready at the deadline; [None] is [Elapsed]. *)
Definition timeout {A} (max_timeout : N) (operation : Future A) : option A :=
  match operation with
  | Some (t, out) => if t <=? max_timeout then Some out else None
  | None => None
  end.

(** [timed_operation] (lines 266-281). *)
Definition timed_operation {A} (operation_name : list N) (max_timeout_seconds : N)
  (operation : Future A) : Outcome DeployError.t A :=
  let max_timeout := duration_from_secs max_timeout_seconds in
  match timeout max_timeout operation with
  | Some r => Ok r
  | None => Err (DeployError.TimeoutError operation_name (duration_as_secs max_timeout))
  end.

(** What the remote side answers in one run of [deploy_eif]. *)
Record Remote := mkRemote {
  create_intent : Outcome DeployError.t unit;       (* create_cage_deployment_intent *)
  put_response : option Response;                    (* send(): None is a request error *)
  build_watch : Outcome DeployError.t bool;          (* watch_build *)
  deployment_watch : Future (Outcome DeployError.t bool) (* watch_deployment *) }.

Definition lift {A} (r : Outcome DeployError.t A) : M A := fun fs => (r, fs).

(** [deploy_eif] (lines 25-117). *)
Definition deploy_eif (remote : Remote) (output_path : list N) : M unit :=
  _ <-- create_zip_archive_for_eif output_path;;;
  let zip_path := path_join output_path ENCLAVE_ZIP_FILENAME in
  _ <-- open_file zip_path;;;
  _ <-- get_eif_size_bytes output_path;;;
  _ <-- lift (create_intent remote);;;
  s3_response <-- lift (match put_response remote with
                        | Some r => Ok r
                        | None => Err DeployError.RequestError
                        end);;;
  _ <-- remove_file zip_path;;;
  _ <-- (if is_success (status s3_response) then ret tt
         else match body_text s3_response with
              | Some text => throw (DeployError.UploadError text)
              | None => throw DeployError.RequestError
              end);;;
  build_complete <-- lift (build_watch remote);;;
  _ <-- (if build_complete then ret tt else throw DeployError.DeploymentError);;;
  deployment_complete <--
    lift (r <- timed_operation (s2b "Cage Deployment") DEPLOY_WATCH_TIMEOUT_SECONDS
                 (deployment_watch remote);; r);;;
  if deployment_complete then ret tt else throw DeployError.DeploymentError.

(** ** Vocabulary of the statements *)

(** A directive the transform keeps from the user's file. *)
Definition user_kept (d : Directive) : bool :=
  negb (is_cmd d || is_entrypoint d || is_expose d).

Fixpoint is_prefix (pat s : list N) : bool :=
  match pat, s with
  | [], _ => true
  | p :: pt, c :: st => (p =? c) && is_prefix pt st
  | _ :: _, [] => false
  end.

(** Number of positions of [s] at which [pat] occurs. *)
Fixpoint count_sub (pat s : list N) : nat :=
  match s with
  | [] => 0
  | _ :: t => ((if is_prefix pat s then 1 else 0) + count_sub pat t)%nat
  end.

Definition no_digit (s : list N) : bool := forallb (fun c => negb (is_digit c)) s.
Definition all_digits (s : list N) : bool := forallb is_digit s.

Definition ends_with (s suffix : list N) : Prop := exists p, s = p ++ suffix.

(** The RUN directive of the output that writes the data-plane service
    script with the given body. *)
Definition writes_data_plane_run (body : list N) (d : Directive) : Prop :=
  d = Run (write_command_to_script body (s2b "/etc/service/data-plane/run") []).

(** The domain [process_dockerfile] uses when [EV_DOMAIN] is unset. *)
Definition default_domain (ev : option (list N)) : list N :=
  match ev with Some d => d | None => s2b "evervault.com" end.

(** The transform has seen an [Entrypoint] or a [Cmd]. *)
Definition has_entry (t : Tracked) : Prop := last_cmd t <> None \/ last_entrypoint t <> None.

(** A configuration for the concrete runs below. *)
Definition sample_config : ValidatedCageBuildConfig :=
  mkConfig (s2b "test-cage") (s2b "cage_123") (s2b "app_123") (s2b "team_123")
    false false true true.

Definition is_ok {E A} (r : Outcome E A) : bool :=
  match r with Ok _ => true | _ => false end.

Definition ok_or {E A} (default : A) (r : Outcome E A) : A :=
  match r with Ok a => a | _ => default end.

(** A user Dockerfile, decoded. *)
Definition sample_directives : list Directive :=
  [From (s2b "node:16-alpine3.16"); Run (s2b "npm i"); Expose (Some 3443);
   Entrypoint (Some Exec) [s2b "node"; s2b "server.js"]].

(** A deployment whose watch completes after [ms] milliseconds. *)
Definition sample_remote (put_status : N) (ms : N) : Remote :=
  mkRemote (Ok tt) (Some (mkResponse put_status (Some (s2b "denied")))) (Ok true)
    (Some (ms, Ok true)).

Definition sample_fs : Fs := [s2b "out/enclave.eif"].

(** The saved state after [decode] used up its buffer: a finished
    whitespace run leaves no state. *)
Definition norm_state (st : option DecoderState.t) : option DecoderState.t :=
  match st with Some DecoderState.Whitespace => None | _ => st end.

(** The bytes fed to [decode] one at a time: the items in order and the
    state left at the end. *)
Fixpoint feed_all (st : option DecoderState.t) (buf : list N)
  : DResult (list Directive * option DecoderState.t) :=
  match buf with
  | [] => Ok ([], norm_state st)
  | b :: rest =>
      r <- decode st [b];;
      match r with
      | (Some d, st', _) => r' <- feed_all st' rest;; let '(ds, s) := r' in Ok (d :: ds, s)
      | (None, st', _) => feed_all st' rest
      end
  end.

(** What the end of input adds: the item [flush] returns, if any. *)
Definition eof_result (st : option DecoderState.t) : DResult (list Directive) :=
  f <- flush st;; Ok (match f with Some d => [d] | None => [] end).

(** A keyword as [decode_directive] reads it: a letter first, then ASCII
    bytes other than the space. *)
Definition keyword_ok (kw : list N) : bool :=
  match kw with k :: _ => is_ascii_alphabetic k | [] => false end &&
  forallb (fun c => is_ascii c && negb (c =? SPACE)) kw.

(** No line feed. *)
Definition no_lf (l : list N) : bool := forallb (fun b => negb (b =? LF)) l.

(** The newline behaviour and the quote stack that
    [decode_directive_arguments] holds once it has read [args] as the
    arguments of a directive. *)
Definition arguments_end (args : list N) : option (NewLineBehaviour * StringStack) :=
  match feed_all (Some (DecoderState.DirectiveArguments (Run []) None Observe [])) args with
  | Ok (_, Some (DecoderState.DirectiveArguments _ _ nl ss)) => Some (nl, ss)
  | _ => None
  end.

(** After [args] the decoder observes the next line feed: it is not
    escaped by a trailing backslash. *)
Definition lf_observed (args : list N) : bool :=
  match arguments_end args with Some (Observe, _) => true | _ => false end.

(** After [args] no quote is left open. *)
Definition quotes_closed (args : list N) : bool :=
  match arguments_end args with Some (_, []) => true | _ => false end.

(** ** Vocabulary of the further properties *)

(** Not a ['#'] byte. *)
Definition not_hash (c : N) : bool := negb (c =? HASH).

(** Arguments the decoder reads as those of one directive line: not
    starting with a space or a backslash, no line feed, and the last byte
    that is not ['#'] is not a backslash (so the line feed after them is
    not escaped). *)
Definition args_line_ok (args : list N) : bool :=
  match args with
  | [] => false
  | a0 :: _ => negb (a0 =? SPACE) && negb (a0 =? BACKSLASH) && no_lf args &&
               negb (last (filter not_hash args) 0 =? BACKSLASH)
  end.

(** The directive a keyword opens when its arguments start with [a0]:
    [Directive::try_from], then for CMD and ENTRYPOINT the mode that
    [decode_directive_arguments] picks from the first argument byte. *)
Definition line_directive (kw : list N) (a0 : N) : DResult Directive :=
  d0 <- directive_try_from kw;;
  if (is_cmd d0 || is_entrypoint d0) && negb (a0 =? HASH)
  then set_mode d0 (mode_from a0) else Ok d0.

(** Invariant of the argument loop along one line: the rest of the line is
    not ignored, and the escaped state comes from a trailing backslash. *)
Definition esc_inv (p : list N) (nl : NewLineBehaviour) : Prop :=
  nl <> IgnoreLine /\ (nl = Escaped -> last (filter not_hash p) 0 = BACKSLASH).

(** The lines of a Dockerfile that decode on their own: blank, a comment,
    or one directive line. *)
Inductive simple_line : list N -> Prop :=
| blank_line ws :
    forallb is_ascii_whitespace ws = true -> simple_line ws
| comment_line ws text :
    forallb is_ascii_whitespace ws = true -> no_lf text = true ->
    simple_line (ws ++ HASH :: text ++ [LF])
| directive_line ws kw sp args :
    forallb is_ascii_whitespace ws = true -> keyword_ok kw = true ->
    forallb (N.eqb SPACE) sp = true -> args_line_ok args = true ->
    simple_line (ws ++ kw ++ SPACE :: sp ++ args ++ [LF]).

(** Decoding each line on its own and concatenating the directives. *)
Fixpoint decode_lines (ls : list (list N)) : DResult (list Directive) :=
  match ls with
  | [] => Ok []
  | l :: ls' => ds <- decode_bytes l;; ds' <- decode_lines ls';; Ok (ds ++ ds')
  end.

(** The value of a string of decimal digits, read left to right. *)
Definition decimal_step (acc d : N) : N := acc * 10 + (d - 48).
Definition decimal_value (l : list N) : N := fold_left decimal_step l 0.

(** A printable ASCII byte other than a double quote and a backslash. *)
Definition env_safe (c : N) : bool :=
  in_range 33 126 c && negb (c =? DQUOTE) && negb (c =? BACKSLASH).

(** A non-empty word of such bytes. *)
Definition env_word (w : list N) : bool :=
  match w with [] => false | _ => forallb env_safe w end.

(** A word containing ['=']. *)
Definition has_eq (w : list N) : bool := existsb (N.eqb EQUALS) w.

(** The body of [extract_tokens] (lines 138-180), started from any
    tokenizer state. *)
Definition extract_from (st : EnvTokState) (l : list N) : list (list N) * Delimiter.t :=
  let s := fold_left env_tok_step l st in
  match current_token s with
  | [] => (env_tokens s, env_delim s)
  | cur => (env_tokens s ++ [trim cur], env_delim s)
  end.

(** An ENV variable printed as [KEY=VALUE] that reads back: key and value
    of printable bytes without quotes or backslashes, no ['='] in the key. *)
Definition env_eq_var_ok (v : EnvVar) : bool :=
  match delim v with Delimiter.Eq => true | Delimiter.None => false end &&
  forallb env_safe (key v) && negb (has_eq (key v)) && forallb env_safe (val v).

(** An ENV word without ['=']. *)
Definition env_plain_word (w : list N) : bool := env_word w && negb (has_eq w).

(** An exec-form token that reads back: valid UTF-8 without comma, line
    feed or backslash. *)
Definition exec_tok_ok (t : list N) : bool :=
  utf8_valid t &&
  forallb (fun c => negb (c =? COMMA) && negb (c =? LF) && negb (c =? BACKSLASH)) t.

(** The exec-form arguments that [Display] prints: the quoted tokens
    between brackets, separated by [, ]. *)
Definition exec_args (toks : list (list N)) : list N :=
  LBRACKET :: join (s2b ", ") (map quote_token toks) ++ [93].

(** The last directive of a list satisfying [f]. *)
Fixpoint last_of (f : Directive -> bool) (l : list Directive) : option Directive :=
  match l with
  | [] => None
  | d :: rest => match last_of f rest with
                 | Some x => Some x
                 | None => if f d then Some d else None
                 end
  end.

(** [Option::or]. *)
Definition or_else {A} (o d : option A) : option A :=
  match o with Some x => Some x | None => d end.

(** ** Proofs *)

(** *** The build transform *)

Lemma filter_tracking_kept (t : Tracked) (l : list Directive) :
  fst (filter_tracking t l) = filter user_kept l.
Proof.
  revert t; induction l as [|d l IH]; intros t; [reflexivity|].
  simpl. destruct (remove_unwanted_directives t d) as [keep t'] eqn:Hr.
  destruct (filter_tracking t' l) as [kept t''] eqn:Hf. simpl.
  specialize (IH t'). rewrite Hf in IH. simpl in IH. subst kept.
  unfold remove_unwanted_directives, user_kept in *.
  destruct d; simpl in *; inversion Hr; subst; reflexivity.
Qed.

Lemma transform_directives_ok cfg ev dpv iv ds out :
  transform_directives cfg ev dpv iv ds = Ok out ->
  exists script, out = filter user_kept ds ++
                   injected_directives cfg (default_domain ev) dpv iv (Run script)
                     (exposed_port (snd (filter_tracking (mkTracked None None None) ds))).
Proof.
  unfold transform_directives. intros H.
  pose proof (filter_tracking_kept (mkTracked None None None) ds) as Hk.
  destruct (filter_tracking (mkTracked None None None) ds) as [kept t] eqn:Hf.
  simpl in Hk |- *. subst kept.
  destruct (create_combined_docker_entrypoint (last_entrypoint t) (last_cmd t));
    simpl in H; try discriminate.
  destruct (exposed_port t) as [p|] eqn:Hp; simpl in H;
    [destruct (p =? 443); simpl in H; [discriminate|]|];
    inversion H; subst; eexists; reflexivity.
Qed.

Lemma injected_directives_shape cfg dom dpv iv script ep :
  exists pre, injected_directives cfg dom dpv iv (Run script) ep = pre ++ [final_entrypoint] /\
    forall d, In d pre -> is_expose d = false /\ is_cmd d = false /\ is_entrypoint d = false.
Proof.
  exists (removelast (injected_directives cfg dom dpv iv (Run script) ep)). split.
  - reflexivity.
  - intros d Hd. unfold injected_directives, data_plane_run_directive, new_env in Hd.
    simpl in Hd.
    repeat (destruct Hd as [Hd|Hd]; [subst d; simpl; auto|]); contradiction.
Qed.

Lemma filter_user_kept_props (ds : list Directive) d :
  In d (filter user_kept ds) -> is_expose d = false /\ is_cmd d = false /\ is_entrypoint d = false.
Proof.
  rewrite filter_In. intros [_ H]. unfold user_kept in H.
  destruct (is_cmd d), (is_entrypoint d), (is_expose d); simpl in H; try discriminate; auto.
Qed.

(** C2: on success, the output holds no [Expose] and no [Cmd]; it is the
    kept user directives in their order followed by the injected ones, and
    it ends with the one exec-form [ENTRYPOINT ["/bootstrap", "1>&2"]],
    no other [Entrypoint] appearing before it. *)
Theorem transform_output_shape cfg ev dpv iv (ds out : list Directive) :
  transform_directives cfg ev dpv iv ds = Ok out ->
  (forall d, In d out -> is_expose d = false /\ is_cmd d = false) /\
  (exists injected, out = filter user_kept ds ++ injected) /\
  (exists pre, out = pre ++ [Entrypoint (Some Exec) [s2b "/bootstrap"; s2b "1>&2"]] /\
               forall d, In d pre -> is_entrypoint d = false).
Proof.
  intros H. apply transform_directives_ok in H. destruct H as [script Hout].
  destruct (injected_directives_shape cfg (default_domain ev) dpv iv script
              (exposed_port (snd (filter_tracking (mkTracked None None None) ds))))
    as [pre_inj [Hpre Hpre_props]].
  rewrite Hpre in Hout. clear Hpre.
  split; [|split].
  - intros d Hd. subst out. apply in_app_or in Hd as [Hd|Hd].
    + apply filter_user_kept_props in Hd. tauto.
    + apply in_app_or in Hd as [Hd|Hd].
      * apply Hpre_props in Hd. tauto.
      * destruct Hd as [Hd|[]]. subst d. auto.
  - eexists. exact Hout.
  - exists (filter user_kept ds ++ pre_inj). split.
    + rewrite Hout. rewrite app_assoc. reflexivity.
    + intros d Hd. apply in_app_or in Hd as [Hd|Hd].
      * apply filter_user_kept_props in Hd. tauto.
      * apply Hpre_props in Hd. tauto.
Qed.

Lemma filter_tracking_snd (t : Tracked) (l : list Directive) :
  snd (filter_tracking t l) = fold_left (fun t d => snd (remove_unwanted_directives t d)) l t.
Proof.
  revert t; induction l as [|d l IH]; intros t; [reflexivity|].
  simpl. destruct (remove_unwanted_directives t d) as [keep t'] eqn:Hr.
  specialize (IH t'). destruct (filter_tracking t' l) as [kept t''].
  simpl in *. exact IH.
Qed.

Lemma remove_unwanted_has_entry t d :
  has_entry t -> has_entry (snd (remove_unwanted_directives t d)).
Proof.
  unfold has_entry, remove_unwanted_directives.
  destruct (is_cmd d); [simpl; intros _; left; discriminate|].
  destruct (is_entrypoint d); [simpl; intros _; right; discriminate|].
  destruct d; simpl; auto.
Qed.

Lemma fold_has_entry l t :
  has_entry t -> has_entry (fold_left (fun t d => snd (remove_unwanted_directives t d)) l t).
Proof.
  revert t; induction l as [|d l IH]; intros t H; [exact H|].
  simpl. apply IH. apply remove_unwanted_has_entry. exact H.
Qed.

Lemma fold_gets_entry l t d :
  In d l -> is_cmd d || is_entrypoint d = true ->
  has_entry (fold_left (fun t d => snd (remove_unwanted_directives t d)) l t).
Proof.
  revert t; induction l as [|d' l IH]; intros t Hin Hd; [destruct Hin|].
  simpl. destruct Hin as [Heq|Hin]; [subst d'|apply IH; assumption].
  apply fold_has_entry. unfold has_entry, remove_unwanted_directives.
  destruct (is_cmd d); [simpl; left; discriminate|].
  destruct (is_entrypoint d); [simpl; right; discriminate|discriminate].
Qed.

Lemma fold_exposed_port_no_expose l t :
  (forall d, In d l -> is_expose d = false) ->
  exposed_port (fold_left (fun t d => snd (remove_unwanted_directives t d)) l t) = exposed_port t.
Proof.
  revert t; induction l as [|d l IH]; intros t H; [reflexivity|].
  simpl. rewrite IH by (intros; apply H; right; assumption).
  specialize (H d (or_introl eq_refl)).
  unfold remove_unwanted_directives.
  destruct (is_cmd d); [reflexivity|]. destruct (is_entrypoint d); [reflexivity|].
  destruct d; try reflexivity; discriminate.
Qed.

(** C1 (amended): if the last [Expose] of the decoded sequence carries port
    443 and the sequence holds an [Entrypoint] or a [Cmd], the transform
    fails with [RestrictedPortExposed(443)]. *)
Theorem transform_rejects_last_expose_443 cfg ev dpv iv (pre post : list Directive) (d : Directive) :
  (forall x, In x post -> is_expose x = false) ->
  In d (pre ++ Expose (Some 443) :: post) -> is_cmd d || is_entrypoint d = true ->
  transform_directives cfg ev dpv iv (pre ++ Expose (Some 443) :: post) =
    Err (BuildError.DockerError (DockerError.RestrictedPortExposed 443)).
Proof.
  intros Hpost Hin Hd. unfold transform_directives.
  pose proof (filter_tracking_snd (mkTracked None None None) (pre ++ Expose (Some 443) :: post)) as Hs.
  destruct (filter_tracking (mkTracked None None None) (pre ++ Expose (Some 443) :: post))
    as [kept t] eqn:Hf. simpl in Hs.
  assert (Hentry : has_entry t) by (rewrite Hs; eapply fold_gets_entry; eassumption).
  assert (Hport : exposed_port t = Some 443).
  { rewrite Hs, fold_left_app. simpl.
    rewrite fold_exposed_port_no_expose by exact Hpost.
    unfold remove_unwanted_directives at 1. reflexivity. }
  unfold has_entry in Hentry.
  destruct (last_entrypoint t) eqn:He, (last_cmd t) eqn:Hc;
    try (destruct Hentry as [Hx|Hx]; exfalso; apply Hx; reflexivity);
    simpl; rewrite Hport; reflexivity.
Qed.

(** *** The data-plane run script *)

Lemma uint_digits_all_digits u : all_digits (uint_digits u) = true.
Proof. induction u; simpl; try rewrite IHu; reflexivity. Qed.

Lemma u16_to_string_not_nil n : u16_to_string n <> [].
Proof.
  unfold u16_to_string. intros H.
  destruct (N.to_uint n) eqn:Hu; try discriminate.
  pose proof (DecimalN.Unsigned.of_to n) as Ho. rewrite Hu in Ho.
  simpl in Ho. subst n. discriminate Hu.
Qed.

Lemma is_prefix_self pat rest : is_prefix pat (pat ++ rest) = true.
Proof. induction pat; simpl; [reflexivity|]. rewrite N.eqb_refl, IHpat. reflexivity. Qed.

Lemma count_sub_no_digit_prefix pat a s :
  all_digits pat = true -> pat <> [] -> no_digit a = true ->
  count_sub pat (a ++ s) = count_sub pat s.
Proof.
  intros Hp Hne. induction a as [|c a IH]; intros Ha; [reflexivity|].
  simpl in Ha |- *. apply andb_prop in Ha as [Hc Ha]. rewrite IH by exact Ha.
  destruct pat as [|p pt]; [congruence|]. simpl in Hp. apply andb_prop in Hp as [Hpd _].
  cbn [is_prefix]. destruct (N.eqb_spec p c); [subst; rewrite Hpd in Hc; discriminate|].
  reflexivity.
Qed.

Lemma is_prefix_short_digits pat d b :
  all_digits pat = true -> all_digits d = true -> no_digit b = true ->
  (List.length d < List.length pat)%nat -> is_prefix pat (d ++ b) = false.
Proof.
  revert pat; induction d as [|x d IH]; intros pat Hp Hd Hb Hl.
  - destruct pat as [|p pt]; simpl in Hl; [lia|]. destruct b as [|c b]; [reflexivity|].
    simpl in Hp, Hb |- *. apply andb_prop in Hp as [Hp _]. apply andb_prop in Hb as [Hc _].
    destruct (N.eqb_spec p c); [subst; rewrite Hp in Hc; discriminate|reflexivity].
  - destruct pat as [|p pt]; simpl in Hl; [lia|]. simpl in Hp, Hd |- *.
    apply andb_prop in Hp as [_ Hp]. apply andb_prop in Hd as [_ Hd].
    rewrite IH by (auto; lia). apply andb_false_r.
Qed.

Lemma count_sub_short_digits pat d b :
  all_digits pat = true -> pat <> [] -> all_digits d = true -> no_digit b = true ->
  (List.length d < List.length pat)%nat -> count_sub pat (d ++ b) = 0%nat.
Proof.
  intros Hp Hne. induction d as [|x d IH]; intros Hd Hb Hl.
  - simpl. rewrite <- (app_nil_r b). rewrite count_sub_no_digit_prefix by assumption.
    reflexivity.
  - pose proof (is_prefix_short_digits pat (x :: d) b Hp Hd Hb Hl) as Hx. simpl in Hx |- *.
    rewrite Hx. simpl in Hd.
    apply andb_prop in Hd as [_ Hd]. apply IH; auto. simpl in Hl; lia.
Qed.

Lemma count_sub_once pat a b :
  all_digits pat = true -> pat <> [] -> no_digit a = true -> no_digit b = true ->
  count_sub pat (a ++ pat ++ b) = 1%nat.
Proof.
  intros Hp Hne Ha Hb. rewrite count_sub_no_digit_prefix by assumption.
  destruct pat as [|p pt]; [congruence|].
  simpl. rewrite N.eqb_refl, is_prefix_self. simpl in Hp.
  apply andb_prop in Hp as [Hpd Hpt].
  rewrite count_sub_short_digits; [reflexivity| | | | |].
  all: simpl; auto. rewrite Hpd; exact Hpt.
Qed.

Lemma no_digit_app a b : no_digit (a ++ b) = no_digit a && no_digit b.
Proof. unfold no_digit. apply forallb_app. Qed.

Lemma transform_data_plane_directive cfg ev dpv iv ds out :
  transform_directives cfg ev dpv iv ds = Ok out ->
  nth_error out (List.length (filter user_kept ds) + 8) =
    Some (data_plane_run_directive
            (exposed_port (snd (filter_tracking (mkTracked None None None) ds)))).
Proof.
  intros H. apply transform_directives_ok in H as [script ->].
  rewrite nth_error_app2 by lia.
  replace (List.length (filter user_kept ds) + 8 - List.length (filter user_kept ds))%nat
    with 8%nat by lia. reflexivity.
Qed.

Lemma exposed_port_last (pre post : list Directive) (p : option N) :
  (forall x, In x post -> is_expose x = false) ->
  exposed_port (snd (filter_tracking (mkTracked None None None) (pre ++ Expose p :: post))) = p.
Proof.
  intros Hpost. rewrite filter_tracking_snd, fold_left_app. simpl.
  rewrite fold_exposed_port_no_expose by exact Hpost. reflexivity.
Qed.

Lemma exposed_port_none (ds : list Directive) :
  (forall x, In x ds -> is_expose x = false) ->
  exposed_port (snd (filter_tracking (mkTracked None None None) ds)) = None.
Proof.
  intros H. rewrite filter_tracking_snd, fold_exposed_port_no_expose by exact H. reflexivity.
Qed.

(** C7: on success, the injected [RUN] at position [|kept| + 8] writes
    [/etc/service/data-plane/run]; when the input's last [EXPOSE] carries
    port [p], the decimal text of [p] occurs exactly once in that [RUN]; when
    the input has no [EXPOSE], the script body ends with
    [exec /opt/evervault/data-plane] and the [RUN] holds no digit at all. *)
Theorem transform_data_plane_port cfg ev dpv iv (ds out : list Directive) :
  transform_directives cfg ev dpv iv ds = Ok out ->
  exists body r,
    nth_error out (List.length (filter user_kept ds) + 8) = Some (Run r) /\
    r = write_command_to_script body (s2b "/etc/service/data-plane/run") [] /\
    (forall pre post p, ds = pre ++ Expose (Some p) :: post ->
       (forall x, In x post -> is_expose x = false) ->
       count_sub (u16_to_string p) r = 1%nat) /\
    ((forall x, In x ds -> is_expose x = false) ->
       ends_with body (s2b "exec /opt/evervault/data-plane") /\ no_digit r = true).
Proof.
  intros H. apply transform_data_plane_directive in H.
  set (ep := exposed_port (snd (filter_tracking (mkTracked None None None) ds))) in H.
  exists (data_plane_run_script ep),
         (write_command_to_script (data_plane_run_script ep) (s2b "/etc/service/data-plane/run") []).
  split; [exact H|]. split; [reflexivity|]. split.
  - intros pre post p Hds Hpost.
    assert (Hep : ep = Some p) by (subst ep; rewrite Hds; apply exposed_port_last; exact Hpost).
    rewrite Hep. unfold write_command_to_script, data_plane_run_script. simpl List.concat.
    rewrite app_nil_l, <- !app_assoc.
    rewrite (app_assoc (s2bq "printf `#!/bin/sh\n")), (app_assoc _ [SPACE]).
    apply count_sub_once.
    + unfold u16_to_string. apply uint_digits_all_digits.
    + apply u16_to_string_not_nil.
    + reflexivity.
    + reflexivity.
  - intros Hno. assert (Hep : ep = None) by (subst ep; apply exposed_port_none; exact Hno).
    rewrite Hep. split.
    + exists (s2bq "echo \`Booting Evervault data plane...\`\n"). reflexivity.
    + reflexivity.
Qed.

(** *** Deploying *)

Lemma list_N_eqb_refl l : list_N_eqb l l = true.
Proof. induction l; simpl; [reflexivity|]. rewrite N.eqb_refl. exact IHl. Qed.

Lemma list_N_eqb_eq l1 l2 : list_N_eqb l1 l2 = true -> l1 = l2.
Proof.
  revert l2; induction l1 as [|x l1 IH]; intros [|y l2] H; simpl in H; try discriminate;
    [reflexivity|]. apply andb_prop in H as [Hx H]. apply N.eqb_eq in Hx. subst.
  f_equal. apply IH. exact H.
Qed.

Lemma path_exists_cons p fs : path_exists p (p :: fs) = true.
Proof. unfold path_exists. simpl. rewrite list_N_eqb_refl. reflexivity. Qed.

Lemma timed_operation_elapsed {A} (name : list N) (secs : N) (fut : Future A) :
  (forall t out, fut = Some (t, out) -> secs * 1000 < t) ->
  timed_operation name secs fut = Err (DeployError.TimeoutError name secs).
Proof.
  intros H. unfold timed_operation, timeout, duration_from_secs, duration_as_secs.
  destruct fut as [[t out]|].
  - specialize (H t out eq_refl). replace (t <=? secs * 1000) with false by (symmetry; apply N.leb_gt; lia).
    rewrite N.div_mul by discriminate. reflexivity.
  - rewrite N.div_mul by discriminate. reflexivity.
Qed.

(** C8: once the upload and the build watch have succeeded, a deployment
    watch that has not completed within 1200 seconds (1 200 000 ms, or never)
    makes [deploy_eif] return [TimeoutError] carrying the operation name
    [Cage Deployment] and the timeout in seconds, 1200. *)
Theorem deploy_eif_watch_timeout (remote : Remote) (output_path : list N) (fs : Fs) (resp : Response) :
  path_exists (path_join output_path ENCLAVE_FILENAME) fs = true ->
  create_intent remote = Ok tt ->
  put_response remote = Some resp -> is_success (status resp) = true ->
  build_watch remote = Ok true ->
  (forall t out, deployment_watch remote = Some (t, out) -> 1200000 < t) ->
  fst (deploy_eif remote output_path fs) =
    Err (DeployError.TimeoutError (s2b "Cage Deployment") 1200).
Proof.
  intros Heif Hint Hput Hok Hbuild Hwatch.
  unfold deploy_eif, mbind at 1, create_zip_archive_for_eif.
  set (zip := path_join output_path ENCLAVE_ZIP_FILENAME).
  set (fs1 := if path_exists zip fs then fs else zip :: fs).
  assert (Heif1 : path_exists (path_join output_path ENCLAVE_FILENAME) fs1 = true)
    by (subst fs1; destruct (path_exists zip fs); simpl; rewrite ?Heif, ?orb_true_r; reflexivity).
  assert (Hzip1 : path_exists zip fs1 = true)
    by (subst fs1; destruct (path_exists zip fs) eqn:Hz; simpl;
        [exact Hz | apply path_exists_cons]).
  rewrite Heif1. unfold mbind at 1, open_file. fold zip. rewrite Hzip1.
  unfold mbind at 1, get_eif_size_bytes. rewrite Heif1.
  unfold mbind at 1, lift. rewrite Hint.
  unfold mbind at 1. rewrite Hput.
  unfold mbind at 1, remove_file. rewrite Hzip1.
  unfold mbind at 1. rewrite Hok. unfold ret.
  unfold mbind at 1. rewrite Hbuild.
  unfold mbind at 1. unfold mbind at 1.
  rewrite (timed_operation_elapsed (s2b "Cage Deployment") DEPLOY_WATCH_TIMEOUT_SECONDS _ Hwatch).
  reflexivity.
Qed.

Lemma path_exists_removed p fs :
  path_exists p (filter (fun q => negb (list_N_eqb p q)) fs) = false.
Proof.
  unfold path_exists. induction fs as [|q fs IH]; [reflexivity|]. simpl.
  destruct (list_N_eqb p q) eqn:Hq; simpl; [exact IH|]. rewrite Hq. exact IH.
Qed.

(** C10: once the PUT has returned a response, [deploy_eif] leaves no
    [enclave.zip] in the output directory, whatever happens next; in
    particular when the upload answers a non-2xx status with a body, the
    result is [UploadError] with that body and the zip is already gone. *)
Theorem deploy_eif_removes_zip (remote : Remote) (output_path : list N) (fs : Fs) (resp : Response) :
  path_exists (path_join output_path ENCLAVE_FILENAME) fs = true ->
  create_intent remote = Ok tt ->
  put_response remote = Some resp ->
  path_exists (path_join output_path ENCLAVE_ZIP_FILENAME) (snd (deploy_eif remote output_path fs)) = false /\
  (forall text, is_success (status resp) = false -> body_text resp = Some text ->
     fst (deploy_eif remote output_path fs) = Err (DeployError.UploadError text)).
Proof.
  intros Heif Hint Hput. split; [|intros text Hfail Htext];
  unfold deploy_eif, mbind at 1, create_zip_archive_for_eif;
  set (zip := path_join output_path ENCLAVE_ZIP_FILENAME);
  set (fs1 := if path_exists zip fs then fs else zip :: fs);
  (assert (Heif1 : path_exists (path_join output_path ENCLAVE_FILENAME) fs1 = true)
    by (subst fs1; destruct (path_exists zip fs); simpl; rewrite ?Heif, ?orb_true_r; reflexivity));
  (assert (Hzip1 : path_exists zip fs1 = true)
    by (subst fs1; destruct (path_exists zip fs) eqn:Hz; simpl;
        [exact Hz | apply path_exists_cons]));
  rewrite Heif1; unfold mbind at 1, open_file; fold zip; rewrite Hzip1;
  unfold mbind at 1, get_eif_size_bytes; rewrite Heif1;
  unfold mbind at 1, lift; rewrite Hint;
  unfold mbind at 1; rewrite Hput;
  unfold mbind at 1, remove_file; rewrite Hzip1;
  pose proof (path_exists_removed zip fs1) as Hgone;
  set (fs2 := filter (fun q => negb (list_N_eqb zip q)) fs1) in *.
  - unfold mbind, ret, throw, timed_operation. cbv beta iota.
    destruct (is_success (status resp)); [|destruct (body_text resp); exact Hgone].
    destruct (build_watch remote) as [[|]| |]; try exact Hgone.
    destruct (timeout (duration_from_secs DEPLOY_WATCH_TIMEOUT_SECONDS) (deployment_watch remote))
      as [[[|]| |]|]; exact Hgone.
  - unfold mbind at 1. rewrite Hfail, Htext. reflexivity.
Qed.

(** *** Decoder runs on concrete inputs *)

(** C4: flushing a decoder that stopped inside a keyword (state
    [DecoderState::Directive]) yields [Ok(None)] through the catch-all arm
    of [try_into], whatever bytes the keyword buffer holds; so the input
    [FROM] with no trailing space or line feed decodes to the empty
    sequence, its four bytes dropped without an error. *)
Theorem flush_drops_directive_keyword :
  (forall buf, flush (Some (DecoderState.Directive buf)) = Ok None) /\
  decode_bytes (s2b "FROM") = Ok [].
Proof. split; [reflexivity|vm_compute; reflexivity]. Qed.

(** C5: the escape flag of the ENV tokenizer is cleared only by a second
    backslash, so after [A\b] the later unquoted [=] of [C=D] is treated as
    escaped: the line [ENV A\b C=D] decodes to one variable with key [Ab],
    value [C=D] and delimiter [None], not to [IncompleteInstruction]. *)
Theorem env_escape_hides_equals :
  decode_bytes (line "ENV A\b C=D") =
    Ok [Env [mkEnvVar (s2b "Ab") (s2b "C=D") Delimiter.None]].
Proof. vm_compute. reflexivity. Qed.

(** C6: the decoder panics on some inputs: on [ENTRYPOINT [] followed by a
    line feed, [set_arguments] slices [[1..0]] of a one-byte argument
    string; on [CMD #x], the mode of the [Cmd] was never set (the [#] arm
    does not set it) and [set_arguments] unwraps [None]. *)
Theorem decoder_panics :
  decode_bytes (line "ENTRYPOINT [") = Panic /\
  decode_bytes (line "CMD #x") = Panic.
Proof. split; vm_compute; reflexivity. Qed.

(** C3, counterexample: three single-line inputs whose decoded directive
    does not render back to the input text: the port of [EXPOSE 0080] is
    printed as [80], the comment [#x] is printed as [# x], and the exec form
    [ENTRYPOINT [`a`,`b`]] is printed with a space after the comma. *)
Lemma render_not_textual_roundtrip :
  decode_bytes (line "EXPOSE 0080") = Ok [Expose (Some 80)] /\
  render (Expose (Some 80)) = s2b "EXPOSE 80" /\
  decode_bytes (line "#x") = Ok [Comment (s2b "x")] /\
  render (Comment (s2b "x")) = s2b "# x" /\
  decode_bytes (line "ENTRYPOINT [`a`,`b`]") = Ok [Entrypoint (Some Exec) [s2b "a"; s2b "b"]] /\
  render (Entrypoint (Some Exec) [s2b "a"; s2b "b"]) = s2bq "ENTRYPOINT [`a`, `b`]".
Proof. repeat split; vm_compute; reflexivity. Qed.

(** C1, counterexample: a Dockerfile exposing 443 and then 80 builds (only
    the last [EXPOSE] is kept), and a sequence whose only directive is
    [EXPOSE 443] fails with [NoEntrypoint], not [RestrictedPortExposed]. *)
Lemma expose_443_not_always_rejected :
  is_ok (process_dockerfile sample_config None
           [line "FROM alpine" ++ line "EXPOSE 443" ++ line "EXPOSE 80" ++
            line "ENTRYPOINT [`sh`]"] (s2b "1.0.0") (s2b "1.0.0")) = true /\
  transform_directives sample_config None (s2b "1.0.0") (s2b "1.0.0") [Expose (Some 443)] =
    Err (BuildError.DockerError (DockerError.ParserDecodeError DecodeError.NoEntrypoint)).
Proof. split; vm_compute; reflexivity. Qed.

(** *** Instances of the theorems *)

Lemma transform_rejects_last_expose_443_witness :
  (forall x, In x [Run (s2b "ls")] -> is_expose x = false) /\
  In (Entrypoint (Some Exec) [s2b "sh"])
     ([Entrypoint (Some Exec) [s2b "sh"]] ++ Expose (Some 443) :: [Run (s2b "ls")]) /\
  is_cmd (Entrypoint (Some Exec) [s2b "sh"]) || is_entrypoint (Entrypoint (Some Exec) [s2b "sh"]) = true /\
  transform_directives sample_config None (s2b "1.0.0") (s2b "1.0.0")
    ([Entrypoint (Some Exec) [s2b "sh"]] ++ Expose (Some 443) :: [Run (s2b "ls")]) =
    Err (BuildError.DockerError (DockerError.RestrictedPortExposed 443)).
Proof.
  assert (H1 : forall x, In x [Run (s2b "ls")] -> is_expose x = false)
    by (intros x [Hx|[]]; subst x; reflexivity).
  assert (H2 : In (Entrypoint (Some Exec) [s2b "sh"])
                  ([Entrypoint (Some Exec) [s2b "sh"]] ++ Expose (Some 443) :: [Run (s2b "ls")]))
    by (simpl; left; reflexivity).
  assert (H3 : is_cmd (Entrypoint (Some Exec) [s2b "sh"]) ||
               is_entrypoint (Entrypoint (Some Exec) [s2b "sh"]) = true) by reflexivity.
  exact (conj H1 (conj H2 (conj H3
    (transform_rejects_last_expose_443 sample_config None (s2b "1.0.0") (s2b "1.0.0")
       [Entrypoint (Some Exec) [s2b "sh"]] [Run (s2b "ls")] _ H1 H2 H3)))).
Defined.

Lemma transform_output_shape_witness :
  let out := ok_or [] (transform_directives sample_config None (s2b "1.0.0") (s2b "1.0.0")
                         sample_directives) in
  transform_directives sample_config None (s2b "1.0.0") (s2b "1.0.0") sample_directives = Ok out /\
  ((forall d, In d out -> is_expose d = false /\ is_cmd d = false) /\
   (exists injected, out = filter user_kept sample_directives ++ injected) /\
   (exists pre, out = pre ++ [Entrypoint (Some Exec) [s2b "/bootstrap"; s2b "1>&2"]] /\
                forall d, In d pre -> is_entrypoint d = false)).
Proof.
  intros out.
  assert (H : transform_directives sample_config None (s2b "1.0.0") (s2b "1.0.0")
                sample_directives = Ok out) by (vm_compute; reflexivity).
  exact (conj H (transform_output_shape _ _ _ _ _ _ H)).
Defined.

Lemma transform_data_plane_port_witness :
  let out := ok_or [] (transform_directives sample_config None (s2b "1.0.0") (s2b "1.0.0")
                         sample_directives) in
  transform_directives sample_config None (s2b "1.0.0") (s2b "1.0.0") sample_directives = Ok out /\
  exists body r,
    nth_error out (List.length (filter user_kept sample_directives) + 8) = Some (Run r) /\
    r = write_command_to_script body (s2b "/etc/service/data-plane/run") [] /\
    (forall pre post p, sample_directives = pre ++ Expose (Some p) :: post ->
       (forall x, In x post -> is_expose x = false) ->
       count_sub (u16_to_string p) r = 1%nat) /\
    ((forall x, In x sample_directives -> is_expose x = false) ->
       ends_with body (s2b "exec /opt/evervault/data-plane") /\ no_digit r = true).
Proof.
  intros out.
  assert (H : transform_directives sample_config None (s2b "1.0.0") (s2b "1.0.0")
                sample_directives = Ok out) by (vm_compute; reflexivity).
  exact (conj H (transform_data_plane_port _ _ _ _ _ _ H)).
Defined.

Lemma deploy_eif_watch_timeout_witness :
  path_exists (path_join (s2b "out") ENCLAVE_FILENAME) sample_fs = true /\
  fst (deploy_eif (sample_remote 200 1300000) (s2b "out") sample_fs) =
    Err (DeployError.TimeoutError (s2b "Cage Deployment") 1200).
Proof.
  assert (H1 : path_exists (path_join (s2b "out") ENCLAVE_FILENAME) sample_fs = true)
    by (vm_compute; reflexivity).
  assert (H6 : forall t out, deployment_watch (sample_remote 200 1300000) = Some (t, out) ->
                 1200000 < t)
    by (intros t o Hw; simpl in Hw; injection Hw as Ht _; subst t; lia).
  exact (conj H1 (deploy_eif_watch_timeout (sample_remote 200 1300000) (s2b "out") sample_fs
                    (mkResponse 200 (Some (s2b "denied"))) H1 eq_refl eq_refl eq_refl eq_refl H6)).
Defined.

Lemma deploy_eif_removes_zip_witness :
  path_exists (path_join (s2b "out") ENCLAVE_FILENAME) sample_fs = true /\
  path_exists (path_join (s2b "out") ENCLAVE_ZIP_FILENAME)
    (snd (deploy_eif (sample_remote 403 10) (s2b "out") sample_fs)) = false /\
  fst (deploy_eif (sample_remote 403 10) (s2b "out") sample_fs) =
    Err (DeployError.UploadError (s2b "denied")).
Proof.
  assert (H1 : path_exists (path_join (s2b "out") ENCLAVE_FILENAME) sample_fs = true)
    by (vm_compute; reflexivity).
  destruct (deploy_eif_removes_zip (sample_remote 403 10) (s2b "out") sample_fs
              (mkResponse 403 (Some (s2b "denied"))) H1 eq_refl eq_refl) as [Hgone Herr].
  exact (conj H1 (conj Hgone (Herr (s2b "denied") eq_refl eq_refl))).
Defined.

(** *** Reading in chunks *)

Lemma read_loop_return_inv {A R} (body : N -> A -> DResult (Step A R)) src a r a' rest :
  read_loop body src a = Ok (Some r, a', rest) -> exists b a0, body b a0 = Ok (Return r a').
Proof.
  revert a; induction src as [|b src IH]; intros a H; simpl in H; [discriminate|].
  destruct (body b a) as [[a1|r1 a1]| |] eqn:Hb; try discriminate.
  - eapply IH. exact H.
  - inversion H; subst. eauto.
Qed.

Lemma decode_directive_returns src x next y rest :
  decode_directive src x = Ok (Some next, y, rest) ->
  exists d, next = DecoderState.DirectiveArguments d None Observe [].
Proof.
  unfold decode_directive. intros H. apply read_loop_return_inv in H as [b [a0 H]].
  destruct (b =? SPACE).
  - destruct (directive_try_from a0) as [d| |]; simpl in H; inversion H; eauto.
  - destruct (is_ascii b); discriminate.
Qed.

Lemma decode_whitespace_returns src next u rest :
  decode_whitespace src = Ok (Some next, u, rest) ->
  (exists x, next = DecoderState.Directive x) \/ (exists c, next = DecoderState.Comment c).
Proof.
  unfold decode_whitespace. intros H. apply read_loop_return_inv in H as [b [a0 H]].
  destruct (is_ascii_whitespace b) eqn:Hw; [discriminate|].
  unfold derive_new_line_state in H. rewrite Hw in H.
  destruct (is_ascii_alphabetic b); [simpl in H; inversion H; eauto|].
  destruct (b =? HASH); simpl in H; inversion H; eauto.
Qed.

Lemma decode_loop_fuel_1 n st src :
  match st with DecoderState.DirectiveArguments _ _ _ _ | DecoderState.Comment _ => True | _ => False end ->
  decode_loop (S n) st src = decode_loop 1 st src.
Proof. destruct st; intros []; reflexivity. Qed.

Lemma decode_loop_fuel_2 n x src :
  decode_loop (S (S n)) (DecoderState.Directive x) src = decode_loop 2 (DecoderState.Directive x) src.
Proof.
  cbn [decode_loop]. destruct (decode_directive src x) as [[[[next|] y] rest]| |] eqn:H;
    simpl; try reflexivity.
  apply decode_directive_returns in H as [d ->]. reflexivity.
Qed.

Lemma decode_loop_fuel_3 n src :
  decode_loop (S (S (S n))) DecoderState.Whitespace src = decode_loop 3 DecoderState.Whitespace src.
Proof.
  cbn [decode_loop]. destruct (decode_whitespace src) as [[[[next|] y] rest]| |] eqn:H;
    simpl; try reflexivity.
  apply decode_whitespace_returns in H as [[x ->]|[c ->]].
  - apply decode_loop_fuel_2.
  - reflexivity.
Qed.

Lemma decode_loop_enough_fuel n st src :
  (3 <= n)%nat -> decode_loop n st src = decode_loop 3 st src.
Proof.
  intros Hn. destruct n as [|[|[|n]]]; try lia.
  destruct st as [x| d a nl ss| c|].
  - rewrite decode_loop_fuel_2. symmetry. apply decode_loop_fuel_2.
  - reflexivity.
  - reflexivity.
  - apply decode_loop_fuel_3.
Qed.

Lemma derive_not_whitespace b s :
  is_ascii_whitespace b = false -> derive_new_line_state b = Ok s ->
  (exists x, s = DecoderState.Directive x) \/ (exists c, s = DecoderState.Comment c).
Proof.
  intros Hw H. unfold derive_new_line_state in H. rewrite Hw in H.
  destruct (is_ascii_alphabetic b); [inversion H; eauto|].
  destruct (b =? HASH); inversion H; eauto.
Qed.

Lemma decode_loop_2_3 b s src :
  is_ascii_whitespace b = false -> derive_new_line_state b = Ok s ->
  decode_loop 2 s src = decode_loop 3 s src.
Proof.
  intros Hw H. destruct (derive_not_whitespace b s Hw H) as [[x ->]|[c ->]].
  - symmetry. apply decode_loop_fuel_2.
  - reflexivity.
Qed.

Lemma decode_whitespace_none src :
  decode (Some DecoderState.Whitespace) src = decode None src.
Proof.
  destruct src as [|b rest]; [reflexivity|].
  unfold decode. cbn [decode_loop]. unfold decode_whitespace at 1. cbn [read_loop].
  destruct (is_ascii_whitespace b) eqn:Hw.
  - unfold derive_new_line_state. rewrite Hw. reflexivity.
  - destruct (derive_new_line_state b) as [s| |] eqn:Hd; simpl; try reflexivity.
    apply (decode_loop_2_3 b); assumption.
Qed.

Lemma decode_cons st b rest :
  decode st (b :: rest) =
    match decode st [b] with
    | Ok (Some d, st', _) => Ok (Some d, st', rest)
    | Ok (None, st', _) => decode st' rest
    | Err e => Err e
    | Panic => Panic
    end.
Proof.
  destruct st as [st|].
  2:{ unfold decode at 1 2. destruct (derive_new_line_state b) as [s| |] eqn:Hd; simpl; try reflexivity.
      destruct (is_ascii_whitespace b) eqn:Hw.
      - unfold derive_new_line_state in Hd. rewrite Hw in Hd. inversion Hd; subst s.
        change (decode (Some DecoderState.Whitespace) rest = decode None rest).
        apply decode_whitespace_none.
      - destruct (derive_not_whitespace b s Hw Hd) as [[x ->]|[c ->]]; reflexivity. }
  destruct st as [x| d a nl ss| c|].
  - unfold decode. cbn [decode_loop]. unfold decode_directive. cbn [read_loop].
    destruct (b =? SPACE).
    + destruct (directive_try_from x) as [d| |]; simpl; reflexivity.
    + destruct (is_ascii b); simpl; reflexivity.
  - unfold decode. cbn [decode_loop]. unfold decode_directive_arguments. cbn [read_loop].
    destruct (directive_arguments_step b (d, a, nl, ss)) as [[[[[d' a'] nl'] ss']|r [[[d' a'] nl'] ss']]| |];
      simpl; reflexivity.
  - unfold decode. cbn [decode_loop]. unfold decode_comment. cbn [read_loop].
    destruct (b =? LF); simpl; reflexivity.
  - rewrite !decode_whitespace_none. unfold decode at 1 2.
    destruct (derive_new_line_state b) as [s| |] eqn:Hd; simpl; try reflexivity.
    destruct (is_ascii_whitespace b) eqn:Hw.
    + unfold derive_new_line_state in Hd. rewrite Hw in Hd. inversion Hd; subst s.
      change (decode (Some DecoderState.Whitespace) rest = decode None rest).
      apply decode_whitespace_none.
    + destruct (derive_not_whitespace b s Hw Hd) as [[x ->]|[c ->]]; reflexivity.
Qed.

Lemma decode_nil st : decode st [] = Ok (None, norm_state st, []).
Proof. destruct st as [[]|]; reflexivity. Qed.

Lemma drain_feed_all buf st fuel :
  (S (List.length buf) <= fuel)%nat ->
  drain fuel st buf = (r <- feed_all st buf;; let '(ds, s) := r in Ok (ds, s, [])).
Proof.
  revert st fuel; induction buf as [|b rest IH]; intros st fuel Hf;
    (destruct fuel as [|f]; [simpl in Hf; lia|]).
  - cbn [drain feed_all]. rewrite decode_nil. reflexivity.
  - cbn [drain feed_all]. rewrite decode_cons.
    destruct (decode st [b]) as [[[[d|] st'] x]| |]; cbn [obind]; try reflexivity.
    + rewrite IH by (simpl in Hf; lia).
      destruct (feed_all st' rest) as [[ds s]| |]; reflexivity.
    + transitivity (drain (S f) st' rest); [reflexivity|]. apply IH. simpl in *; lia.
Qed.

Lemma feed_all_norm st ys : feed_all (norm_state st) ys = feed_all st ys.
Proof.
  destruct st as [[]|]; try reflexivity.
  destruct ys as [|b ys]; [reflexivity|]. cbn [feed_all norm_state].
  rewrite decode_whitespace_none. reflexivity.
Qed.

Lemma feed_all_app st xs ys :
  feed_all st (xs ++ ys) =
    (r <- feed_all st xs;; let '(ds1, s1) := r in
     r2 <- feed_all s1 ys;; let '(ds2, s2) := r2 in Ok (ds1 ++ ds2, s2)).
Proof.
  revert st; induction xs as [|b xs IH]; intros st.
  - cbn. rewrite feed_all_norm. destruct (feed_all st ys) as [[ds s]| |]; reflexivity.
  - cbn [app feed_all]. destruct (decode st [b]) as [[[[d|] st'] x]| |]; cbn [obind]; try reflexivity.
    + rewrite IH. destruct (feed_all st' xs) as [[ds1 s1]| |]; cbn [obind]; try reflexivity.
      destruct (feed_all s1 ys) as [[ds2 s2]| |]; reflexivity.
    + apply IH.
Qed.

Lemma eof_result_norm st : eof_result (norm_state st) = eof_result st.
Proof. destruct st as [[]|]; reflexivity. Qed.

Lemma framed_read_nil st : framed_read [] st [] = eof_result st.
Proof.
  rewrite <- eof_result_norm. cbn [framed_read List.length]. unfold eof_drain, decode_eof.
  rewrite decode_nil. cbn [obind]. unfold eof_result.
  destruct (flush (norm_state st)) as [[d|]| |]; reflexivity.
Qed.

Lemma framed_read_feed_all chunks st :
  framed_read chunks st [] =
    (r <- feed_all st (List.concat chunks);; let '(ds, s) := r in
     e <- eof_result s;; Ok (ds ++ e)).
Proof.
  revert st; induction chunks as [|c cs IH]; intros st.
  - rewrite framed_read_nil, <- eof_result_norm. cbn [List.concat feed_all obind].
    destruct (eof_result (norm_state st)); reflexivity.
  - cbn [framed_read List.concat]. rewrite drain_feed_all by (simpl; lia). rewrite app_nil_l.
    rewrite feed_all_app. destruct (feed_all st c) as [[ds1 s1]| |]; cbn [obind]; try reflexivity.
    rewrite IH. destruct (feed_all s1 (List.concat cs)) as [[ds2 s2]| |]; cbn [obind]; try reflexivity.
    destruct (eof_result s2) as [e| |]; cbn [obind]; try reflexivity.
    rewrite app_assoc. reflexivity.
Qed.

(** C9: the directives (or the error) decoded from a stream do not depend
    on how the stream is split into reads: feeding the non-empty chunks one
    after the other gives the same result as one read of their
    concatenation. *)
Theorem decode_chunk_invariant (chunks : list (list N)) :
  Forall (fun c => c <> []) chunks ->
  decode_dockerfile_from_src chunks = decode_bytes (List.concat chunks).
Proof.
  intros _. unfold decode_bytes, decode_dockerfile_from_src.
  rewrite !framed_read_feed_all. f_equal.
  destruct (List.concat chunks) as [|b s]; simpl; [reflexivity|]. rewrite app_nil_r. reflexivity.
Qed.

Lemma decode_chunk_invariant_witness :
  Forall (fun c => c <> []) [s2b "FRO"; s2b "M alpine" ++ [LF] ++ s2b "RUN l"; s2b "s" ++ [LF]] /\
  decode_dockerfile_from_src [s2b "FRO"; s2b "M alpine" ++ [LF] ++ s2b "RUN l"; s2b "s" ++ [LF]] =
    decode_bytes (List.concat [s2b "FRO"; s2b "M alpine" ++ [LF] ++ s2b "RUN l"; s2b "s" ++ [LF]]).
Proof.
  assert (H : Forall (fun c => c <> [])
                [s2b "FRO"; s2b "M alpine" ++ [LF] ++ s2b "RUN l"; s2b "s" ++ [LF]])
    by (repeat constructor; discriminate).
  exact (conj H (decode_chunk_invariant _ H)).
Defined.

(** *** Rendering decoded lines *)

Lemma ascii_not_cont b : b < 128 -> is_cont b = false.
Proof. intros H. unfold is_cont. apply andb_false_intro1. apply N.leb_gt. lia. Qed.

Lemma ascii_not_second lead b : b < 128 -> second_byte_ok lead b = false.
Proof.
  intros H. unfold second_byte_ok, in_range.
  assert (Hl : forall lo, 128 <= lo -> (lo <=? b) = false) by (intros; apply N.leb_gt; lia).
  repeat match goal with |- context [if ?c then _ else _] => destruct c end;
    rewrite ?Hl by lia; try reflexivity. apply ascii_not_cont. exact H.
Qed.

Lemma utf8_valid_app_ascii xs b ys :
  b < 128 -> utf8_valid (xs ++ b :: ys) = utf8_valid xs && utf8_valid ys.
Proof.
  intros Hb. remember (List.length xs) as n eqn:Hn.
  revert xs Hn; induction n as [n IH] using lt_wf_ind; intros xs Hn.
  destruct xs as [|x t].
  - simpl. replace (b <? 128) with true by (symmetry; apply N.ltb_lt; exact Hb). reflexivity.
  - cbn [app utf8_valid]. destruct (x <? 128).
    + apply (IH (List.length t)); [simpl in Hn; lia|reflexivity].
    + destruct t as [|c1 t1]; cbn [app].
      * rewrite ascii_not_cont, ascii_not_second by exact Hb.
        destruct (in_range 194 223 x); [reflexivity|].
        destruct ys as [|c2 t2]; [reflexivity|].
        destruct (in_range 224 239 x); [reflexivity|].
        destruct t2; [reflexivity|]. destruct (in_range 240 244 x); reflexivity.
      * destruct (in_range 194 223 x).
        -- rewrite (IH (List.length t1) ltac:(simpl in Hn; lia) t1 eq_refl).
           rewrite !andb_assoc. reflexivity.
        -- destruct t1 as [|c2 t2]; cbn [app].
           ++ rewrite ascii_not_cont by exact Hb. rewrite andb_false_r.
              destruct (in_range 224 239 x); [reflexivity|]. destruct ys; [reflexivity|].
              destruct (in_range 240 244 x), (second_byte_ok x c1); reflexivity.
           ++ destruct (in_range 224 239 x).
              ** rewrite (IH (List.length t2) ltac:(simpl in Hn; lia) t2 eq_refl).
                 rewrite !andb_assoc. reflexivity.
              ** destruct t2 as [|c3 t3]; cbn [app].
                 --- rewrite (ascii_not_cont b Hb), andb_false_r. reflexivity.
                 --- rewrite (IH (List.length t3) ltac:(simpl in Hn; lia) t3 eq_refl).
                     rewrite !andb_assoc. reflexivity.
Qed.

Lemma split_on_cases sep l :
  split_on sep l = [l] \/
  exists h rest, l = h ++ sep :: rest /\ split_on sep l = h :: split_on sep rest.
Proof.
  induction l as [|x t IH]; [left; reflexivity|]. cbn [split_on].
  destruct (N.eqb_spec x sep).
  - right. exists [], t. subst. split; reflexivity.
  - destruct IH as [IH|[h [rest [Ht IH]]]]; rewrite IH.
    + left. reflexivity.
    + right. exists (x :: h), rest. subst t. split; reflexivity.
Qed.

Lemma split_on_not_nil sep l : split_on sep l <> [].
Proof. destruct (split_on_cases sep l) as [H|[h [r [_ H]]]]; rewrite H; discriminate. Qed.

Lemma join_cons sep x h r : join sep ((x :: h) :: r) = x :: join sep (h :: r).
Proof. destruct r; reflexivity. Qed.

Lemma join_split sep l : join [sep] (split_on sep l) = l.
Proof.
  induction l as [|x t IH]; [reflexivity|]. cbn [split_on].
  destruct (N.eqb_spec x sep).
  - subst. destruct (split_on sep t) as [|h r] eqn:Hs; [exfalso; exact (split_on_not_nil _ _ Hs)|].
    cbn [join]. rewrite <- IH. reflexivity.
  - destruct (split_on sep t) as [|h r] eqn:Hs; [exfalso; exact (split_on_not_nil _ _ Hs)|].
    rewrite join_cons, IH. reflexivity.
Qed.

Lemma split_on_valid sep l :
  sep < 128 -> forallb utf8_valid (split_on sep l) = utf8_valid l.
Proof.
  intros Hsep. remember (List.length l) as n eqn:Hn.
  revert l Hn; induction n as [n IH] using lt_wf_ind; intros l Hn.
  destruct (split_on_cases sep l) as [H|[h [rest [Hl H]]]]; rewrite H.
  - simpl. apply andb_true_r.
  - cbn [forallb]. rewrite Hl, utf8_valid_app_ascii by exact Hsep. f_equal.
    apply (IH (List.length rest)); [|reflexivity].
    subst. rewrite length_app. simpl. lia.
Qed.

Lemma filter_all_true {A} (f : A -> bool) l : forallb f l = true -> filter f l = l.
Proof.
  induction l as [|x l IH]; [reflexivity|]. simpl. intros H. apply andb_prop in H as [Hx H].
  rewrite Hx, IH by exact H. reflexivity.
Qed.

Lemma decode_none_whitespace w :
  is_ascii_whitespace w = true -> decode None [w] = Ok (None, None, []).
Proof. intros Hw. unfold decode, derive_new_line_state. rewrite Hw. reflexivity. Qed.

Lemma alpha_facts k :
  is_ascii_alphabetic k = true ->
  is_ascii_whitespace k = false /\ (k =? HASH) = false /\ (k =? SPACE) = false /\ k < 128.
Proof.
  unfold is_ascii_alphabetic, is_ascii_whitespace, HASH, SPACE. intros H.
  rewrite orb_true_iff, !andb_true_iff, !N.leb_le in H.
  assert (Hne : forall c, (c < 65 \/ 122 < c) -> (k =? c) = false)
    by (intros c Hc; apply N.eqb_neq; lia).
  rewrite !Hne by lia. repeat split; lia.
Qed.

Lemma decode_none_alpha k :
  is_ascii_alphabetic k = true -> decode None [k] = Ok (None, Some (DecoderState.Directive [k]), []).
Proof.
  intros Hk. destruct (alpha_facts k Hk) as [Hw _].
  unfold decode, derive_new_line_state. rewrite Hw, Hk. reflexivity.
Qed.

Lemma decode_directive_byte x c :
  is_ascii c = true -> (c =? SPACE) = false ->
  decode (Some (DecoderState.Directive x)) [c] =
    Ok (None, Some (DecoderState.Directive (x ++ [c])), []).
Proof. intros Ha Hs. unfold decode. cbn. rewrite Hs, Ha. reflexivity. Qed.

Lemma decode_directive_space x :
  decode (Some (DecoderState.Directive x)) [SPACE] =
    (d <- directive_try_from x;;
     Ok (None, Some (DecoderState.DirectiveArguments d None Observe []), [])).
Proof. unfold decode. cbn. destruct (directive_try_from x); reflexivity. Qed.

Lemma decode_arguments_byte d a nl ss c :
  decode (Some (DecoderState.DirectiveArguments d a nl ss)) [c] =
    match directive_arguments_step c (d, a, nl, ss) with
    | Ok (Continue (d', a', nl', ss')) =>
        Ok (None, Some (DecoderState.DirectiveArguments d' a' nl' ss'), [])
    | Ok (Return r _) => Ok (Some r, None, [])
    | Err e => Err e
    | Panic => Panic
    end.
Proof.
  unfold decode. cbn [decode_loop]. unfold decode_directive_arguments. cbn [read_loop].
  destruct (directive_arguments_step c (d, a, nl, ss)) as [[[[[d' a'] nl'] ss']|r a']| |];
    reflexivity.
Qed.

Lemma decode_none_hash : decode None [HASH] = Ok (None, Some (DecoderState.Comment []), []).
Proof. reflexivity. Qed.

Lemma decode_comment_byte c b :
  decode (Some (DecoderState.Comment c)) [b] =
    if b =? LF then Ok (Some (Comment c), None, [])
    else Ok (None, Some (DecoderState.Comment (c ++ [b])), []).
Proof. unfold decode. cbn. destruct (b =? LF); reflexivity. Qed.

Lemma decode_bytes_feed_all s :
  decode_bytes s = (r <- feed_all None s;; let '(ds, st) := r in e <- eof_result st;; Ok (ds ++ e)).
Proof.
  unfold decode_bytes, decode_dockerfile_from_src. rewrite framed_read_feed_all.
  destruct s as [|b s]; [reflexivity|]. simpl List.concat. rewrite app_nil_r. reflexivity.
Qed.

Lemma feed_all_whitespace lead rest :
  forallb is_ascii_whitespace lead = true -> feed_all None (lead ++ rest) = feed_all None rest.
Proof.
  induction lead as [|w lead IH]; [reflexivity|]. intros H. simpl in H.
  apply andb_prop in H as [Hw H]. cbn [app feed_all]. rewrite decode_none_whitespace by exact Hw. apply IH, H.
Qed.

Lemma feed_all_comment c text :
  forallb (fun b => negb (b =? LF)) text = true ->
  feed_all (Some (DecoderState.Comment c)) (text ++ [LF]) = Ok ([Comment (c ++ text)], None).
Proof.
  revert c; induction text as [|b text IH]; intros c H.
  - cbn [app feed_all]. rewrite decode_comment_byte. simpl. rewrite app_nil_r. reflexivity.
  - simpl in H. apply andb_prop in H as [Hb H]. cbn [app feed_all].
    rewrite decode_comment_byte. apply negb_true_iff in Hb. rewrite Hb. cbn [obind].
    rewrite IH by exact H. rewrite <- app_assoc. reflexivity.
Qed.

Lemma feed_all_keyword x ks rest :
  forallb (fun c => is_ascii c && negb (c =? SPACE)) ks = true ->
  feed_all (Some (DecoderState.Directive x)) (ks ++ SPACE :: rest) =
    (d <- directive_try_from (x ++ ks);;
     feed_all (Some (DecoderState.DirectiveArguments d None Observe [])) rest).
Proof.
  revert x; induction ks as [|c ks IH]; intros x H.
  - cbn [app feed_all]. rewrite decode_directive_space, app_nil_r.
    destruct (directive_try_from x); reflexivity.
  - simpl in H. apply andb_prop in H as [Hc H]. apply andb_prop in Hc as [Ha Hs].
    apply negb_true_iff in Hs. cbn [app feed_all].
    rewrite decode_directive_byte by assumption. cbn [obind].
    rewrite IH by exact H. rewrite <- app_assoc. reflexivity.
Qed.

Lemma ends_with_escaped_newline_no_lf p : no_lf p = true -> ends_with_escaped_newline p = false.
Proof.
  intros H. unfold ends_with_escaped_newline.
  destruct (rev p) as [|n [|b t]] eqn:Hr; try reflexivity.
  assert (Hin : In n p) by (apply in_rev; rewrite Hr; left; reflexivity).
  unfold no_lf in H. rewrite forallb_forall in H. specialize (H n Hin).
  apply negb_true_iff in H. rewrite H. reflexivity.
Qed.

Lemma ascii_utf8_valid l : forallb is_ascii l = true -> utf8_valid l = true.
Proof.
  induction l as [|b l IH]; [reflexivity|]. simpl. intros H. apply andb_prop in H as [Hb H].
  unfold is_ascii in Hb. rewrite Hb. apply IH, H.
Qed.

Lemma directive_try_from_keyword kw :
  keyword_ok kw = true ->
  directive_try_from kw =
    Ok (let upper := to_ascii_uppercase kw in
        if list_N_eqb upper (s2b "ENTRYPOINT") then Entrypoint None []
        else if list_N_eqb upper (s2b "CMD") then Cmd None []
        else if list_N_eqb upper (s2b "EXPOSE") then Expose None
        else if list_N_eqb upper (s2b "RUN") then Run []
        else if list_N_eqb upper (s2b "USER") then User []
        else if list_N_eqb upper (s2b "ENV") then Env []
        else if list_N_eqb upper (s2b "FROM") then From []
        else Other kw []).
Proof.
  intros H. unfold keyword_ok in H. destruct kw as [|k ks]; [discriminate|].
  apply andb_prop in H as [Hk Hall].
  assert (Hv : utf8_valid (k :: ks) = true).
  { apply ascii_utf8_valid. rewrite forallb_forall in Hall |- *. intros c Hc.
    specialize (Hall c Hc). apply andb_prop in Hall. tauto. }
  destruct (alpha_facts k Hk) as [_ [Hh _]].
  unfold directive_try_from, from_utf8. rewrite Hv. cbn [obind]. rewrite Hh. reflexivity.
Qed.

Lemma upper_of_eqb kw s : list_N_eqb (to_ascii_uppercase kw) s = true ->
  to_ascii_uppercase kw = s.
Proof. apply list_N_eqb_eq. Qed.

Lemma shell_tokens_render args :
  utf8_valid args = true ->
  join [SPACE] (filter utf8_valid (split_on SPACE args)) = args.
Proof.
  intros H. rewrite filter_all_true; [apply join_split|].
  rewrite split_on_valid; [exact H|]. unfold SPACE. lia.
Qed.

Lemma render_comment_roundtrip (lead text : list N) :
  forallb is_ascii_whitespace lead = true -> no_lf text = true -> utf8_valid text = true ->
  decode_bytes (lead ++ HASH :: text ++ [LF]) = Ok [Comment text] /\
  render (Comment text) = s2b "# " ++ text.
Proof.
  intros Hlead Hlf Hv. split.
  - rewrite decode_bytes_feed_all, feed_all_whitespace by exact Hlead.
    cbn [feed_all]. rewrite decode_none_hash. cbn [obind].
    rewrite feed_all_comment by exact Hlf. reflexivity.
  - unfold render, prefix, arguments. rewrite Hv. reflexivity.
Qed.

(** *** Further properties of the decoder *)

Lemma last_snoc (l : list N) c d : last (l ++ [c]) d = c.
Proof. apply last_last. Qed.

Lemma step_mid d p nl ss c :
  (c =? LF) = false -> no_lf p = true -> esc_inv p nl ->
  exists nl' ss', directive_arguments_step c (d, Some p, nl, ss) =
                  Ok (Continue (d, Some (p ++ [c]), nl', ss')) /\ esc_inv (p ++ [c]) nl'.
Proof.
  intros Hc Hp [Hnl Hesc]. unfold directive_arguments_step. rewrite Hc. cbn [orb andb is_none negb].
  destruct (c =? BACKSLASH) eqn:Hb.
  - apply N.eqb_eq in Hb. subst c.
    assert (Hl : last (filter not_hash (p ++ [BACKSLASH])) 0 = BACKSLASH)
      by (rewrite filter_app; cbn [filter]; unfold not_hash; cbn; apply last_snoc).
    destruct nl; [|exfalso; apply Hnl; reflexivity|]; do 2 eexists; (split; [reflexivity|]);
      split; try discriminate; intros _; exact Hl.
  - assert (Hother : forall nl', nl' = Observe -> esc_inv (p ++ [c]) nl')
      by (intros nl' ->; split; discriminate).
    destruct (c =? SPACE); cbn [andb];
    (destruct (c =? HASH) eqn:Hh;
     [ rewrite ends_with_escaped_newline_no_lf by exact Hp;
       destruct ss; do 2 eexists; (split; [reflexivity|]);
       [ apply Hother; reflexivity
       | split; [exact Hnl|]; intros He; rewrite filter_app; cbn [filter];
         unfold not_hash; rewrite Hh; cbn [negb]; rewrite app_nil_r; exact (Hesc He) ]
     | cbn [obind]; destruct nl; [|exfalso; apply Hnl; reflexivity|];
       do 2 eexists; (split; [reflexivity|]); apply Hother; reflexivity ]).
Qed.

Lemma no_lf_app a b : no_lf (a ++ b) = no_lf a && no_lf b.
Proof. unfold no_lf. apply forallb_app. Qed.

Lemma feed_args_mid d rest : forall p nl ss,
  no_lf rest = true -> no_lf p = true -> esc_inv p nl ->
  exists nl' ss',
    feed_all (Some (DecoderState.DirectiveArguments d (Some p) nl ss)) rest =
      Ok ([], Some (DecoderState.DirectiveArguments d (Some (p ++ rest)) nl' ss')) /\
    esc_inv (p ++ rest) nl'.
Proof.
  induction rest as [|c rest IH]; intros p nl ss Hr Hp Hinv.
  - exists nl, ss. rewrite app_nil_r. split; [reflexivity|exact Hinv].
  - unfold no_lf in Hr. cbn [forallb] in Hr. apply andb_prop in Hr as [Hc Hr].
    apply negb_true_iff in Hc.
    destruct (step_mid d p nl ss c Hc Hp Hinv) as [nl1 [ss1 [Hs Hinv1]]].
    cbn [feed_all]. rewrite decode_arguments_byte, Hs. cbn [obind].
    assert (Hp' : no_lf (p ++ [c]) = true)
      by (rewrite no_lf_app, Hp; unfold no_lf; cbn [forallb]; rewrite Hc; reflexivity).
    destruct (IH (p ++ [c]) nl1 ss1 Hr Hp' Hinv1) as [nl2 [ss2 [Hf Hinv2]]].
    exists nl2, ss2. rewrite Hf, <- app_assoc. rewrite <- app_assoc in Hinv2. split; [reflexivity|exact Hinv2].
Qed.

Lemma step_first d0 a0 :
  (a0 =? LF) = false -> (a0 =? BACKSLASH) = false -> (a0 =? SPACE) = false ->
  exists ss1, directive_arguments_step a0 (d0, None, Observe, []) =
    (d1 <- (if (is_cmd d0 || is_entrypoint d0) && negb (a0 =? HASH)
            then set_mode d0 (mode_from a0) else Ok d0);;
     Ok (Continue (d1, Some [a0], Observe, ss1))).
Proof.
  intros Hl Hb Hs. unfold directive_arguments_step. rewrite Hl, Hb, Hs. cbn [orb andb is_none negb].
  destruct (a0 =? HASH) eqn:Hh.
  - exists []. rewrite andb_false_r. reflexivity.
  - rewrite andb_true_r. destruct (is_cmd d0 || is_entrypoint d0);
      [destruct (set_mode d0 (mode_from a0))|]; eexists; reflexivity.
Qed.

Lemma feed_args_after_first d1 a0 rest ss1 :
  no_lf (a0 :: rest) = true -> (last (filter not_hash (a0 :: rest)) 0 =? BACKSLASH) = false ->
  exists ss,
    feed_all (Some (DecoderState.DirectiveArguments d1 (Some [a0]) Observe ss1)) rest =
      Ok ([], Some (DecoderState.DirectiveArguments d1 (Some (a0 :: rest)) Observe ss)).
Proof.
  intros Hlf Hlb. change (a0 :: rest) with ([a0] ++ rest) in Hlf.
  rewrite no_lf_app in Hlf. apply andb_prop in Hlf as [Hp Hr].
  assert (Hinv : esc_inv [a0] Observe) by (split; discriminate).
  destruct (feed_args_mid d1 rest [a0] Observe ss1 Hr Hp Hinv) as [nl' [ss' [Hf [Hnl Hesc]]]].
  exists ss'. rewrite Hf. destruct nl'; [|exfalso; apply Hnl; reflexivity|reflexivity].
  change ([a0] ++ rest) with (a0 :: rest) in Hesc. rewrite (Hesc eq_refl), N.eqb_refl in Hlb. discriminate.
Qed.

(** The arguments of one line, fed to a fresh argument state. *)
Lemma feed_args_line d0 args :
  args_line_ok args = true ->
  exists ss,
    feed_all (Some (DecoderState.DirectiveArguments d0 None Observe [])) args =
      (d1 <- (if (is_cmd d0 || is_entrypoint d0) && negb (hd 0 args =? HASH)
              then set_mode d0 (mode_from (hd 0 args)) else Ok d0);;
       Ok ([], Some (DecoderState.DirectiveArguments d1 (Some args) Observe ss))).
Proof.
  destruct args as [|a0 rest]; [discriminate|]. unfold args_line_ok.
  intros H. apply andb_prop in H as [H Hlb]. apply andb_prop in H as [H Hlf].
  apply andb_prop in H as [Hsp Hbs].
  apply negb_true_iff in Hsp, Hbs, Hlb.
  assert (Hl0 : (a0 =? LF) = false).
  { unfold no_lf in Hlf. cbn [forallb] in Hlf. apply andb_prop in Hlf as [Hl0 _].
    apply negb_true_iff in Hl0. exact Hl0. }
  destruct (step_first d0 a0 Hl0 Hbs Hsp) as [ss1 Hs].
  cbn [feed_all hd]. rewrite decode_arguments_byte. unfold StringStack in *. rewrite Hs.
  destruct ((is_cmd d0 || is_entrypoint d0) && negb (a0 =? HASH)).
  - destruct (set_mode d0 (mode_from a0)) as [d1| |]; cbn [obind]; try (exists []; reflexivity).
    exact (feed_args_after_first d1 a0 rest ss1 Hlf Hlb).
  - cbn [obind]. exact (feed_args_after_first d0 a0 rest ss1 Hlf Hlb).
Qed.

Lemma decode_arguments_lf_observe d p ss :
  decode (Some (DecoderState.DirectiveArguments d (Some p) Observe ss)) [LF] =
    (r <- set_arguments d p;; Ok (Some r, None, [])).
Proof. rewrite decode_arguments_byte. cbn. destruct (set_arguments d p); reflexivity. Qed.

Lemma feed_args_spaces d sp rest :
  forallb (N.eqb SPACE) sp = true ->
  feed_all (Some (DecoderState.DirectiveArguments d None Observe [])) (sp ++ rest) =
    feed_all (Some (DecoderState.DirectiveArguments d None Observe [])) rest.
Proof.
  induction sp as [|c sp IH]; intros H; [reflexivity|].
  cbn [forallb] in H. apply andb_prop in H as [Hc H]. apply N.eqb_eq in Hc. subst c.
  cbn [app feed_all]. rewrite decode_arguments_byte. cbn. apply IH, H.
Qed.

Lemma feed_all_keyword_line ws kw sp args :
  forallb is_ascii_whitespace ws = true -> keyword_ok kw = true ->
  forallb (N.eqb SPACE) sp = true -> args_line_ok args = true ->
  exists ss,
    feed_all None (ws ++ kw ++ SPACE :: sp ++ args) =
      (d1 <- line_directive kw (hd 0 args);;
       Ok ([], Some (DecoderState.DirectiveArguments d1 (Some args) Observe ss))).
Proof.
  intros Hws Hkw Hsp Hargs. rewrite feed_all_whitespace by exact Hws.
  destruct kw as [|k ks]; [discriminate|].
  assert (exists d0, directive_try_from (k :: ks) = Ok d0) as [d0 Htry]
    by (eexists; exact (directive_try_from_keyword (k :: ks) Hkw)).
  unfold keyword_ok in Hkw. apply andb_prop in Hkw as [Hk Hks]. simpl in Hks.
  apply andb_prop in Hks as [_ Hks].
  cbn [app feed_all]. rewrite decode_none_alpha by exact Hk. cbn [obind].
  rewrite feed_all_keyword by exact Hks. change ([k] ++ ks) with (k :: ks).
  unfold line_directive. rewrite Htry. cbn [obind].
  rewrite feed_args_spaces by exact Hsp.
  destruct (feed_args_line d0 args Hargs) as [ss Hf]. exists ss. exact Hf.
Qed.

Lemma feed_all_directive_line ws kw sp args :
  forallb is_ascii_whitespace ws = true -> keyword_ok kw = true ->
  forallb (N.eqb SPACE) sp = true -> args_line_ok args = true ->
  feed_all None (ws ++ kw ++ SPACE :: sp ++ args ++ [LF]) =
    (d1 <- line_directive kw (hd 0 args);; d <- set_arguments d1 args;; Ok ([d], None)).
Proof.
  intros Hws Hkw Hsp Hargs.
  replace (ws ++ kw ++ SPACE :: sp ++ args ++ [LF]) with ((ws ++ kw ++ SPACE :: sp ++ args) ++ [LF])
    by (rewrite <- !app_assoc; cbn [app]; rewrite <- !app_assoc; reflexivity).
  rewrite feed_all_app. destruct (feed_all_keyword_line ws kw sp args Hws Hkw Hsp Hargs) as [ss Hf].
  rewrite Hf. destruct (line_directive kw (hd 0 args)) as [d1| |]; cbn [obind]; try reflexivity.
  cbn [feed_all]. rewrite decode_arguments_lf_observe.
  destruct (set_arguments d1 args) as [d| |]; reflexivity.
Qed.

Lemma eof_result_none : eof_result None = Ok [].
Proof. reflexivity. Qed.

(** X1: a single directive line decodes to exactly one directive: optional
    leading ASCII whitespace, an ASCII keyword starting with a letter, one or
    more spaces, then arguments that do not start with a space or a
    backslash, hold no line feed and whose last byte other than ['#'] is not
    a backslash, ended by a line feed. The directive is the keyword's (its
    mode picked from the first argument byte for CMD and ENTRYPOINT) with
    the arguments set by [set_arguments]. *)
Theorem decode_single_line ws kw sp args :
  forallb is_ascii_whitespace ws = true -> keyword_ok kw = true ->
  forallb (N.eqb SPACE) sp = true -> args_line_ok args = true ->
  decode_bytes (ws ++ kw ++ SPACE :: sp ++ args ++ [LF]) =
    (d1 <- line_directive kw (hd 0 args);; d <- set_arguments d1 args;; Ok [d]).
Proof.
  intros Hws Hkw Hsp Hargs. rewrite decode_bytes_feed_all, feed_all_directive_line by assumption.
  destruct (line_directive kw (hd 0 args)) as [d1| |]; cbn [obind]; try reflexivity.
  destruct (set_arguments d1 args) as [d| |]; reflexivity.
Qed.

Lemma decode_single_line_witness :
  (forallb is_ascii_whitespace [9] = true /\ keyword_ok (s2b "run") = true /\
   forallb (N.eqb SPACE) [SPACE] = true /\ args_line_ok (s2b "echo hi # x") = true) /\
  decode_bytes ([9] ++ s2b "run" ++ SPACE :: [SPACE] ++ s2b "echo hi # x" ++ [LF]) =
    (d1 <- line_directive (s2b "run") (hd 0 (s2b "echo hi # x"));;
     d <- set_arguments d1 (s2b "echo hi # x");; Ok [d]).
Proof.
  split; [repeat split; reflexivity|].
  apply decode_single_line; reflexivity.
Defined.

(** X2: such a line at the end of the input decodes the same with or
    without its final line feed: the flush at end of input finishes the
    directive in progress. *)
Theorem decode_last_line_without_lf ws kw sp args :
  forallb is_ascii_whitespace ws = true -> keyword_ok kw = true ->
  forallb (N.eqb SPACE) sp = true -> args_line_ok args = true ->
  decode_bytes (ws ++ kw ++ SPACE :: sp ++ args) =
    decode_bytes (ws ++ kw ++ SPACE :: sp ++ args ++ [LF]).
Proof.
  intros Hws Hkw Hsp Hargs. rewrite decode_single_line by assumption.
  rewrite decode_bytes_feed_all.
  destruct (feed_all_keyword_line ws kw sp args Hws Hkw Hsp Hargs) as [ss Hf]. rewrite Hf.
  destruct (line_directive kw (hd 0 args)) as [d1| |]; cbn [obind]; try reflexivity.
  unfold eof_result, flush, state_try_into.
  destruct (set_arguments d1 args) as [d| |]; reflexivity.
Qed.

Lemma decode_last_line_without_lf_witness :
  (forallb is_ascii_whitespace [] = true /\ keyword_ok (s2b "CMD") = true /\
   forallb (N.eqb SPACE) [] = true /\ args_line_ok (s2bq "[`a`, `b`]") = true) /\
  decode_bytes ([] ++ s2b "CMD" ++ SPACE :: [] ++ s2bq "[`a`, `b`]") =
    decode_bytes ([] ++ s2b "CMD" ++ SPACE :: [] ++ s2bq "[`a`, `b`]" ++ [LF]).
Proof.
  split; [repeat split; reflexivity|].
  apply decode_last_line_without_lf; reflexivity.
Defined.

(** X4: ASCII whitespace at the start of the input never changes the
    result of decoding. *)
Theorem decode_skips_leading_whitespace ws s :
  forallb is_ascii_whitespace ws = true -> decode_bytes (ws ++ s) = decode_bytes s.
Proof.
  intros Hws. rewrite !decode_bytes_feed_all, feed_all_whitespace by exact Hws. reflexivity.
Qed.

Lemma decode_skips_leading_whitespace_witness :
  forallb is_ascii_whitespace [LF; 9; SPACE; 13] = true /\
  decode_bytes ([LF; 9; SPACE; 13] ++ s2b "FROM x") = decode_bytes (s2b "FROM x").
Proof. split; [reflexivity|]. apply decode_skips_leading_whitespace. reflexivity. Defined.

(** X5: a line whose first byte after leading whitespace is not
    whitespace, not an ASCII letter and not ['#'] (a UTF-8 byte order mark,
    a digit, a bracket) makes decoding fail with [UnexpectedToken]. *)
Theorem decode_rejects_bad_line_start ws b rest :
  forallb is_ascii_whitespace ws = true ->
  is_ascii_whitespace b = false -> is_ascii_alphabetic b = false -> (b =? HASH) = false ->
  decode_bytes (ws ++ b :: rest) = Err DecodeError.UnexpectedToken.
Proof.
  intros Hws Hw Ha Hh. rewrite decode_bytes_feed_all, feed_all_whitespace by exact Hws.
  cbn [feed_all]. unfold decode, derive_new_line_state. rewrite Hw, Ha, Hh. reflexivity.
Qed.

Lemma decode_rejects_bad_line_start_witness :
  (forallb is_ascii_whitespace [SPACE] = true /\ is_ascii_whitespace 239 = false /\
   is_ascii_alphabetic 239 = false /\ (239 =? HASH) = false) /\
  decode_bytes ([SPACE] ++ 239 :: [187; 191] ++ s2b "FROM x") = Err DecodeError.UnexpectedToken.
Proof.
  split; [repeat split; reflexivity|]. apply decode_rejects_bad_line_start; reflexivity.
Defined.

Lemma feed_all_directive_bytes x ks rest :
  forallb (fun c => is_ascii c && negb (c =? SPACE)) ks = true ->
  feed_all (Some (DecoderState.Directive x)) (ks ++ rest) =
    feed_all (Some (DecoderState.Directive (x ++ ks))) rest.
Proof.
  revert x; induction ks as [|c ks IH]; intros x H.
  - rewrite app_nil_r. reflexivity.
  - cbn [forallb] in H. apply andb_prop in H as [Hc H]. apply andb_prop in Hc as [Ha Hs].
    apply negb_true_iff in Hs. cbn [app feed_all]. rewrite decode_directive_byte by assumption.
    cbn [obind]. rewrite IH by exact H. rewrite <- app_assoc. reflexivity.
Qed.

(** X6: a keyword holding a non-ASCII byte makes decoding fail with
    [UnexpectedToken]. *)
Theorem decode_rejects_non_ascii_keyword ws k ks c rest :
  forallb is_ascii_whitespace ws = true -> is_ascii_alphabetic k = true ->
  forallb (fun c => is_ascii c && negb (c =? SPACE)) ks = true -> is_ascii c = false ->
  decode_bytes (ws ++ k :: ks ++ c :: rest) = Err DecodeError.UnexpectedToken.
Proof.
  intros Hws Hk Hks Hc. rewrite decode_bytes_feed_all, feed_all_whitespace by exact Hws.
  cbn [feed_all]. rewrite decode_none_alpha by exact Hk. cbn [obind].
  rewrite feed_all_directive_bytes by exact Hks. cbn [feed_all].
  assert (Hs : (c =? SPACE) = false).
  { apply N.eqb_neq. intros ->. discriminate. }
  unfold decode. cbn. rewrite Hs, Hc. reflexivity.
Qed.

Lemma decode_rejects_non_ascii_keyword_witness :
  (forallb is_ascii_whitespace [] = true /\ is_ascii_alphabetic 82 = true /\
   forallb (fun c => is_ascii c && negb (c =? SPACE)) [85] = true /\ is_ascii 195 = false) /\
  decode_bytes ([] ++ 82 :: [85] ++ 195 :: [137] ++ s2b "N x") = Err DecodeError.UnexpectedToken.
Proof.
  split; [repeat split; reflexivity|]. apply decode_rejects_non_ascii_keyword; reflexivity.
Defined.

(** X7: a keyword followed by spaces and then a line feed or a backslash,
    with no argument before it, makes decoding fail with [UnexpectedToken]. *)
Theorem decode_rejects_empty_arguments ws kw sp c rest :
  forallb is_ascii_whitespace ws = true -> keyword_ok kw = true ->
  forallb (N.eqb SPACE) sp = true -> (c =? LF) || (c =? BACKSLASH) = true ->
  decode_bytes (ws ++ kw ++ SPACE :: sp ++ c :: rest) = Err DecodeError.UnexpectedToken.
Proof.
  intros Hws Hkw Hsp Hc. rewrite decode_bytes_feed_all, feed_all_whitespace by exact Hws.
  destruct kw as [|k ks]; [discriminate|].
  assert (exists d0, directive_try_from (k :: ks) = Ok d0) as [d0 Htry]
    by (eexists; exact (directive_try_from_keyword (k :: ks) Hkw)).
  unfold keyword_ok in Hkw. apply andb_prop in Hkw as [Hk Hks]. cbn [forallb] in Hks.
  apply andb_prop in Hks as [_ Hks].
  cbn [app feed_all]. rewrite decode_none_alpha by exact Hk. cbn [obind].
  rewrite feed_all_keyword by exact Hks. change ([k] ++ ks) with (k :: ks).
  rewrite Htry. cbn [obind]. rewrite feed_args_spaces by exact Hsp.
  cbn [feed_all]. rewrite decode_arguments_byte. unfold directive_arguments_step.
  rewrite Hc. reflexivity.
Qed.

Lemma decode_rejects_empty_arguments_witness :
  (forallb is_ascii_whitespace [] = true /\ keyword_ok (s2b "RUN") = true /\
   forallb (N.eqb SPACE) [SPACE] = true /\ (LF =? LF) || (LF =? BACKSLASH) = true) /\
  decode_bytes ([] ++ s2b "RUN" ++ SPACE :: [SPACE] ++ LF :: s2b "FROM x") =
    Err DecodeError.UnexpectedToken.
Proof.
  split; [repeat split; reflexivity|]. apply decode_rejects_empty_arguments; reflexivity.
Defined.

(** X8: a keyword alone on its line is not an error: the line feed is
    taken into the keyword, which runs on into the next line, and the two
    lines decode as one [Other] directive whose keyword holds the line feed. *)
Theorem decode_keyword_only_line_joins_next kw1 kw2 args :
  keyword_ok kw1 = true -> forallb (fun c => is_ascii c && negb (c =? SPACE)) kw2 = true ->
  args_line_ok args = true ->
  decode_bytes (kw1 ++ LF :: kw2 ++ SPACE :: args ++ [LF]) =
    Ok [Other (kw1 ++ LF :: kw2) args].
Proof.
  intros H1 H2 Hargs.
  assert (Hkw : keyword_ok (kw1 ++ LF :: kw2) = true).
  { unfold keyword_ok in *. destruct kw1 as [|k ks]; [discriminate|].
    apply andb_prop in H1 as [Hk H1]. cbn [app]. rewrite Hk. cbn [andb].
    change (forallb ?f (k :: ks ++ LF :: kw2)) with (forallb f ((k :: ks) ++ LF :: kw2)).
    rewrite forallb_app, H1. cbn [forallb]. rewrite H2. reflexivity. }
  replace (kw1 ++ LF :: kw2 ++ SPACE :: args ++ [LF])
    with ([] ++ (kw1 ++ LF :: kw2) ++ SPACE :: [] ++ args ++ [LF])
    by (cbn [app]; rewrite <- app_assoc; reflexivity).
  rewrite (decode_single_line [] (kw1 ++ LF :: kw2) [] args eq_refl) by first [assumption | reflexivity].
  unfold line_directive. rewrite directive_try_from_keyword by exact Hkw. cbn [obind].
  assert (Hne : forall s, ~ In LF s ->
            list_N_eqb (to_ascii_uppercase (kw1 ++ LF :: kw2)) s = false).
  { intros s Hs. destruct (list_N_eqb _ s) eqn:E; [|reflexivity].
    apply list_N_eqb_eq in E. rewrite <- E in Hs. exfalso. apply Hs.
    unfold to_ascii_uppercase. rewrite map_app. apply in_or_app. right. left. reflexivity. }
  cbv zeta. rewrite !Hne by (vm_compute; intuition discriminate).
  reflexivity.
Qed.

Lemma decode_keyword_only_line_joins_next_witness :
  (keyword_ok (s2b "RUN") = true /\
   forallb (fun c => is_ascii c && negb (c =? SPACE)) (s2b "FROM") = true /\
   args_line_ok (s2b "alpine") = true) /\
  decode_bytes (s2b "RUN" ++ LF :: s2b "FROM" ++ SPACE :: s2b "alpine" ++ [LF]) =
    Ok [Other (s2b "RUN" ++ LF :: s2b "FROM") (s2b "alpine")].
Proof.
  split; [repeat split; reflexivity|]. apply decode_keyword_only_line_joins_next; reflexivity.
Defined.

Lemma simple_line_feed_all l :
  simple_line l -> feed_all None l = (ds <- decode_bytes l;; Ok (ds, None)).
Proof.
  intros H. rewrite decode_bytes_feed_all. destruct H as [ws Hws|ws text Hws Ht|ws kw sp args Hws Hkw Hsp Hargs].
  - rewrite <- (app_nil_r ws), feed_all_whitespace by exact Hws. reflexivity.
  - rewrite feed_all_whitespace by exact Hws. cbn [feed_all]. rewrite decode_none_hash.
    cbn [obind]. rewrite feed_all_comment by exact Ht. reflexivity.
  - rewrite feed_all_directive_line by assumption.
    destruct (line_directive kw (hd 0 args)) as [d1| |]; cbn [obind]; try reflexivity.
    destruct (set_arguments d1 args) as [d| |]; reflexivity.
Qed.

(** X3: a file made of blank lines, comment lines and single directive
    lines decodes to the directives of its lines decoded one by one, in
    order. *)
Theorem decode_simple_lines ls :
  Forall simple_line ls -> decode_bytes (List.concat ls) = decode_lines ls.
Proof.
  induction 1 as [|l ls Hl Hls IH]; [reflexivity|].
  cbn [List.concat decode_lines]. rewrite decode_bytes_feed_all, feed_all_app, simple_line_feed_all by exact Hl.
  rewrite decode_bytes_feed_all in IH.
  destruct (decode_bytes l) as [ds| |]; cbn [obind]; try reflexivity.
  destruct (feed_all None (List.concat ls)) as [[ds2 st]| |]; cbn [obind] in *; rewrite <- IH; try reflexivity.
  destruct (eof_result st) as [e| |]; cbn [obind]; try reflexivity. rewrite app_assoc. reflexivity.
Qed.

Lemma decode_simple_lines_witness :
  Forall simple_line [s2b "FROM alpine" ++ [LF]; [LF]; s2b "# c" ++ [LF]; s2b "RUN make" ++ [LF]] /\
  decode_bytes (List.concat [s2b "FROM alpine" ++ [LF]; [LF]; s2b "# c" ++ [LF]; s2b "RUN make" ++ [LF]]) =
    decode_lines [s2b "FROM alpine" ++ [LF]; [LF]; s2b "# c" ++ [LF]; s2b "RUN make" ++ [LF]].
Proof.
  assert (H : Forall simple_line
    [s2b "FROM alpine" ++ [LF]; [LF]; s2b "# c" ++ [LF]; s2b "RUN make" ++ [LF]]).
  { apply Forall_cons;
      [exact (directive_line [] (s2b "FROM") [] (s2b "alpine") eq_refl eq_refl eq_refl eq_refl)|].
    apply Forall_cons; [exact (blank_line [LF] eq_refl)|].
    apply Forall_cons; [exact (comment_line [] (s2b " c") eq_refl eq_refl)|].
    apply Forall_cons;
      [exact (directive_line [] (s2b "RUN") [] (s2b "make") eq_refl eq_refl eq_refl eq_refl)|].
    apply Forall_nil. }
  split; [exact H|]. apply decode_simple_lines. exact H.
Defined.

Lemma fold_decimal_ge l acc : acc <= fold_left decimal_step l acc.
Proof.
  revert acc; induction l as [|d l IH]; intros acc; [cbn; lia|].
  cbn [fold_left]. specialize (IH (decimal_step acc d)). unfold decimal_step in *. lia.
Qed.

Lemma digits_value_fold l acc :
  forallb is_digit l = true -> acc <= 65535 ->
  digits_value acc l =
    (if fold_left decimal_step l acc <=? 65535 then Some (fold_left decimal_step l acc) else None).
Proof.
  revert acc; induction l as [|d l IH]; intros acc Hl Hacc.
  - cbn. apply N.leb_le in Hacc. rewrite Hacc. reflexivity.
  - cbn [forallb] in Hl. apply andb_prop in Hl as [Hd Hl]. cbn [digits_value fold_left].
    rewrite Hd. fold (decimal_step acc d).
    destruct (decimal_step acc d <=? 65535) eqn:E.
    + apply IH; [exact Hl|]. apply N.leb_le, E.
    + pose proof (fold_decimal_ge l (decimal_step acc d)). apply N.leb_gt in E.
      destruct (fold_left decimal_step l (decimal_step acc d) <=? 65535) eqn:E2; [|reflexivity].
      apply N.leb_le in E2. lia.
Qed.

Lemma parse_u16_digits l :
  l <> [] -> forallb is_digit l = true ->
  parse_u16 l = (if decimal_value l <=? 65535 then Some (decimal_value l) else None).
Proof.
  intros Hne Hl. unfold decimal_value. rewrite <- digits_value_fold by (auto; lia).
  destruct l as [|b [|c t]]; [contradiction Hne; reflexivity| |];
    cbn [forallb] in Hl; apply andb_prop in Hl as [Hb _];
    unfold parse_u16; replace (b =? 43) with false; try reflexivity;
    symmetry; apply N.eqb_neq; intros ->; discriminate.
Qed.

Lemma uint_acc_fold u acc :
  Npos (Pos.of_uint_acc u acc) = fold_left decimal_step (uint_digits u) (Npos acc).
Proof.
  revert acc; induction u; intros acc; cbn [Pos.of_uint_acc uint_digits fold_left];
    try reflexivity; rewrite IHu; f_equal; unfold decimal_step; lia.
Qed.

Lemma uint_digits_value u : N.of_uint u = decimal_value (uint_digits u).
Proof.
  unfold decimal_value.
  induction u; try (unfold N.of_uint; cbn [Pos.of_uint uint_digits fold_left];
                    rewrite uint_acc_fold; reflexivity).
  - reflexivity.
  - cbn [uint_digits fold_left]. change (decimal_step 0 48) with 0. exact IHu.
Qed.

Lemma last_in_or_default (l : list N) d : last l d = d \/ In (last l d) l.
Proof.
  induction l as [|x l IH]; [left; reflexivity|].
  destruct l as [|y l]; [right; left; reflexivity|].
  destruct IH as [H|H]; [left; exact H|right; right; exact H].
Qed.

Lemma args_line_ok_plain a0 rest :
  (a0 =? SPACE) = false ->
  forallb (fun c => negb (c =? BACKSLASH) && negb (c =? LF)) (a0 :: rest) = true ->
  args_line_ok (a0 :: rest) = true.
Proof.
  intros Hsp Hall. unfold args_line_ok. rewrite Hsp.
  pose proof Hall as Hall'. rewrite forallb_forall in Hall'.
  destruct (andb_prop _ _ (Hall' a0 (or_introl eq_refl))) as [Hb _]. rewrite Hb.
  assert (Hlf : no_lf (a0 :: rest) = true).
  { unfold no_lf. rewrite forallb_forall. intros c Hc.
    destruct (andb_prop _ _ (Hall' c Hc)) as [_ H]. exact H. }
  rewrite Hlf. cbn [negb andb].
  destruct (last_in_or_default (filter not_hash (a0 :: rest)) 0) as [H|H]; [rewrite H; reflexivity|].
  apply filter_In in H as [H _]. destruct (andb_prop _ _ (Hall' _ H)) as [H' _]. exact H'.
Qed.

Lemma digits_plain ds :
  forallb is_digit ds = true ->
  forallb is_ascii ds = true /\
  forallb (fun c => negb (c =? BACKSLASH) && negb (c =? LF)) ds = true /\
  forall a0 rest, ds = a0 :: rest -> (a0 =? SPACE) = false.
Proof.
  intros H. rewrite forallb_forall in H. split; [|split].
  - rewrite forallb_forall. intros c Hc. specialize (H c Hc). unfold is_digit, in_range, is_ascii in *.
    apply andb_prop in H as [_ H]. apply N.leb_le in H. apply N.ltb_lt. lia.
  - rewrite forallb_forall. intros c Hc. specialize (H c Hc). unfold is_digit, in_range in *.
    apply andb_prop in H as [H1 H2]. apply N.leb_le in H1, H2.
    unfold BACKSLASH, LF. replace (c =? 92) with false by (symmetry; apply N.eqb_neq; lia).
    replace (c =? 10) with false by (symmetry; apply N.eqb_neq; lia). reflexivity.
  - intros a0 rest ->. specialize (H a0 (or_introl eq_refl)). unfold is_digit, in_range in H.
    apply andb_prop in H as [H1 _]. apply N.leb_le in H1. apply N.eqb_neq. unfold SPACE. lia.
Qed.

Lemma line_directive_expose kw a :
  keyword_ok kw = true -> to_ascii_uppercase kw = s2b "EXPOSE" ->
  line_directive kw a = Ok (Expose None).
Proof.
  intros Hkw Hup. unfold line_directive. rewrite directive_try_from_keyword by exact Hkw.
  cbv zeta. rewrite Hup. reflexivity.
Qed.

(** X14: EXPOSE, in any letter case, followed by decimal digits decodes
    to [Expose] with the value of the digits when it is at most 65535,
    leading zeros allowed, and fails with [InvalidExposedPort] above. *)
Theorem decode_expose_digits kw ds :
  keyword_ok kw = true -> to_ascii_uppercase kw = s2b "EXPOSE" ->
  ds <> [] -> forallb is_digit ds = true ->
  decode_bytes (kw ++ SPACE :: ds ++ [LF]) =
    if decimal_value ds <=? 65535 then Ok [Expose (Some (decimal_value ds))]
    else Err DecodeError.InvalidExposedPort.
Proof.
  intros Hkw Hup Hne Hd. destruct (digits_plain ds Hd) as [Ha [Hp Hs]].
  destruct ds as [|a0 rest]; [contradiction Hne; reflexivity|].
  change (kw ++ SPACE :: (a0 :: rest) ++ [LF]) with ([] ++ kw ++ SPACE :: [] ++ (a0 :: rest) ++ [LF]).
  rewrite decode_single_line
    by first [reflexivity | exact Hkw | apply args_line_ok_plain; [exact (Hs a0 rest eq_refl)|exact Hp]].
  rewrite line_directive_expose by assumption. cbn [obind set_arguments].
  unfold from_utf8. rewrite ascii_utf8_valid by exact Ha. cbn [obind].
  rewrite parse_u16_digits by assumption.
  destruct (decimal_value (a0 :: rest) <=? 65535); reflexivity.
Qed.

Lemma decode_expose_digits_witness :
  (keyword_ok (s2b "expose") = true /\ to_ascii_uppercase (s2b "expose") = s2b "EXPOSE" /\
   s2b "08080" <> [] /\ forallb is_digit (s2b "08080") = true) /\
  decode_bytes (s2b "expose" ++ SPACE :: s2b "08080" ++ [LF]) =
    (if decimal_value (s2b "08080") <=? 65535 then Ok [Expose (Some (decimal_value (s2b "08080")))]
     else Err DecodeError.InvalidExposedPort).
Proof.
  split; [repeat split; try reflexivity; discriminate|].
  apply decode_expose_digits; first [reflexivity | discriminate].
Defined.

Lemma uint_digits_digits u : forallb is_digit (uint_digits u) = true.
Proof. induction u; cbn [uint_digits forallb]; try rewrite IHu; reflexivity. Qed.

(** X15: rendering [Expose (Some p)] for a port [p <= 65535], followed by a
    line feed, decodes back to [Expose (Some p)]. *)
Theorem expose_render_decodes p :
  p <= 65535 -> decode_bytes (render (Expose (Some p)) ++ [LF]) = Ok [Expose (Some p)].
Proof.
  intros Hp. unfold render, arguments, prefix. cbn [option_map].
  rewrite <- !app_assoc. cbn [app].
  rewrite decode_expose_digits
    by first [reflexivity | apply u16_to_string_not_nil | apply uint_digits_digits].
  unfold u16_to_string. rewrite <- uint_digits_value, DecimalN.Unsigned.of_to.
  apply N.leb_le in Hp. rewrite Hp. reflexivity.
Qed.

Lemma expose_render_decodes_witness :
  8080 <= 65535 /\ decode_bytes (render (Expose (Some 8080)) ++ [LF]) = Ok [Expose (Some 8080)].
Proof. split; [lia|]. apply expose_render_decodes. lia. Defined.

Lemma env_safe_facts c :
  env_safe c = true ->
  (c =? BACKSLASH) = false /\ (c =? DQUOTE) = false /\ (c =? SPACE) = false /\
  (c =? LF) = false /\ ws1 c = false /\ c < 128.
Proof.
  unfold env_safe, ws1, in_range. intros H.
  apply andb_prop in H as [H Hb]. apply andb_prop in H as [H Hq]. apply andb_prop in H as [H1 H2].
  apply negb_true_iff in Hb, Hq. apply N.leb_le in H1, H2.
  unfold SPACE, LF. repeat split; try assumption.
  - apply N.eqb_neq; lia.
  - apply N.eqb_neq; lia.
  - replace (9 <=? c) with true by (symmetry; apply N.leb_le; lia).
    replace (c <=? 13) with false by (symmetry; apply N.leb_gt; lia).
    replace (c =? 32) with false by (symmetry; apply N.eqb_neq; lia). reflexivity.
  - lia.
Qed.

Lemma env_step_safe c cur acc dl :
  env_safe c = true ->
  env_tok_step (mkEnvTok false false cur acc dl) c =
    mkEnvTok false false (cur ++ [c]) acc (if c =? EQUALS then Delimiter.Eq else dl).
Proof.
  intros Hc. destruct (env_safe_facts c Hc) as [Hb [Hq [Hs _]]].
  unfold env_tok_step. cbn [in_quotes escape current_token env_tokens env_delim].
  rewrite Hb, Hq, Hs. cbn [andb negb]. rewrite andb_true_r.
  destruct (c =? EQUALS); reflexivity.
Qed.

Lemma env_step_space b t acc dl :
  env_tok_step (mkEnvTok false false (b :: t) acc dl) SPACE =
    mkEnvTok false false [] (acc ++ [trim (b :: t)]) dl.
Proof. reflexivity. Qed.

Lemma fold_env_word w cur acc dl :
  forallb env_safe w = true ->
  fold_left env_tok_step w (mkEnvTok false false cur acc dl) =
    mkEnvTok false false (cur ++ w) acc (if has_eq w then Delimiter.Eq else dl).
Proof.
  revert cur dl; induction w as [|c w IH]; intros cur dl H.
  - rewrite app_nil_r. reflexivity.
  - cbn [forallb] in H. apply andb_prop in H as [Hc H].
    cbn [fold_left]. rewrite env_step_safe by exact Hc. rewrite IH by exact H.
    rewrite <- app_assoc. unfold has_eq. cbn [existsb app]. rewrite (N.eqb_sym EQUALS c).
    destruct (c =? EQUALS), (existsb (N.eqb EQUALS) w); reflexivity.
Qed.

Lemma trim_env_word w : env_word w = true -> trim w = w.
Proof.
  destruct w as [|b t]; [discriminate|]. intros H. unfold env_word in H.
  assert (Hall : forall c, In c (b :: t) -> ws1 c = false /\ c < 128).
  { intros c Hc. rewrite forallb_forall in H. destruct (env_safe_facts c (H c Hc)) as [_ [_ [_ [_ [H1 H2]]]]].
    split; assumption. }
  unfold trim, trim_end.
  assert (Hs : trim_start (b :: t) = b :: t).
  { destruct (Hall b (or_introl eq_refl)) as [Hw Hb]. cbn [trim_start]. rewrite Hw.
    destruct t as [|c t1]; [reflexivity|].
    assert (H194 : (b =? 194) = false) by (apply N.eqb_neq; lia).
    unfold ws2. rewrite H194. cbn [andb].
    destruct t1 as [|d t2]; [reflexivity|].
    unfold ws3. replace (b =? 225) with false by (symmetry; apply N.eqb_neq; lia).
    replace (b =? 226) with false by (symmetry; apply N.eqb_neq; lia).
    replace (b =? 227) with false by (symmetry; apply N.eqb_neq; lia). reflexivity. }
  rewrite Hs.
  assert (Hr : trim_start_rev (rev (b :: t)) = rev (b :: t)).
  { destruct (rev (b :: t)) as [|z zs] eqn:Er; [reflexivity|].
    assert (Hz : In z (b :: t)) by (apply in_rev; rewrite Er; left; reflexivity).
    destruct (Hall z Hz) as [Hw Hlt]. cbn [trim_start_rev]. rewrite Hw.
    destruct zs as [|c t1]; [reflexivity|].
    assert (Hw2 : ws2 c z = false).
    { unfold ws2. replace (z =? 133) with false by (symmetry; apply N.eqb_neq; lia).
      replace (z =? 160) with false by (symmetry; apply N.eqb_neq; lia).
      rewrite andb_false_r. reflexivity. }
    rewrite Hw2. destruct t1 as [|d t2]; [reflexivity|].
    assert (Hw3 : ws3 d c z = false).
    { unfold ws3, in_range.
      replace (z =? 128) with false by (symmetry; apply N.eqb_neq; lia).
      replace (z =? 159) with false by (symmetry; apply N.eqb_neq; lia).
      replace (z =? 168) with false by (symmetry; apply N.eqb_neq; lia).
      replace (z =? 169) with false by (symmetry; apply N.eqb_neq; lia).
      replace (z =? 175) with false by (symmetry; apply N.eqb_neq; lia).
      replace (128 <=? z) with false by (symmetry; apply N.leb_gt; lia).
      rewrite !andb_false_r. reflexivity. }
    rewrite Hw3. reflexivity. }
  rewrite Hr, rev_involutive. reflexivity.
Qed.

Lemma extract_from_words ws : forall w acc dl,
  forallb env_word (w :: ws) = true ->
  extract_from (mkEnvTok false false [] acc dl) (join [SPACE] (w :: ws)) =
    (acc ++ w :: ws, if existsb has_eq (w :: ws) then Delimiter.Eq else dl).
Proof.
  induction ws as [|w' ws IH]; intros w acc dl H.
  - cbn [forallb] in H. rewrite andb_true_r in H. cbn [join]. unfold extract_from.
    assert (Hw : forallb env_safe w = true) by (destruct w; [discriminate|exact H]).
    rewrite fold_env_word by exact Hw. cbn [current_token env_tokens env_delim app].
    destruct w as [|b t]; [discriminate|]. rewrite trim_env_word by exact H.
    cbn [existsb]. rewrite orb_false_r. reflexivity.
  - cbn [forallb] in H. apply andb_prop in H as [Hw H].
    assert (Hw' : forallb env_safe w = true) by (destruct w; [discriminate|exact Hw]).
    change (join [SPACE] (w :: w' :: ws)) with (w ++ [SPACE] ++ join [SPACE] (w' :: ws)).
    unfold extract_from. rewrite !fold_left_app. rewrite fold_env_word by exact Hw'.
    cbn [fold_left app]. destruct w as [|b t]; [discriminate|].
    rewrite env_step_space, trim_env_word by exact Hw.
    fold (extract_from (mkEnvTok false false [] (acc ++ [b :: t])
            (if has_eq (b :: t) then Delimiter.Eq else dl)) (join [SPACE] (w' :: ws))).
    rewrite IH by exact H. rewrite <- app_assoc. cbn [app existsb].
    destruct (has_eq (b :: t)), (has_eq w' || existsb has_eq ws); reflexivity.
Qed.

(** X11: on non-empty words of printable bytes without quotes or
    backslashes joined by single spaces, [extract_tokens] returns exactly
    those words, with delimiter [Eq] when some word contains ['='] and
    [None] otherwise. *)
Theorem env_tokens_of_words ws :
  ws <> [] -> forallb env_word ws = true ->
  extract_tokens_for_env_directive (join [SPACE] ws) =
    (ws, if existsb has_eq ws then Delimiter.Eq else Delimiter.None).
Proof.
  intros Hne H. destruct ws as [|w ws]; [contradiction Hne; reflexivity|].
  exact (extract_from_words ws w [] Delimiter.None H).
Qed.

Lemma env_tokens_of_words_witness :
  ([s2b "A=1"; s2b "B"] <> [] /\ forallb env_word [s2b "A=1"; s2b "B"] = true) /\
  extract_tokens_for_env_directive (join [SPACE] [s2b "A=1"; s2b "B"]) =
    ([s2b "A=1"; s2b "B"],
     if existsb has_eq [s2b "A=1"; s2b "B"] then Delimiter.Eq else Delimiter.None).
Proof.
  split; [split; [discriminate|reflexivity]|].
  apply env_tokens_of_words; [discriminate|reflexivity].
Defined.

Lemma forallb_join (P : N -> bool) sep ws :
  forallb P sep = true -> forallb (forallb P) ws = true -> forallb P (join sep ws) = true.
Proof.
  intros Hs. induction ws as [|w ws IH]; intros H; [reflexivity|].
  cbn [forallb] in H. apply andb_prop in H as [Hw H].
  destruct ws as [|w' ws]; [exact Hw|]. change (join sep (w :: w' :: ws)) with (w ++ sep ++ join sep (w' :: ws)).
  rewrite !forallb_app, Hw, Hs, IH by exact H. reflexivity.
Qed.

Lemma env_words_line ws :
  ws <> [] -> forallb env_word ws = true ->
  args_line_ok (join [SPACE] ws) = true /\ forallb is_ascii (join [SPACE] ws) = true.
Proof.
  intros Hne H.
  assert (Hsafe : forall w, In w ws -> forallb env_safe w = true).
  { intros w Hw. rewrite forallb_forall in H. specialize (H w Hw). destruct w; [discriminate|exact H]. }
  assert (Hall : forall P : N -> bool, P SPACE = true -> (forall c, env_safe c = true -> P c = true) ->
                 forallb P (join [SPACE] ws) = true).
  { intros P HP HS. apply forallb_join; [cbn; rewrite HP; reflexivity|].
    rewrite forallb_forall. intros w Hw. rewrite forallb_forall. intros c Hc.
    apply HS. specialize (Hsafe w Hw). rewrite forallb_forall in Hsafe. apply Hsafe, Hc. }
  split.
  - destruct ws as [|w ws]; [contradiction Hne; reflexivity|].
    destruct w as [|b t]; [cbn in H; discriminate|].
    assert (Hb : env_safe b = true).
    { specialize (Hsafe _ (or_introl eq_refl)). cbn [forallb] in Hsafe.
      apply andb_prop in Hsafe as [Hb _]. exact Hb. }
    destruct (env_safe_facts b Hb) as [_ [_ [Hsp _]]].
    assert (Hj : exists r, join [SPACE] ((b :: t) :: ws) = b :: r)
      by (destruct ws; eexists; reflexivity).
    destruct Hj as [r Hj]. rewrite Hj. apply args_line_ok_plain; [exact Hsp|]. rewrite <- Hj.
    apply Hall; [reflexivity|]. intros c Hc. destruct (env_safe_facts c Hc) as [-> [_ [_ [-> _]]]].
    reflexivity.
  - apply Hall; [reflexivity|]. intros c Hc. destruct (env_safe_facts c Hc) as [_ [_ [_ [_ [_ Hlt]]]]].
    apply N.ltb_lt, Hlt.
Qed.

Lemma split_first_eq_key k v : has_eq k = false -> split_first_eq (k ++ EQUALS :: v) = (k, Some v).
Proof.
  induction k as [|c k IH]; intros H; [reflexivity|].
  unfold has_eq in H. cbn [existsb] in H. apply orb_false_iff in H as [Hc H].
  cbn [app split_first_eq]. rewrite N.eqb_sym, Hc. rewrite IH by exact H. reflexivity.
Qed.

Lemma env_eq_word v : env_eq_var_ok v = true ->
  env_word (envvar_to_string v) = true /\ has_eq (envvar_to_string v) = true /\
  split_first_eq (envvar_to_string v) = (key v, Some (val v)) /\ delim v = Delimiter.Eq.
Proof.
  destruct v as [k x [|]]; unfold env_eq_var_ok; cbn [key val delim]; [|discriminate].
  intros H. apply andb_prop in H as [H Hv]. apply andb_prop in H as [H Hk]. apply andb_prop in H as [_ Hks].
  apply negb_true_iff in Hk. unfold envvar_to_string. cbn [delim key val]. cbn [app].
  repeat split.
  - assert (Hs : forallb env_safe (k ++ EQUALS :: x) = true)
      by (rewrite forallb_app, Hks; cbn [forallb]; rewrite Hv; reflexivity).
    destruct (k ++ EQUALS :: x) eqn:E; [destruct k; discriminate|exact Hs].
  - unfold has_eq. rewrite existsb_app. cbn [existsb]. rewrite N.eqb_refl, orb_true_r. reflexivity.
  - apply split_first_eq_key, Hk.
Qed.

Lemma env_assignments_words vars :
  forallb env_eq_var_ok vars = true ->
  env_assignments Delimiter.Eq (map envvar_to_string vars) = Ok vars.
Proof.
  induction vars as [|v vars IH]; intros H; [reflexivity|].
  cbn [forallb] in H. apply andb_prop in H as [Hv H].
  destruct (env_eq_word v Hv) as [_ [Heq [Hsplit Hd]]].
  cbn [map env_assignments]. unfold has_eq in Heq. rewrite Heq. cbn [negb]. rewrite Hsplit.
  rewrite IH by exact H. cbn [obind]. destruct v as [k x d]. cbn in Hd |- *. subst d. reflexivity.
Qed.

(** X12: rendering an ENV directive whose variables are all [KEY=VALUE] with
    printable keys and values (no quotes, no backslashes, no ['='] in a
    key), followed by a line feed, decodes back to the same directive. *)
Theorem env_render_decodes vars :
  vars <> [] -> forallb env_eq_var_ok vars = true ->
  decode_bytes (render (Env vars) ++ [LF]) = Ok [Env vars].
Proof.
  intros Hne H.
  assert (Hw : forallb env_word (map envvar_to_string vars) = true).
  { rewrite forallb_forall. intros w Hw. apply in_map_iff in Hw as [v [<- Hv]].
    rewrite forallb_forall in H. apply (env_eq_word v (H v Hv)). }
  assert (Hex : existsb has_eq (map envvar_to_string vars) = true).
  { destruct vars as [|v vs]; [contradiction Hne; reflexivity|]. cbn [map existsb].
    cbn [forallb] in H. apply andb_prop in H as [Hv _]. destruct (env_eq_word v Hv) as [_ [-> _]].
    reflexivity. }
  assert (Hmne : map envvar_to_string vars <> []) by (destruct vars; [contradiction Hne; reflexivity|discriminate]).
  destruct (env_words_line _ Hmne Hw) as [Hline Hascii].
  unfold render, arguments, prefix. rewrite <- !app_assoc.
  change (decode_bytes ([] ++ s2b "ENV" ++ SPACE :: [] ++ join [SPACE] (map envvar_to_string vars) ++ [LF])
          = Ok [Env vars]).
  rewrite decode_single_line by first [reflexivity | exact Hline].
  change (line_directive (s2b "ENV") (hd 0 (join [SPACE] (map envvar_to_string vars))))
    with (Ok (E := DecodeError.t) (Env [])).
  cbn [obind set_arguments]. unfold from_utf8. rewrite ascii_utf8_valid by exact Hascii.
  cbn [obind]. unfold parse_env_directive. rewrite env_tokens_of_words by assumption.
  rewrite Hex. rewrite env_assignments_words by exact H. reflexivity.
Qed.

Lemma env_render_decodes_witness :
  ([mkEnvVar (s2b "A") (s2b "x=1") Delimiter.Eq; mkEnvVar (s2b "B") [] Delimiter.Eq] <> [] /\
   forallb env_eq_var_ok
     [mkEnvVar (s2b "A") (s2b "x=1") Delimiter.Eq; mkEnvVar (s2b "B") [] Delimiter.Eq] = true) /\
  decode_bytes (render (Env [mkEnvVar (s2b "A") (s2b "x=1") Delimiter.Eq;
                             mkEnvVar (s2b "B") [] Delimiter.Eq]) ++ [LF]) =
    Ok [Env [mkEnvVar (s2b "A") (s2b "x=1") Delimiter.Eq; mkEnvVar (s2b "B") [] Delimiter.Eq]].
Proof.
  split; [split; [discriminate|reflexivity]|].
  apply env_render_decodes; [discriminate|reflexivity].
Defined.

Lemma existsb_has_eq_plain ws : forallb env_plain_word ws = true -> existsb has_eq ws = false.
Proof.
  induction ws as [|w ws IH]; intros H; [reflexivity|]. cbn [forallb] in H.
  apply andb_prop in H as [Hw H]. unfold env_plain_word in Hw. apply andb_prop in Hw as [_ Hw].
  apply negb_true_iff in Hw. cbn [existsb]. rewrite Hw, IH by exact H. reflexivity.
Qed.

Lemma plain_words_env_words ws : forallb env_plain_word ws = true -> forallb env_word ws = true.
Proof.
  induction ws as [|w ws IH]; intros H; [reflexivity|]. cbn [forallb] in H |- *.
  apply andb_prop in H as [Hw H]. unfold env_plain_word in Hw. apply andb_prop in Hw as [Hw _].
  rewrite Hw, IH by exact H. reflexivity.
Qed.

(** X13: an ENV directive with one space-delimited variable whose key and
    value words are printable, without quotes, backslashes or ['='], renders
    and decodes back to itself. *)
Theorem env_single_render_decodes k words :
  words <> [] -> forallb env_plain_word (k :: words) = true ->
  decode_bytes (render (Env [mkEnvVar k (join [SPACE] words) Delimiter.None]) ++ [LF]) =
    Ok [Env [mkEnvVar k (join [SPACE] words) Delimiter.None]].
Proof.
  intros Hne H.
  assert (Hj : envvar_to_string (mkEnvVar k (join [SPACE] words) Delimiter.None) = join [SPACE] (k :: words))
    by (destruct words; [contradiction Hne; reflexivity|reflexivity]).
  pose proof (plain_words_env_words _ H) as Hw.
  destruct (env_words_line (k :: words) ltac:(discriminate) Hw) as [Hline Hascii].
  unfold render, arguments, prefix. cbn [map join]. rewrite Hj. rewrite <- !app_assoc.
  change (decode_bytes ([] ++ s2b "ENV" ++ SPACE :: [] ++ join [SPACE] (k :: words) ++ [LF])
          = Ok [Env [mkEnvVar k (join [SPACE] words) Delimiter.None]]).
  rewrite decode_single_line by first [reflexivity | exact Hline].
  change (line_directive (s2b "ENV") (hd 0 (join [SPACE] (k :: words))))
    with (Ok (E := DecodeError.t) (Env [])).
  cbn [obind set_arguments]. unfold from_utf8. rewrite ascii_utf8_valid by exact Hascii.
  cbn [obind]. unfold parse_env_directive.
  rewrite env_tokens_of_words by first [discriminate | exact Hw].
  rewrite existsb_has_eq_plain by exact H.
  destruct words as [|w ws]; [contradiction Hne; reflexivity|]. reflexivity.
Qed.

Lemma env_single_render_decodes_witness :
  ([s2b "hello"; s2b "world"] <> [] /\
   forallb env_plain_word [s2b "GREETING"; s2b "hello"; s2b "world"] = true) /\
  decode_bytes (render (Env [mkEnvVar (s2b "GREETING") (join [SPACE] [s2b "hello"; s2b "world"])
                               Delimiter.None]) ++ [LF]) =
    Ok [Env [mkEnvVar (s2b "GREETING") (join [SPACE] [s2b "hello"; s2b "world"]) Delimiter.None]].
Proof.
  split; [split; [discriminate|reflexivity]|].
  apply env_single_render_decodes; [discriminate|reflexivity].
Defined.

Lemma split_on_nosep sep x :
  forallb (fun c => negb (c =? sep)) x = true -> split_on sep x = [x].
Proof.
  induction x as [|c x IH]; intros H; [reflexivity|]. cbn [forallb] in H.
  apply andb_prop in H as [Hc H]. apply negb_true_iff in Hc. cbn [split_on].
  rewrite Hc, IH by exact H. reflexivity.
Qed.

Lemma split_on_app_sep sep x rest :
  forallb (fun c => negb (c =? sep)) x = true ->
  split_on sep (x ++ sep :: rest) = x :: split_on sep rest.
Proof.
  induction x as [|c x IH]; intros H.
  - cbn. rewrite N.eqb_refl. reflexivity.
  - cbn [forallb] in H. apply andb_prop in H as [Hc H]. apply negb_true_iff in Hc.
    cbn [app split_on]. rewrite Hc, IH by exact H. reflexivity.
Qed.

Lemma quote_no_comma t :
  exec_tok_ok t = true -> forallb (fun c => negb (c =? COMMA)) (quote_token t) = true.
Proof.
  intros H. unfold exec_tok_ok in H. apply andb_prop in H as [_ H].
  unfold quote_token. rewrite !forallb_app. cbn [forallb]. rewrite andb_true_r.
  replace (forallb (fun c => negb (c =? COMMA)) t) with true; [reflexivity|].
  symmetry. rewrite forallb_forall in H |- *. intros c Hc. specialize (H c Hc).
  apply andb_prop in H as [H _]. apply andb_prop in H as [H _]. exact H.
Qed.

Lemma split_exec_terms ts : forall p t,
  forallb (fun c => negb (c =? COMMA)) p = true -> forallb exec_tok_ok (t :: ts) = true ->
  split_on COMMA (p ++ join (s2b ", ") (map quote_token (t :: ts))) =
    (p ++ quote_token t) :: map (fun u => SPACE :: quote_token u) ts.
Proof.
  induction ts as [|u ts IH]; intros p t Hp H; cbn [forallb] in H; apply andb_prop in H as [Ht H].
  - cbn [map join]. apply split_on_nosep. rewrite forallb_app, Hp. apply quote_no_comma, Ht.
  - change (join (s2b ", ") (map quote_token (t :: u :: ts)))
      with (quote_token t ++ [COMMA; SPACE] ++ join (s2b ", ") (map quote_token (u :: ts))).
    rewrite app_assoc. cbn [app]. rewrite split_on_app_sep
      by (rewrite forallb_app, Hp; apply quote_no_comma, Ht).
    change (SPACE :: join (s2b ", ") (map quote_token (u :: ts)))
      with ([SPACE] ++ join (s2b ", ") (map quote_token (u :: ts))).
    rewrite IH by first [reflexivity | exact H]. reflexivity.
Qed.

Lemma rev_quote t : rev (quote_token t) = DQUOTE :: rev t ++ [DQUOTE].
Proof. unfold quote_token. rewrite rev_app_distr. cbn. rewrite rev_app_distr. reflexivity. Qed.

Lemma ws2_quote_last c : ws2 c DQUOTE = false.
Proof. unfold ws2. destruct (c =? 194); reflexivity. Qed.

Lemma ws3_quote_last d c : ws3 d c DQUOTE = false.
Proof.
  unfold ws3. destruct (d =? 225), (c =? 154), (d =? 226), (c =? 128), (c =? 129), (d =? 227);
    reflexivity.
Qed.

Lemma trim_start_quote r : trim_start (DQUOTE :: r) = DQUOTE :: r.
Proof. destruct r as [|c [|d r]]; reflexivity. Qed.

Lemma trim_start_rev_quote r : trim_start_rev (DQUOTE :: r) = DQUOTE :: r.
Proof.
  destruct r as [|c [|d r]]; cbn [trim_start_rev]; [reflexivity| |];
    change (ws1 DQUOTE) with false; cbv iota beta; rewrite ws2_quote_last; [reflexivity|].
  rewrite ws3_quote_last. reflexivity.
Qed.

Lemma trim_quote t : trim (quote_token t) = quote_token t.
Proof.
  unfold trim, trim_end. unfold quote_token at 1. cbn [app]. rewrite trim_start_quote.
  change (DQUOTE :: t ++ [DQUOTE]) with (quote_token t).
  rewrite rev_quote, trim_start_rev_quote, <- rev_quote, rev_involutive. reflexivity.
Qed.

Lemma exec_token_quote t : exec_token (quote_token t) = t.
Proof.
  unfold exec_token. rewrite trim_quote. unfold quote_token. cbn [app strip_prefix_quote].
  rewrite N.eqb_refl. unfold strip_suffix_quote. rewrite rev_app_distr. cbn [rev app].
  rewrite N.eqb_refl, rev_involutive. reflexivity.
Qed.

Lemma exec_token_space_quote t : exec_token (SPACE :: quote_token t) = t.
Proof.
  rewrite <- (exec_token_quote t) at 2. reflexivity.
Qed.

Lemma utf8_valid_quote t : utf8_valid (quote_token t) = utf8_valid t.
Proof.
  unfold quote_token. cbn [app]. change (utf8_valid (DQUOTE :: t ++ [DQUOTE])) with (utf8_valid (t ++ [DQUOTE])).
  rewrite (utf8_valid_app_ascii t DQUOTE []) by (unfold DQUOTE; lia). apply andb_true_r.
Qed.

Lemma exec_args_facts toks :
  toks <> [] -> forallb exec_tok_ok toks = true ->
  args_line_ok (exec_args toks) = true /\
  Nat.ltb (List.length (exec_args toks)) 2 = false /\
  map exec_token (filter utf8_valid (split_on COMMA
    (firstn (List.length (exec_args toks) - 2) (tl (exec_args toks))))) = toks.
Proof.
  intros Hne H. unfold exec_args. set (J := join (s2b ", ") (map quote_token toks)).
  split; [|split].
  - apply args_line_ok_plain; [reflexivity|]. cbn [forallb]. rewrite forallb_app. cbn [forallb].
    replace (forallb _ J) with true; [reflexivity|]. symmetry. subst J.
    apply forallb_join; [reflexivity|]. rewrite forallb_forall. intros q Hq.
    apply in_map_iff in Hq as [t [<- Ht]]. rewrite forallb_forall in H. specialize (H t Ht).
    unfold exec_tok_ok in H. apply andb_prop in H as [_ H].
    unfold quote_token. rewrite !forallb_app. cbn [forallb]. rewrite andb_true_r.
    replace (forallb _ t) with true; [reflexivity|]. symmetry.
    rewrite forallb_forall in H |- *. intros c Hc. specialize (H c Hc).
    apply andb_prop in H as [H Hb]. apply andb_prop in H as [_ Hl]. rewrite Hb, Hl. reflexivity.
  - cbn [List.length]. rewrite length_app. cbn [List.length].
    replace (List.length J + 1)%nat with (S (List.length J)) by lia. reflexivity.
  - cbn [tl List.length]. rewrite length_app. cbn [List.length].
    replace (S (List.length J + 1) - 2)%nat with (List.length J) by lia.
    rewrite firstn_app, firstn_all. replace (List.length J - List.length J)%nat with 0%nat by lia. cbn [firstn]. rewrite app_nil_r. subst J.
    destruct toks as [|t ts]; [contradiction Hne; reflexivity|].
    change (join (s2b ", ") (map quote_token (t :: ts)))
      with ([] ++ join (s2b ", ") (map quote_token (t :: ts))).
    rewrite split_exec_terms by first [reflexivity | exact H].
    cbn [forallb] in H. apply andb_prop in H as [Ht Hts].
    cbn [app filter]. rewrite utf8_valid_quote.
    unfold exec_tok_ok in Ht. apply andb_prop in Ht as [Ht _]. rewrite Ht.
    cbn [map]. rewrite exec_token_quote. f_equal. clear Hne.
    induction ts as [|u ts IH]; [reflexivity|]. cbn [forallb] in Hts.
    apply andb_prop in Hts as [Hu Hts]. unfold exec_tok_ok in Hu. apply andb_prop in Hu as [Hu _].
    cbn [map filter]. change (utf8_valid (SPACE :: quote_token u)) with (utf8_valid (quote_token u)).
    rewrite utf8_valid_quote, Hu. cbn [map]. rewrite exec_token_space_quote, IH by exact Hts.
    reflexivity.
Qed.

(** X10: rendering an exec-form ENTRYPOINT or CMD with a non-empty list of
    tokens that are valid UTF-8 and hold no comma, line feed or backslash,
    followed by a line feed, decodes back to the same directive. *)
Theorem exec_form_render_decodes toks :
  toks <> [] -> forallb exec_tok_ok toks = true ->
  decode_bytes (render (Entrypoint (Some Exec) toks) ++ [LF]) = Ok [Entrypoint (Some Exec) toks] /\
  decode_bytes (render (Cmd (Some Exec) toks) ++ [LF]) = Ok [Cmd (Some Exec) toks].
Proof.
  intros Hne H. destruct (exec_args_facts toks Hne H) as [Hline [Hlen Htoks]].
  unfold render, arguments, prefix. split.
  - change (decode_bytes ([] ++ s2b "ENTRYPOINT" ++ SPACE :: [] ++ exec_args toks ++ [LF])
            = Ok [Entrypoint (Some Exec) toks]).
    rewrite decode_single_line by first [reflexivity | exact Hline].
    change (line_directive (s2b "ENTRYPOINT") (hd 0 (exec_args toks)))
      with (Ok (E := DecodeError.t) (Entrypoint (Some Exec) [])).
    cbn [obind set_arguments]. rewrite Hlen, Htoks. reflexivity.
  - change (decode_bytes ([] ++ s2b "CMD" ++ SPACE :: [] ++ exec_args toks ++ [LF])
            = Ok [Cmd (Some Exec) toks]).
    rewrite decode_single_line by first [reflexivity | exact Hline].
    change (line_directive (s2b "CMD") (hd 0 (exec_args toks)))
      with (Ok (E := DecodeError.t) (Cmd (Some Exec) [])).
    cbn [obind set_arguments]. rewrite Hlen, Htoks. reflexivity.
Qed.

Lemma exec_form_render_decodes_witness :
  ([s2b "/bin/sh"; s2b "-c"; s2bq "echo `hi` #1"] <> [] /\
   forallb exec_tok_ok [s2b "/bin/sh"; s2b "-c"; s2bq "echo `hi` #1"] = true) /\
  (decode_bytes (render (Entrypoint (Some Exec) [s2b "/bin/sh"; s2b "-c"; s2bq "echo `hi` #1"]) ++ [LF]) =
     Ok [Entrypoint (Some Exec) [s2b "/bin/sh"; s2b "-c"; s2bq "echo `hi` #1"]] /\
   decode_bytes (render (Cmd (Some Exec) [s2b "/bin/sh"; s2b "-c"; s2bq "echo `hi` #1"]) ++ [LF]) =
     Ok [Cmd (Some Exec) [s2b "/bin/sh"; s2b "-c"; s2bq "echo `hi` #1"]]).
Proof.
  split; [split; [discriminate|reflexivity]|].
  apply exec_form_render_decodes; [discriminate|reflexivity].
Defined.

Lemma step_mid_any p nl ss c :
  (c =? LF) = false ->
  exists nl' ss', forall d, directive_arguments_step c (d, Some p, nl, ss) =
                  Ok (Continue (d, Some (p ++ [c]), nl', ss')).
Proof.
  intros Hc. unfold directive_arguments_step. rewrite Hc. cbn [orb andb is_none negb].
  destruct (c =? BACKSLASH); [do 2 eexists; intros d; reflexivity|].
  destruct (c =? SPACE); cbn [andb]; destruct (c =? HASH);
    do 2 eexists; intros d; reflexivity.
Qed.

Lemma feed_args_any rest : forall p nl ss,
  no_lf rest = true ->
  exists nl' ss', forall d,
    feed_all (Some (DecoderState.DirectiveArguments d (Some p) nl ss)) rest =
      Ok ([], Some (DecoderState.DirectiveArguments d (Some (p ++ rest)) nl' ss')).
Proof.
  induction rest as [|c rest IH]; intros p nl ss Hr.
  - exists nl, ss. intros d. rewrite app_nil_r. reflexivity.
  - unfold no_lf in Hr. cbn [forallb] in Hr. apply andb_prop in Hr as [Hc Hr].
    apply negb_true_iff in Hc.
    destruct (step_mid_any p nl ss c Hc) as [nl1 [ss1 Hs]].
    destruct (IH (p ++ [c]) nl1 ss1 Hr) as [nl2 [ss2 Hf]].
    exists nl2, ss2. intros d.
    cbn [feed_all]. rewrite decode_arguments_byte, Hs. cbn [obind].
    rewrite Hf, <- app_assoc. reflexivity.
Qed.

Lemma step_first_any a0 :
  (a0 =? LF) = false -> (a0 =? BACKSLASH) = false -> (a0 =? SPACE) = false ->
  exists ss1, forall d0, directive_arguments_step a0 (d0, None, Observe, []) =
    (d1 <- (if (is_cmd d0 || is_entrypoint d0) && negb (a0 =? HASH)
            then set_mode d0 (mode_from a0) else Ok d0);;
     Ok (Continue (d1, Some [a0], Observe, ss1))).
Proof.
  intros Hl Hb Hs.
  exists (match string_token_of a0 with Some t => [t] | None => [] end). intros d0.
  unfold directive_arguments_step. rewrite Hl, Hb, Hs. cbn [orb andb is_none negb].
  destruct (a0 =? HASH) eqn:Hh.
  - apply N.eqb_eq in Hh. subst a0. rewrite andb_false_r. reflexivity.
  - rewrite andb_true_r. destruct (is_cmd d0 || is_entrypoint d0);
      [destruct (set_mode d0 (mode_from a0))|]; destruct (string_token_of a0); reflexivity.
Qed.

Lemma feed_args_fresh a0 rest :
  (a0 =? SPACE) = false -> (a0 =? BACKSLASH) = false -> no_lf (a0 :: rest) = true ->
  exists nl ss, forall d0,
    feed_all (Some (DecoderState.DirectiveArguments d0 None Observe [])) (a0 :: rest) =
      (d1 <- (if (is_cmd d0 || is_entrypoint d0) && negb (a0 =? HASH)
              then set_mode d0 (mode_from a0) else Ok d0);;
       Ok ([], Some (DecoderState.DirectiveArguments d1 (Some (a0 :: rest)) nl ss))).
Proof.
  intros Hsp Hbs Hlf. unfold no_lf in Hlf. cbn [forallb] in Hlf.
  apply andb_prop in Hlf as [Hl0 Hr]. apply negb_true_iff in Hl0.
  destruct (step_first_any a0 Hl0 Hbs Hsp) as [ss1 Hs].
  destruct (feed_args_any rest [a0] Observe ss1 Hr) as [nl [ss Hf]].
  exists nl, ss. intros d0.
  cbn [feed_all]. rewrite decode_arguments_byte. unfold StringStack in *. rewrite Hs.
  destruct ((is_cmd d0 || is_entrypoint d0) && negb (a0 =? HASH));
    [destruct (set_mode d0 (mode_from a0)) as [d1| |]|]; cbn [obind]; try reflexivity;
    rewrite Hf; reflexivity.
Qed.

Lemma arguments_end_fresh a0 rest nl ss :
  (forall d0, feed_all (Some (DecoderState.DirectiveArguments d0 None Observe [])) (a0 :: rest) =
      (d1 <- (if (is_cmd d0 || is_entrypoint d0) && negb (a0 =? HASH)
              then set_mode d0 (mode_from a0) else Ok d0);;
       Ok ([], Some (DecoderState.DirectiveArguments d1 (Some (a0 :: rest)) nl ss)))) ->
  arguments_end (a0 :: rest) = Some (nl, ss).
Proof. intros Hf. unfold arguments_end. rewrite Hf. reflexivity. Qed.

Lemma feed_all_line_observed ws kw a0 rest :
  forallb is_ascii_whitespace ws = true -> keyword_ok kw = true ->
  (a0 =? SPACE) = false -> (a0 =? BACKSLASH) = false -> no_lf (a0 :: rest) = true ->
  lf_observed (a0 :: rest) = true ->
  feed_all None (ws ++ kw ++ SPACE :: (a0 :: rest) ++ [LF]) =
    (d1 <- line_directive kw a0;; d <- set_arguments d1 (a0 :: rest);; Ok ([d], None)).
Proof.
  intros Hws Hkw Hsp Hbs Hlf Hobs.
  destruct (feed_args_fresh a0 rest Hsp Hbs Hlf) as [nl [ss Hf]].
  unfold lf_observed in Hobs. rewrite (arguments_end_fresh a0 rest nl ss Hf) in Hobs.
  destruct nl; try discriminate Hobs.
  rewrite feed_all_whitespace by exact Hws.
  destruct kw as [|k ks]; [discriminate|].
  assert (exists d0, directive_try_from (k :: ks) = Ok d0) as [d0 Htry]
    by (eexists; exact (directive_try_from_keyword (k :: ks) Hkw)).
  unfold keyword_ok in Hkw. apply andb_prop in Hkw as [Hk Hks]. simpl in Hks.
  apply andb_prop in Hks as [_ Hks].
  cbn [app feed_all]. rewrite decode_none_alpha by exact Hk. cbn [obind].
  rewrite feed_all_keyword by exact Hks. change ([k] ++ ks) with (k :: ks).
  unfold line_directive. rewrite Htry. cbn [obind].
  change (a0 :: rest ++ [LF]) with ((a0 :: rest) ++ [LF]). rewrite feed_all_app, Hf.
  destruct ((is_cmd d0 || is_entrypoint d0) && negb (a0 =? HASH));
    [destruct (set_mode d0 (mode_from a0)) as [d1| |]|]; cbn [obind]; try reflexivity;
    cbn [feed_all]; rewrite decode_arguments_lf_observe;
    match goal with |- context [set_arguments ?d ?a] => destruct (set_arguments d a) end;
    reflexivity.
Qed.

Lemma decode_line_observed ws kw a0 rest :
  forallb is_ascii_whitespace ws = true -> keyword_ok kw = true ->
  (a0 =? SPACE) = false -> (a0 =? BACKSLASH) = false -> no_lf (a0 :: rest) = true ->
  lf_observed (a0 :: rest) = true ->
  decode_bytes (ws ++ kw ++ SPACE :: (a0 :: rest) ++ [LF]) =
    (d1 <- line_directive kw a0;; d <- set_arguments d1 (a0 :: rest);; Ok [d]).
Proof.
  intros. rewrite decode_bytes_feed_all, feed_all_line_observed by assumption.
  destruct (line_directive kw a0) as [d1| |]; cbn [obind]; try reflexivity.
  destruct (set_arguments d1 (a0 :: rest)); reflexivity.
Qed.

Lemma render_line_roundtrip (lead kw args : list N) (a0 : N) (rest : list N) :
  forallb is_ascii_whitespace lead = true -> keyword_ok kw = true ->
  args = a0 :: rest -> (a0 =? SPACE) = false -> (a0 =? BACKSLASH) = false ->
  no_lf args = true -> lf_observed args = true -> utf8_valid args = true ->
  list_N_eqb (to_ascii_uppercase kw) (s2b "EXPOSE") = false ->
  list_N_eqb (to_ascii_uppercase kw) (s2b "ENV") = false ->
  (list_N_eqb (to_ascii_uppercase kw) (s2b "ENTRYPOINT") ||
   list_N_eqb (to_ascii_uppercase kw) (s2b "CMD") = true ->
     (a0 =? HASH) = false /\ (a0 =? LBRACKET) = false) ->
  exists d kw', decode_bytes (lead ++ kw ++ SPACE :: args ++ [LF]) = Ok [d] /\
    render d = kw' ++ SPACE :: args /\ to_ascii_uppercase kw' = to_ascii_uppercase kw.
Proof.
  intros Hlead Hkw Hargs Hsp Hbs Hlf Hobs Hv Hexp Henv Hshell. subst args.
  rewrite (decode_line_observed lead kw a0 rest Hlead Hkw Hsp Hbs Hlf Hobs).
  unfold line_directive. rewrite (directive_try_from_keyword kw Hkw). cbv zeta. cbn [obind].
  assert (Hverb : forall b, (if utf8_valid (a0 :: rest) then a0 :: rest else b) = a0 :: rest)
    by (intros; rewrite Hv; reflexivity).
  destruct (list_N_eqb (to_ascii_uppercase kw) (s2b "ENTRYPOINT")) eqn:E1.
  { destruct (Hshell eq_refl) as [Hh Hk]. cbn [is_cmd is_entrypoint orb andb].
    rewrite Hh. unfold mode_from. rewrite Hk. cbn [negb set_mode obind set_arguments].
    exists (Entrypoint (Some Shell) (filter utf8_valid (split_on SPACE (a0 :: rest)))), (s2b "ENTRYPOINT").
    split; [|split].
    - reflexivity.
    - unfold render, prefix, arguments. rewrite shell_tokens_render by exact Hv. reflexivity.
    - symmetry. apply upper_of_eqb. exact E1. }
  destruct (list_N_eqb (to_ascii_uppercase kw) (s2b "CMD")) eqn:E2.
  { destruct (Hshell eq_refl) as [Hh Hk]. cbn [is_cmd is_entrypoint orb andb].
    rewrite Hh. unfold mode_from. rewrite Hk. cbn [negb set_mode obind set_arguments].
    exists (Cmd (Some Shell) (filter utf8_valid (split_on SPACE (a0 :: rest)))), (s2b "CMD").
    split; [|split].
    - reflexivity.
    - unfold render, prefix, arguments. rewrite shell_tokens_render by exact Hv. reflexivity.
    - symmetry. apply upper_of_eqb. exact E2. }
  rewrite Hexp.
  destruct (list_N_eqb (to_ascii_uppercase kw) (s2b "RUN")) eqn:E3.
  { exists (Run (a0 :: rest)), (s2b "RUN"). split; [|split].
    - reflexivity.
    - unfold render, prefix, arguments. rewrite Hverb. reflexivity.
    - symmetry. apply upper_of_eqb. exact E3. }
  destruct (list_N_eqb (to_ascii_uppercase kw) (s2b "USER")) eqn:E4.
  { exists (User (a0 :: rest)), (s2b "USER"). split; [|split].
    - reflexivity.
    - unfold render, prefix, arguments. rewrite Hverb. reflexivity.
    - symmetry. apply upper_of_eqb. exact E4. }
  rewrite Henv.
  destruct (list_N_eqb (to_ascii_uppercase kw) (s2b "FROM")) eqn:E5.
  { exists (From (a0 :: rest)), (s2b "FROM"). split; [|split].
    - reflexivity.
    - unfold render, prefix, arguments. rewrite Hverb. reflexivity.
    - symmetry. apply upper_of_eqb. exact E5. }
  { exists (Other kw (a0 :: rest)), kw. split; [|split].
    - reflexivity.
    - unfold render, prefix, arguments. rewrite Hverb. reflexivity.
    - reflexivity. }
Qed.

(** C3 (amended): a single line, after leading whitespace, renders back
    to its own text up to the letter case of the keyword in these cases: a
    keyword (ASCII, starting with a letter, no space) other than EXPOSE and
    ENV, one space, then arguments that are valid UTF-8, do not start with a
    space or a backslash, hold no line feed, and after which the line feed
    is not escaped (backslashes are allowed, but not a trailing one that
    would continue the line); for ENTRYPOINT and CMD the shell form, not
    starting with [[] or [#].  This covers RUN, USER, FROM, shell-form
    ENTRYPOINT and CMD and every other keyword, ADD included (decoded as
    [Other]).  A comment [#text] renders as [# text]. *)
Theorem decoded_line_renders_back :
  (forall lead text,
     forallb is_ascii_whitespace lead = true -> no_lf text = true -> utf8_valid text = true ->
     decode_bytes (lead ++ HASH :: text ++ [LF]) = Ok [Comment text] /\
     render (Comment text) = s2b "# " ++ text) /\
  (forall (lead kw args : list N) (a0 : N) (rest : list N),
     forallb is_ascii_whitespace lead = true -> keyword_ok kw = true ->
     args = a0 :: rest -> (a0 =? SPACE) = false -> (a0 =? BACKSLASH) = false ->
     no_lf args = true -> lf_observed args = true -> utf8_valid args = true ->
     list_N_eqb (to_ascii_uppercase kw) (s2b "EXPOSE") = false ->
     list_N_eqb (to_ascii_uppercase kw) (s2b "ENV") = false ->
     (list_N_eqb (to_ascii_uppercase kw) (s2b "ENTRYPOINT") ||
      list_N_eqb (to_ascii_uppercase kw) (s2b "CMD") = true ->
        (a0 =? HASH) = false /\ (a0 =? LBRACKET) = false) ->
     exists d kw', decode_bytes (lead ++ kw ++ SPACE :: args ++ [LF]) = Ok [d] /\
       render d = kw' ++ SPACE :: args /\ to_ascii_uppercase kw' = to_ascii_uppercase kw).
Proof. split; [exact render_comment_roundtrip | exact render_line_roundtrip]. Qed.

Lemma decoded_line_renders_back_witness :
  (decode_bytes (s2b "  " ++ HASH :: s2b " note" ++ [LF]) = Ok [Comment (s2b " note")] /\
   render (Comment (s2b " note")) = s2b "# " ++ s2b " note") /\
  (exists d kw', decode_bytes (s2b "  " ++ s2b "cmd" ++ SPACE :: s2b "npm start" ++ [LF]) = Ok [d] /\
     render d = kw' ++ SPACE :: s2b "npm start" /\
     to_ascii_uppercase kw' = to_ascii_uppercase (s2b "cmd")) /\
  (exists d kw', decode_bytes ([] ++ s2b "RUN" ++ SPACE :: (s2b "printf a" ++ BACKSLASH :: s2b "nb") ++ [LF]) = Ok [d] /\
     render d = kw' ++ SPACE :: (s2b "printf a" ++ BACKSLASH :: s2b "nb") /\
     to_ascii_uppercase kw' = to_ascii_uppercase (s2b "RUN")).
Proof.
  split; [|split].
  - apply (proj1 decoded_line_renders_back); vm_compute; reflexivity.
  - apply (proj2 decoded_line_renders_back (s2b "  ") (s2b "cmd") (s2b "npm start")
             (Byte.to_N Byte.x6e) (s2b "pm start")); vm_compute; try reflexivity.
    intros _. split; reflexivity.
  - apply (proj2 decoded_line_renders_back [] (s2b "RUN") (s2b "printf a" ++ BACKSLASH :: s2b "nb")
             (Byte.to_N Byte.x70) (s2b "rintf a" ++ BACKSLASH :: s2b "nb")); vm_compute; try reflexivity.
    intros H; discriminate H.
Defined.

Lemma feed_ignore_line d rest : forall p ss,
  forallb (fun c => negb (c =? HASH)) rest = true ->
  exists ss', feed_all (Some (DecoderState.DirectiveArguments d (Some p) IgnoreLine ss)) rest =
    Ok ([], Some (DecoderState.DirectiveArguments d (Some (p ++ rest)) IgnoreLine ss')).
Proof.
  induction rest as [|c rest IH]; intros p ss H.
  - exists ss. rewrite app_nil_r. reflexivity.
  - cbn [forallb] in H. apply andb_prop in H as [Hc H]. apply negb_true_iff in Hc.
    cbn [feed_all]. rewrite decode_arguments_byte. unfold directive_arguments_step.
    cbn [is_none is_observe negb orb andb].
    rewrite !andb_false_r. cbn [orb].
    destruct (c =? LF) eqn:Hl; cbn [andb].
    + destruct (IH (p ++ [c]) ss H) as [ss' Hf]. exists ss'. cbn [obind]. rewrite Hf, <- app_assoc. reflexivity.
    + destruct (c =? BACKSLASH).
      * destruct (IH (p ++ [c]) ss H) as [ss' Hf]. exists ss'. cbn [obind]. rewrite Hf, <- app_assoc. reflexivity.
      * rewrite Hc. cbn [obind is_escaped].
        edestruct IH as [ss' Hf]; [exact H|]. exists ss'. cbn [obind]. rewrite Hf, <- app_assoc. reflexivity.
Qed.

Lemma ends_with_escaped_newline_snoc p : ends_with_escaped_newline (p ++ [BACKSLASH; LF]) = true.
Proof.
  unfold ends_with_escaped_newline. rewrite rev_app_distr. reflexivity.
Qed.

Lemma step_backslash_observe d p ss :
  directive_arguments_step BACKSLASH (d, Some p, Observe, ss) =
    Ok (Continue (d, Some (p ++ [BACKSLASH]), Escaped, ss)).
Proof. reflexivity. Qed.

Lemma step_lf_escaped d p ss :
  directive_arguments_step LF (d, Some p, Escaped, ss) =
    Ok (Continue (d, Some (p ++ [LF]), Escaped, ss)).
Proof. reflexivity. Qed.

Lemma step_hash_empty_stack d p nl :
  directive_arguments_step HASH (d, Some p, nl, []) =
    Ok (Continue (d, Some (p ++ [HASH]),
                  if ends_with_escaped_newline p then IgnoreLine else Observe, [])).
Proof. reflexivity. Qed.

(** X9: after an escaped line feed in RUN arguments, a line starting
    with ['#'] is skipped as a comment line, when the arguments before the
    backslash leave no quote open and no escape pending; when no later
    ['#'] comes, the whole rest of the input, line feeds included, ends up
    in the RUN arguments. *)
Theorem decode_comment_after_escaped_newline a0 a' rest :
  (a0 =? SPACE) = false -> (a0 =? BACKSLASH) = false -> no_lf (a0 :: a') = true ->
  lf_observed (a0 :: a') = true -> quotes_closed (a0 :: a') = true ->
  forallb (fun c => negb (c =? HASH)) rest = true ->
  decode_bytes (s2b "RUN" ++ SPACE :: (a0 :: a') ++ [BACKSLASH; LF; HASH] ++ rest) =
    Ok [Run ((a0 :: a') ++ [BACKSLASH; LF; HASH] ++ rest)].
Proof.
  intros Hsp Hbs Hlf Hobs Hq Hr. rewrite decode_bytes_feed_all.
  replace (s2b "RUN" ++ SPACE :: (a0 :: a') ++ [BACKSLASH; LF; HASH] ++ rest)
    with (s2b "RUN " ++ (a0 :: a') ++ [BACKSLASH; LF; HASH] ++ rest) by reflexivity.
  rewrite feed_all_app. change (feed_all None (s2b "RUN "))
    with (Ok (E := DecodeError.t) ([] : list Directive,
            Some (DecoderState.DirectiveArguments (Run []) None Observe []))).
  cbn [obind]. rewrite feed_all_app.
  destruct (feed_args_fresh a0 a' Hsp Hbs Hlf) as [nl [ss Hf]].
  unfold lf_observed, quotes_closed in *. rewrite (arguments_end_fresh a0 a' nl ss Hf) in Hobs, Hq.
  destruct nl; try discriminate Hobs. destruct ss; try discriminate Hq.
  rewrite Hf. cbn [is_cmd is_entrypoint orb andb obind].
  set (a := a0 :: a').
  cbn [app feed_all]. rewrite decode_arguments_byte, step_backslash_observe. cbn [obind].
  rewrite decode_arguments_byte, step_lf_escaped. cbn [obind].
  rewrite decode_arguments_byte, step_hash_empty_stack. cbn [obind].
  replace ((a ++ [BACKSLASH]) ++ [LF]) with (a ++ [BACKSLASH; LF])
    by (rewrite <- app_assoc; reflexivity).
  rewrite ends_with_escaped_newline_snoc.
  destruct (feed_ignore_line (Run []) rest ((a ++ [BACKSLASH; LF]) ++ [HASH]) [] Hr) as [ss' Hi].
  rewrite Hi. cbn. rewrite <- !app_assoc. reflexivity.
Qed.

Lemma decode_comment_after_escaped_newline_witness :
  ((Byte.to_N Byte.x65 =? SPACE) = false /\ (Byte.to_N Byte.x65 =? BACKSLASH) = false /\
   no_lf (s2b "echo 'a b'") = true /\ lf_observed (s2b "echo 'a b'") = true /\
   quotes_closed (s2b "echo 'a b'") = true /\
   forallb (fun c => negb (c =? HASH)) (s2b " all" ++ [LF] ++ s2b "FROM x" ++ [LF]) = true) /\
  decode_bytes (s2b "RUN" ++ SPACE :: s2b "echo 'a b'" ++ [BACKSLASH; LF; HASH] ++
                (s2b " all" ++ [LF] ++ s2b "FROM x" ++ [LF])) =
    Ok [Run (s2b "echo 'a b'" ++ [BACKSLASH; LF; HASH] ++ (s2b " all" ++ [LF] ++ s2b "FROM x" ++ [LF]))].
Proof.
  split; [repeat split; vm_compute; reflexivity|].
  apply (decode_comment_after_escaped_newline (Byte.to_N Byte.x65) (s2b "cho 'a b'")); vm_compute; reflexivity.
Defined.

(** *** Further properties of the build transform *)

Lemma last_of_true f l x : last_of f l = Some x -> f x = true.
Proof.
  induction l as [|a l IH]; simpl; [discriminate|].
  destruct (last_of f l); [exact IH|]. destruct (f a) eqn:Ha; intros H; [congruence|discriminate].
Qed.

Lemma filter_tracking_last_gen t l :
  snd (filter_tracking t l) =
    mkTracked (or_else (last_of is_cmd l) (last_cmd t))
              (or_else (last_of is_entrypoint l) (last_entrypoint t))
              (match last_of is_expose l with Some (Expose p) => p | _ => exposed_port t end).
Proof.
  revert t; induction l as [|d rest IH]; intros t; [destruct t; reflexivity|].
  simpl. destruct (remove_unwanted_directives t d) as [keep t'] eqn:Hr.
  specialize (IH t'). destruct (filter_tracking t' rest) as [kept t''] eqn:Hf. simpl in *.
  rewrite IH. unfold remove_unwanted_directives in Hr.
  destruct d; simpl in Hr; injection Hr as <- <-; simpl;
    (destruct (last_of is_expose rest) as [x|] eqn:He;
     [apply last_of_true in He; destruct x; try discriminate|]);
    destruct (last_of is_cmd rest), (last_of is_entrypoint rest); reflexivity.
Qed.

(** X16: the filter of [process_dockerfile], started from the empty record,
    ends holding the last CMD, the last ENTRYPOINT and the port of the last
    EXPOSE of its input ([None] where there is none). *)
Theorem filter_tracking_last l :
  snd (filter_tracking (mkTracked None None None) l) =
    mkTracked (last_of is_cmd l) (last_of is_entrypoint l)
              (match last_of is_expose l with Some (Expose p) => p | _ => None end).
Proof.
  rewrite filter_tracking_last_gen. simpl.
  destruct (last_of is_cmd l), (last_of is_entrypoint l); reflexivity.
Qed.

Lemma last_of_app f l1 l2 : last_of f (l1 ++ l2) = or_else (last_of f l2) (last_of f l1).
Proof.
  induction l1 as [|a l1 IH]; simpl; [destruct (last_of f l2); reflexivity|].
  rewrite IH. destruct (last_of f l2); [reflexivity|]. simpl. destruct (last_of f l1); reflexivity.
Qed.

Lemma last_of_in f l d : In d l -> f d = true -> exists x, last_of f l = Some x.
Proof.
  induction l as [|a l IH]; intros Hin Hf; [destruct Hin|]. simpl.
  destruct (last_of f l) as [x|]; [eauto|].
  destruct Hin as [<-|Hin]; [rewrite Hf; eauto|].
  destruct (IH Hin Hf) as [x Hx]. discriminate.
Qed.

Lemma last_of_superseded f l1 d l2 d' :
  In d' l2 -> f d' = f d -> last_of f (l1 ++ d :: l2) = last_of f (l1 ++ l2).
Proof.
  intros Hin Heq. rewrite !last_of_app. simpl.
  destruct (f d) eqn:Hd.
  - destruct (last_of_in f l2 d' Hin) as [x Hx]; [congruence|]. rewrite Hx. reflexivity.
  - destruct (last_of f l2); reflexivity.
Qed.

(** X17: removing a CMD, ENTRYPOINT or EXPOSE directive that a later
    directive of the same kind supersedes does not change the result of the
    build transform. *)
Theorem transform_drops_superseded cfg ev dpv iv l1 d l2 d' :
  user_kept d = false -> In d' l2 ->
  is_cmd d' = is_cmd d -> is_entrypoint d' = is_entrypoint d -> is_expose d' = is_expose d ->
  transform_directives cfg ev dpv iv (l1 ++ d :: l2) = transform_directives cfg ev dpv iv (l1 ++ l2).
Proof.
  intros Hk Hin H1 H2 H3. unfold transform_directives.
  assert (Hft : filter_tracking (mkTracked None None None) (l1 ++ d :: l2) =
                filter_tracking (mkTracked None None None) (l1 ++ l2)).
  { rewrite (surjective_pairing (filter_tracking _ (l1 ++ d :: l2))),
            (surjective_pairing (filter_tracking _ (l1 ++ l2))).
    rewrite !filter_tracking_kept, !filter_tracking_last_gen, !filter_app. simpl. rewrite Hk.
    rewrite (last_of_superseded is_cmd l1 d l2 d' Hin H1),
            (last_of_superseded is_entrypoint l1 d l2 d' Hin H2),
            (last_of_superseded is_expose l1 d l2 d' Hin H3). reflexivity. }
  rewrite Hft. reflexivity.
Qed.

Lemma transform_drops_superseded_witness :
  (user_kept (Expose (Some 443)) = false /\ In (Expose (Some 8080)) [Expose (Some 8080)] /\
   is_cmd (Expose (Some 8080)) = is_cmd (Expose (Some 443)) /\
   is_entrypoint (Expose (Some 8080)) = is_entrypoint (Expose (Some 443)) /\
   is_expose (Expose (Some 8080)) = is_expose (Expose (Some 443))) /\
  transform_directives sample_config None (s2b "1.0.0") (s2b "1.0.0")
    (sample_directives ++ Expose (Some 443) :: [Expose (Some 8080)]) =
  transform_directives sample_config None (s2b "1.0.0") (s2b "1.0.0")
    (sample_directives ++ [Expose (Some 8080)]).
Proof.
  split; [repeat split; simpl; auto|].
  apply (transform_drops_superseded _ _ _ _ _ _ _ (Expose (Some 8080))); simpl; auto.
Defined.

(** *** Further properties of [deploy_eif] and [timed_operation] *)

Lemma list_N_eqb_neq p q : p <> q -> list_N_eqb p q = false.
Proof. intros H. destruct (list_N_eqb p q) eqn:E; [apply list_N_eqb_eq in E; contradiction|reflexivity]. Qed.

Lemma zip_ne_eif out : path_join out ENCLAVE_FILENAME <> path_join out ENCLAVE_ZIP_FILENAME.
Proof.
  unfold path_join. intros H. apply app_inv_head in H. discriminate.
Qed.

Lemma path_exists_cons_other q p fs : q <> p -> path_exists q (p :: fs) = path_exists q fs.
Proof. intros H. unfold path_exists. simpl. rewrite list_N_eqb_neq by exact H. reflexivity. Qed.

Lemma path_exists_filter_other p q fs :
  q <> p -> path_exists q (filter (fun x => negb (list_N_eqb p x)) fs) = path_exists q fs.
Proof.
  intros H. unfold path_exists. induction fs as [|x fs IH]; [reflexivity|]. simpl.
  destruct (list_N_eqb p x) eqn:Hx; simpl.
  - apply list_N_eqb_eq in Hx. subst x. rewrite list_N_eqb_neq by exact H. exact IH.
  - rewrite IH. reflexivity.
Qed.

Lemma zip_added_other q zip fs :
  q <> zip -> path_exists q (if path_exists zip fs then fs else zip :: fs) = path_exists q fs.
Proof. intros H. destruct (path_exists zip fs); [reflexivity|]. apply path_exists_cons_other, H. Qed.

Lemma zip_added_self zip fs : path_exists zip (if path_exists zip fs then fs else zip :: fs) = true.
Proof. destruct (path_exists zip fs) eqn:Hz; [exact Hz|apply path_exists_cons]. Qed.

Ltac deploy_cases :=
  repeat (cbv beta iota;
          match goal with |- context [match ?x with _ => _ end] =>
            lazymatch x with
            | (_, _) => fail
            | context [match _ with _ => _ end] => fail
            | _ => destruct x eqn:?
            end
          end).

(** The state after [deploy_eif] is the state after [create_zip_archive_for_eif]
    or that state without the zip. *)
Lemma deploy_eif_state remote out fs :
  let zip := path_join out ENCLAVE_ZIP_FILENAME in
  let fs1 := if path_exists zip fs then fs else zip :: fs in
  snd (deploy_eif remote out fs) = fs1 \/
  snd (deploy_eif remote out fs) = filter (fun q => negb (list_N_eqb zip q)) fs1.
Proof.
  cbv zeta.
  unfold deploy_eif, mbind, create_zip_archive_for_eif, open_file, get_eif_size_bytes, lift,
    remove_file, ret, throw.
  deploy_cases;
    solve [left; reflexivity | right; reflexivity].
Qed.

(** X18: whatever the remote side answers, [deploy_eif] changes no path of
    the file system other than [enclave.zip] in the output directory. *)
Theorem deploy_eif_only_zip remote out fs q :
  q <> path_join out ENCLAVE_ZIP_FILENAME ->
  path_exists q (snd (deploy_eif remote out fs)) = path_exists q fs.
Proof.
  intros Hq. destruct (deploy_eif_state remote out fs) as [H|H]; rewrite H.
  - apply zip_added_other, Hq.
  - rewrite path_exists_filter_other by exact Hq. apply zip_added_other, Hq.
Qed.

Lemma deploy_eif_only_zip_witness :
  s2b "out/Dockerfile" <> path_join (s2b "out") ENCLAVE_ZIP_FILENAME /\
  path_exists (s2b "out/Dockerfile")
    (snd (deploy_eif (sample_remote 200 5000) (s2b "out") (s2b "out/Dockerfile" :: sample_fs))) =
  path_exists (s2b "out/Dockerfile") (s2b "out/Dockerfile" :: sample_fs).
Proof.
  assert (H : s2b "out/Dockerfile" <> path_join (s2b "out") ENCLAVE_ZIP_FILENAME) by discriminate.
  exact (conj H (deploy_eif_only_zip _ _ _ _ H)).
Defined.

(** X19: [deploy_eif] succeeds only when [enclave.eif] exists, the
    deployment intent is created, the upload answers a 2xx status, the build
    watch reports completion and the deployment watch completes with [true]
    within 1200 seconds. *)
Theorem deploy_eif_succeeds remote out fs :
  fst (deploy_eif remote out fs) = Ok tt ->
  path_exists (path_join out ENCLAVE_FILENAME) fs = true /\ create_intent remote = Ok tt /\
  (exists r, put_response remote = Some r /\ is_success (status r) = true) /\
  build_watch remote = Ok true /\
  (exists ms, deployment_watch remote = Some (ms, Ok true) /\ ms <= 1200000).
Proof.
  pose proof (zip_ne_eif out) as Hne.
  unfold deploy_eif, mbind, create_zip_archive_for_eif, open_file, get_eif_size_bytes, lift,
    remove_file, ret, throw, timed_operation, timeout, duration_from_secs,
    DEPLOY_WATCH_TIMEOUT_SECONDS, obind.
  cbv zeta.
  destruct (path_exists (path_join out ENCLAVE_ZIP_FILENAME) fs) eqn:Hz;
    cbv beta iota;
    deploy_cases;
    intros H; try discriminate H;
    try rewrite (path_exists_cons_other _ _ _ Hne) in *;
    repeat match goal with a : unit |- _ => destruct a end;
    repeat split; try assumption;
    try (eexists; split; [reflexivity | assumption]);
    try (eexists; split; [reflexivity | apply N.leb_le; assumption]).
Qed.

Lemma deploy_eif_succeeds_witness :
  fst (deploy_eif (sample_remote 200 5000) (s2b "out") sample_fs) = Ok tt /\
  (path_exists (path_join (s2b "out") ENCLAVE_FILENAME) sample_fs = true /\
   create_intent (sample_remote 200 5000) = Ok tt /\
   (exists r, put_response (sample_remote 200 5000) = Some r /\ is_success (status r) = true) /\
   build_watch (sample_remote 200 5000) = Ok true /\
   (exists ms, deployment_watch (sample_remote 200 5000) = Some (ms, Ok true) /\ ms <= 1200000)).
Proof.
  assert (H : fst (deploy_eif (sample_remote 200 5000) (s2b "out") sample_fs) = Ok tt)
    by (vm_compute; reflexivity).
  exact (conj H (deploy_eif_succeeds _ _ _ H)).
Defined.

(** X20: without [enclave.eif] in the output directory, [deploy_eif] fails
    with [ZipError]. *)
Theorem deploy_eif_missing_eif remote out fs :
  path_exists (path_join out ENCLAVE_FILENAME) fs = false ->
  fst (deploy_eif remote out fs) = Err DeployError.ZipError.
Proof.
  intros Heif. unfold deploy_eif, mbind, create_zip_archive_for_eif. cbv zeta.
  rewrite zip_added_other by apply zip_ne_eif. rewrite Heif. reflexivity.
Qed.

Lemma deploy_eif_missing_eif_witness :
  path_exists (path_join (s2b "out") ENCLAVE_FILENAME) [] = false /\
  fst (deploy_eif (sample_remote 200 5000) (s2b "out") []) = Err DeployError.ZipError.
Proof.
  assert (H : path_exists (path_join (s2b "out") ENCLAVE_FILENAME) [] = false) by reflexivity.
  exact (conj H (deploy_eif_missing_eif _ _ _ H)).
Defined.

(** X21: when creating the deployment intent fails, or the upload request
    gets no response, [deploy_eif] returns that error and leaves
    [enclave.zip] in the output directory. *)
Theorem deploy_eif_early_failure_keeps_zip remote out fs e :
  path_exists (path_join out ENCLAVE_FILENAME) fs = true ->
  create_intent remote = Err e \/
  (create_intent remote = Ok tt /\ put_response remote = None /\ e = DeployError.RequestError) ->
  fst (deploy_eif remote out fs) = Err e /\
  path_exists (path_join out ENCLAVE_ZIP_FILENAME) (snd (deploy_eif remote out fs)) = true.
Proof.
  intros Heif Hc. pose proof (zip_ne_eif out) as Hne.
  pose proof (path_exists_cons (path_join out ENCLAVE_ZIP_FILENAME) fs) as Hzc.
  unfold deploy_eif, mbind, create_zip_archive_for_eif, open_file, get_eif_size_bytes, lift,
    remove_file, ret, throw, timed_operation, timeout, duration_from_secs,
    DEPLOY_WATCH_TIMEOUT_SECONDS, obind.
  cbv zeta.
  destruct (path_exists (path_join out ENCLAVE_ZIP_FILENAME) fs) eqn:Hz; cbv beta iota;
    deploy_cases;
    try rewrite (path_exists_cons_other _ _ _ Hne) in *; try rewrite path_exists_cons in *;
    destruct Hc as [Hc|(Hc & Hp & ->)]; try congruence;
    cbn [fst snd]; (split; [congruence|first [assumption | apply path_exists_cons]]).
Qed.

Lemma deploy_eif_early_failure_keeps_zip_witness :
  (path_exists (path_join (s2b "out") ENCLAVE_FILENAME) sample_fs = true /\
   (create_intent (mkRemote (Err DeployError.ApiError) None (Ok true) None) = Err DeployError.ApiError \/
    (create_intent (mkRemote (Err DeployError.ApiError) None (Ok true) None) = Ok tt /\
     put_response (mkRemote (Err DeployError.ApiError) None (Ok true) None) = None /\
     DeployError.ApiError = DeployError.RequestError))) /\
  fst (deploy_eif (mkRemote (Err DeployError.ApiError) None (Ok true) None) (s2b "out") sample_fs) =
    Err DeployError.ApiError /\
  path_exists (path_join (s2b "out") ENCLAVE_ZIP_FILENAME)
    (snd (deploy_eif (mkRemote (Err DeployError.ApiError) None (Ok true) None) (s2b "out") sample_fs)) =
    true.
Proof.
  assert (H1 : path_exists (path_join (s2b "out") ENCLAVE_FILENAME) sample_fs = true) by reflexivity.
  assert (H2 : create_intent (mkRemote (Err DeployError.ApiError) None (Ok true) None) =
               Err DeployError.ApiError \/
               (create_intent (mkRemote (Err DeployError.ApiError) None (Ok true) None) = Ok tt /\
                put_response (mkRemote (Err DeployError.ApiError) None (Ok true) None) = None /\
                DeployError.ApiError = DeployError.RequestError)) by (left; reflexivity).
  exact (conj (conj H1 H2) (deploy_eif_early_failure_keeps_zip _ _ _ _ H1 H2)).
Defined.

